(** * Sentiment-aware trading bot: the signal-scoring engine

    A shallow embedding of [backend/app/services/trading_service.py],
    [backend/app/schemas/trading.py] and the [execute_trade] endpoint of
    [backend/app/api/v1/endpoints/trading.py], and the properties the
    specification states about them.

    Numbers.  Python [float]s are modelled as exact rationals ([Q]): the
    scores are real-valued, not NaN and not infinite, and an equation
    between scores is stated up to [Qeq] ([==]).  Where the code turns a
    quotient into an integer with [int], the result depends on how the
    quotient is rounded and on whether it is finite, so those divisions are
    modelled with the rounding and the overflow of IEEE 754 binary64.
    Python [int]s are [Z].  A Python exception is an explicit [Raise] in
    the [result] type, so that a division by zero is visible in the
    model. *)

From Stdlib Require Import QArith Qround Qabs Qpower Lqa Lia ZArith String.
From stdpp Require Import base option list gmap strings pretty.

Local Open Scope Q_scope.

(** ** Python values and exceptions *)

Inductive exn : Type :=
| ZeroDivisionError
| OverflowError
| IndexError
| ValueError (msg : string)
| ValidationError (field : string)
| HTTPException (status_code : Z) (detail : string).

Inductive result (A : Type) : Type :=
| Ok (a : A)
| Raise (e : exn).
Arguments Ok {A} a.
Arguments Raise {A} e.

#[global] Instance result_ret : MRet result := fun A a => Ok a.
#[global] Instance result_bind : MBind result := fun A B k r =>
  match r with
  | Ok a => k a
  | Raise e => Raise e
  end.

(** [a < b] on floats, as a boolean ([Qle_bool] and [Qeq_bool] are the
    library's). *)
Definition Qlt_bool (a b : Q) : bool := negb (Qle_bool b a).

(** [a / b] on Python floats raises when the divisor is zero. *)
Definition py_div (a b : Q) : result Q :=
  if Qeq_bool b 0 then Raise ZeroDivisionError else Ok (a / b).

(** The builtin [max(a, b)] returns its first argument unless the second
    is strictly larger; [min(a, b)] likewise. *)
Definition py_max (a b : Q) : Q := if Qlt_bool a b then b else a.
Definition py_min (a b : Q) : Q := if Qlt_bool b a then b else a.

Definition py_max_Z (a b : Z) : Z := if (a <? b)%Z then b else a.
Definition py_min_Z (a b : Z) : Z := if (b <? a)%Z then b else a.

(** [int(x)] truncates towards zero. *)
Definition py_int (x : Q) : Z := Z.quot (Qnum x) (Zpos (Qden x)).

(** *** Binary64 floats, for the quotients that are turned into integers

    A float is a rational that binary64 represents, or an infinity. *)

Inductive pyfloat : Type :=
| Finite (x : Q)
| Infinity (negative : bool).

(** The integer part of the binary logarithm of a positive rational. *)
Definition ilog2 (x : Q) : Z :=
  let e := (Z.log2 (Qnum x) - Z.log2 (Zpos (Qden x)))%Z in
  if Qle_bool (2 ^ e) x then e else (e - 1)%Z.

(** The nearest integer of a rational that is not negative, a tie going
    to the even neighbour. *)
Definition round_half_even (x : Q) : Z :=
  let f := Qfloor x in
  match Qcompare (x - inject_Z f) (1 # 2) with
  | Lt => f
  | Gt => (f + 1)%Z
  | Eq => if Z.even f then f else (f + 1)%Z
  end.

(** Rounding a real result to binary64: 53 significant bits, the least
    exponent that of the subnormal numbers, and infinity from [2 ^ 1024]. *)
Definition binary64 (x : Q) : pyfloat :=
  if Qeq_bool x 0 then Finite 0
  else
    let a := Qabs x in
    let e := Z.max (ilog2 a - 52) (-1074) in
    let y := inject_Z (round_half_even (a / 2 ^ e)) * 2 ^ e in
    if Qle_bool (2 ^ 1024) y then Infinity (Qlt_bool x 0)
    else Finite (if Qlt_bool x 0 then - y else y).

(** The float that a decimal literal of the source denotes. *)
Definition literal (x : Q) : Q :=
  match binary64 x with
  | Finite y => y
  | Infinity _ => x
  end.

(** [a / b] and [a * b] on floats, the left operand possibly infinite.
    Division by zero raises, also of an infinity; overflow does not. *)
Definition float_div (a : pyfloat) (b : Q) : result pyfloat :=
  if Qeq_bool b 0 then Raise ZeroDivisionError
  else
    match a with
    | Finite x => Ok (binary64 (x / b))
    | Infinity negative => Ok (Infinity (xorb negative (Qlt_bool b 0)))
    end.

Definition float_mul (a b : Q) : pyfloat := binary64 (a * b).

(** [min(a, b)] with a finite second argument. *)
Definition float_min (a : pyfloat) (b : Q) : pyfloat :=
  match a with
  | Finite x => Finite (py_min x b)
  | Infinity true => a
  | Infinity false => Finite b
  end.

(** [int(x)] of a float: an infinity cannot be converted. *)
Definition float_int (a : pyfloat) : result Z :=
  match a with
  | Finite x => Ok (py_int x)
  | Infinity _ => Raise OverflowError
  end.

(** [sum(xs)] over floats, and over ints. *)
Definition py_sum (xs : list Q) : Q := fold_left Qplus xs 0.
Definition py_sum_Z (xs : list Z) : Z := fold_left Z.add xs 0%Z.

(** *** Indexing and slicing with negative positions *)

Definition norm_index (len i : Z) : Z := if (i <? 0)%Z then (i + len)%Z else i.

Definition clip_index (len i : Z) : Z :=
  let j := norm_index len i in Z.max 0 (Z.min len j).

(** [l[i]] *)
Definition py_index {A : Type} (l : list A) (i : Z) : result A :=
  let j := norm_index (Z.of_nat (length l)) i in
  if (j <? 0)%Z then Raise IndexError
  else match l !! Z.to_nat j with
       | Some x => Ok x
       | None => Raise IndexError
       end.

(** [l[start:stop]]; an omitted bound is [None]. *)
Definition py_slice {A : Type} (l : list A) (start stop : option Z) : list A :=
  let len := Z.of_nat (length l) in
  let lo := match start with Some i => clip_index len i | None => 0%Z end in
  let hi := match stop with Some i => clip_index len i | None => len end in
  take (Z.to_nat (hi - lo)) (drop (Z.to_nat lo) l).

(** ** Schemas ([app/schemas/trading.py]) *)

Inductive SignalType : Type := BUY | SELL | HOLD.
Inductive RiskLevel : Type := LOW | MEDIUM | HIGH.

Record NewsItem : Type := mkNewsItem {
  news_id : Z;
  title : string;
  sentiment : Q;
  sentiment_confidence : Q
}.

Record MarketData : Type := mkMarketData {
  md_symbol : string;
  md_timestamp : Z;
  open_price : Q;
  high_price : Q;
  low_price : Q;
  close_price : Q;
  volume : Z
}.

Record TechnicalIndicators : Type := mkTechnicalIndicators {
  ti_symbol : string;
  ti_timestamp : Z;
  sma_20 : option Q;
  sma_50 : option Q;
  ema_12 : option Q;
  ema_26 : option Q;
  rsi : option Q;
  macd : option Q;
  macd_signal : option Q;
  macd_histogram : option Q;
  bollinger_upper : option Q;
  bollinger_middle : option Q;
  bollinger_lower : option Q;
  stochastic_k : option Q;
  stochastic_d : option Q;
  williams_r : option Q;
  atr : option Q
}.

(** ** [TradingService._calculate_sentiment_score] *)

(** The body of [for i, news in enumerate(news_data)], threading the two
    accumulators [total_weight] and [weighted_sentiment]. *)
Fixpoint sentiment_loop (i : nat) (news_data : list NewsItem)
    (total_weight weighted_sentiment : Q) : Q * Q :=
  match news_data with
  | [] => (total_weight, weighted_sentiment)
  | news :: rest =>
      let weight := 1 / inject_Z (Z.of_nat i + 1) in
      let sentiment_ := sentiment news * sentiment_confidence news in
      sentiment_loop (S i) rest
        (total_weight + weight) (weighted_sentiment + sentiment_ * weight)
  end.

Definition _calculate_sentiment_score (news_data : list NewsItem) : Q :=
  match news_data with
  | [] => 0
  | _ =>
      let '(total_weight, weighted_sentiment) := sentiment_loop 0 news_data 0 0 in
      if Qlt_bool 0 total_weight then weighted_sentiment / total_weight else 0
  end.

(** ** [TradingService._calculate_technical_score] *)

(** Truthiness of an optional float: [None] and [0.0] are both false. *)
Definition truthy (o : option Q) : bool :=
  match o with
  | Some x => negb (Qeq_bool x 0)
  | None => false
  end.

(** Each block of the method updates the pair [(score, signals_count)]. *)
Definition rsi_signals (indicators : TechnicalIndicators) (st : Q * Z) : Q * Z :=
  let '(score, signals_count) := st in
  match rsi indicators with
  | Some r =>
      let score :=
        if Qlt_bool r 30 then score + 0.7
        else if Qlt_bool 70 r then score - 0.7
        else if Qle_bool 40 r && Qle_bool r 60 then score + 0.1
        else score in
      (score, (signals_count + 1)%Z)
  | None => st
  end.

Definition macd_signals (indicators : TechnicalIndicators) (st : Q * Z) : Q * Z :=
  let '(score, signals_count) := st in
  match macd indicators, macd_signal indicators with
  | Some m, Some s =>
      let score := if Qlt_bool s m then score + 0.5 else score - 0.5 in
      (score, (signals_count + 1)%Z)
  | _, _ => st
  end.

Definition moving_average_signals (indicators : TechnicalIndicators) (st : Q * Z)
    : Q * Z :=
  let '(score, signals_count) := st in
  match sma_20 indicators, sma_50 indicators with
  | Some s20, Some s50 =>
      let score := if Qlt_bool s50 s20 then score + 0.6 else score - 0.6 in
      (score, (signals_count + 1)%Z)
  | _, _ => st
  end.

Definition price_vs_sma_signals (indicators : TechnicalIndicators)
    (current_price : Q) (st : Q * Z) : result (Q * Z) :=
  let '(score, signals_count) := st in
  match sma_20 indicators with
  | Some s20 =>
      price_vs_sma ← py_div (current_price - s20) s20;
      mret (score + py_min (py_max (price_vs_sma * 2) (-0.5)) 0.5,
            (signals_count + 1)%Z)
  | None => mret st
  end.

Definition bollinger_signals (indicators : TechnicalIndicators)
    (current_price : Q) (st : Q * Z) : result (Q * Z) :=
  let '(score, signals_count) := st in
  if truthy (bollinger_upper indicators) && truthy (bollinger_lower indicators)
     && truthy (bollinger_middle indicators)
  then
    match bollinger_upper indicators, bollinger_lower indicators with
    | Some upper, Some lower =>
        bb_position ← py_div (current_price - lower) (upper - lower);
        let score :=
          if Qlt_bool bb_position 0.2 then score + 0.4
          else if Qlt_bool 0.8 bb_position then score - 0.4
          else score in
        mret (score, (signals_count + 1)%Z)
    | _, _ => mret st
    end
  else mret st.

Definition stochastic_signals (indicators : TechnicalIndicators) (st : Q * Z)
    : Q * Z :=
  let '(score, signals_count) := st in
  match stochastic_k indicators with
  | Some k =>
      let score :=
        if Qlt_bool k 20 then score + 0.3
        else if Qlt_bool 80 k then score - 0.3
        else score in
      (score, (signals_count + 1)%Z)
  | None => st
  end.

Definition _calculate_technical_score (indicators : TechnicalIndicators)
    (market_data : list MarketData) : result Q :=
  let st := (0, 0%Z) in
  last_bar ← py_index market_data (-1);
  let current_price := close_price last_bar in
  let st := rsi_signals indicators st in
  let st := macd_signals indicators st in
  let st := moving_average_signals indicators st in
  st ← price_vs_sma_signals indicators current_price st;
  st ← bollinger_signals indicators current_price st;
  let '(score, signals_count) := stochastic_signals indicators st in
  if (0 <? signals_count)%Z then mret (score / inject_Z signals_count) else mret 0.

(** ** [TradingService._calculate_volume_score]

    The volumes are Python [int]s; their conversion to a float is taken
    exactly, as it is for volumes within the float range. *)

Definition _calculate_volume_score (market_data : list MarketData) : result Q :=
  if (Z.of_nat (length market_data) <? 20)%Z then mret 0
  else
    let recent_volumes := map volume (py_slice market_data (Some (-5)%Z) None) in
    let avg_volume :=
      inject_Z (py_sum_Z (map volume (py_slice market_data (Some (-20)%Z) (Some (-5)%Z))))
      / 15 in
    if Qeq_bool avg_volume 0 then mret 0
    else
      current_volume ← py_index recent_volumes (-1);
      volume_ratio ← py_div (inject_Z current_volume) avg_volume;
      if Qlt_bool 1.5 volume_ratio then mret 0.5
      else if Qlt_bool volume_ratio 0.5 then mret (-0.2)
      else mret 0.1.

(** ** [TradingService._calculate_momentum_score] *)

(** [(current_price - market_data[k].close_price) / market_data[k].close_price] *)
Definition period_return (market_data : list MarketData) (current_price : Q)
    (k : Z) : result Q :=
  past ← py_index market_data k;
  py_div (current_price - close_price past) (close_price past).

Definition _calculate_momentum_score (market_data : list MarketData) : result Q :=
  let len := Z.of_nat (length market_data) in
  if (len <? 10)%Z then mret 0
  else
    last_bar ← py_index market_data (-1);
    let current_price := close_price last_bar in
    day_1_return ← period_return market_data current_price (-2);
    day_5_return ←
      (if (6 <=? len)%Z then period_return market_data current_price (-6)
       else mret 0);
    day_10_return ←
      (if (11 <=? len)%Z then period_return market_data current_price (-11)
       else mret 0);
    let momentum_score :=
      day_1_return * 0.5 + day_5_return * 0.3 + day_10_return * 0.2 in
    mret (py_min (py_max (momentum_score * 10) (-1)) 1).

(** ** [TradingService._determine_signal_type] *)

(** The [config] argument is a plain [Dict[str, Any]], read with
    [config.get(key, default)].  The model is of configurations whose
    entries are finite numbers; an entry that is not a number makes the
    comparison or the division that reads it raise [TypeError], which is
    not part of the model. *)
Definition config_get (config : gmap string Q) (key : string) (dflt : Q) : Q :=
  default dflt (config !! key).

Definition _determine_signal_type (combined_score : Q) (config : gmap string Q)
    : SignalType :=
  let buy_threshold := config_get config "buy_threshold" 0.3 in
  let sell_threshold := config_get config "sell_threshold" (-0.3) in
  if Qle_bool buy_threshold combined_score then BUY
  else if Qle_bool combined_score sell_threshold then SELL
  else HOLD.

(** ** [TradingService._calculate_confidence] *)

(** [sum(1 for s in xs if p(s))] *)
Definition count_if (p : Q -> bool) (xs : list Q) : Z :=
  Z.of_nat (length (filter (fun s => Is_true (p s)) xs)).

Definition _calculate_confidence (scores : list (option Q)) : Q :=
  let valid_scores := omap id scores in
  match valid_scores with
  | [] => 0
  | _ =>
      let n := Z.of_nat (length valid_scores) in
      let positive_scores := count_if (fun s => Qlt_bool 0.1 s) valid_scores in
      let negative_scores := count_if (fun s => Qlt_bool s (-0.1)) valid_scores in
      let neutral_scores := (n - positive_scores - negative_scores)%Z in
      let max_agreement :=
        py_max_Z (py_max_Z positive_scores negative_scores) neutral_scores in
      (* [len(valid_scores)] is not zero past the emptiness test *)
      let agreement_ratio := inject_Z max_agreement / inject_Z n in
      let avg_magnitude := py_sum (map Qabs valid_scores) / inject_Z n in
      let confidence := agreement_ratio * 0.6 + avg_magnitude * 0.4 in
      py_min confidence 1
  end.

(** ** [TradingService._calculate_risk_level] *)

(** [np.mean] and the square of [np.std] (population variance). *)
Definition np_mean (xs : list Q) : Q :=
  py_sum xs / inject_Z (Z.of_nat (length xs)).

Definition np_var (xs : list Q) : Q :=
  let m := np_mean xs in np_mean (map (fun x => (x - m) * (x - m)) xs).

(** The test [np.std(xs) > t] for a threshold [0 <= t]: the square root is
    not taken, the squares are compared. *)
Definition np_std_gt (xs : list Q) (t : Q) : bool := Qlt_bool (t * t) (np_var xs).

(** The test [np.std(xs) / np.mean(xs) > t] for [0 < t].  NumPy scalars do
    not raise on a zero mean: the quotient is [inf] (larger than [t]) when
    the deviation is positive and [nan] (every comparison false) when it is
    zero.  A negative mean makes the quotient non-positive. *)
Definition np_std_over_mean_gt (xs : list Q) (t : Q) : bool :=
  let m := np_mean xs in
  if Qlt_bool 0 m then Qlt_bool ((t * m) * (t * m)) (np_var xs)
  else if Qeq_bool m 0 then Qlt_bool 0 (np_var xs)
  else false.

Definition volatility_check (market_data : list MarketData) (risk_factors : Z) : Z :=
  if (20 <=? Z.of_nat (length market_data))%Z then
    let recent_prices := map close_price (py_slice market_data (Some (-20)%Z) None) in
    if np_std_over_mean_gt recent_prices 0.03 then (risk_factors + 1)%Z
    else risk_factors
  else risk_factors.

Definition atr_check (market_data : list MarketData)
    (indicators : TechnicalIndicators) (risk_factors : Z) : result Z :=
  if truthy (atr indicators) && (0 <? Z.of_nat (length market_data))%Z then
    match atr indicators with
    | Some a =>
        last_bar ← py_index market_data (-1);
        atr_ratio ← py_div a (close_price last_bar);
        if Qlt_bool 0.025 atr_ratio then mret (risk_factors + 1)%Z
        else mret risk_factors
    | None => mret risk_factors
    end
  else mret risk_factors.

Definition news_volatility_check (news_data : list NewsItem) (risk_factors : Z) : Z :=
  match news_data with
  | [] => risk_factors
  | _ =>
      let sentiments := map sentiment (py_slice news_data None (Some 5%Z)) in
      let high_dispersion :=
        if (1 <? Z.of_nat (length sentiments))%Z then np_std_gt sentiments 0.5
        else Qlt_bool 0.5 0 in
      if high_dispersion then (risk_factors + 1)%Z else risk_factors
  end.

Definition rsi_extremes_check (indicators : TechnicalIndicators) (risk_factors : Z)
    : Z :=
  if truthy (rsi indicators) then
    match rsi indicators with
    | Some r =>
        if Qlt_bool 80 r || Qlt_bool r 20 then (risk_factors + 1)%Z
        else risk_factors
    | None => risk_factors
    end
  else risk_factors.

Definition _calculate_risk_level (market_data : list MarketData)
    (news_data : list NewsItem) (indicators : TechnicalIndicators)
    : result RiskLevel :=
  let risk_factors := 0%Z in
  let risk_factors := volatility_check market_data risk_factors in
  risk_factors ← atr_check market_data indicators risk_factors;
  let risk_factors := news_volatility_check news_data risk_factors in
  let risk_factors := rsi_extremes_check indicators risk_factors in
  if (3 <=? risk_factors)%Z then mret HIGH
  else if (1 <=? risk_factors)%Z then mret MEDIUM
  else mret LOW.

(** ** [TradingService._calculate_position_size] *)

Record SignalWeights : Type := mkSignalWeights {
  w_sentiment : Q;
  w_technical : Q;
  w_volume : Q;
  w_momentum : Q
}.

Record TradingService : Type := mkTradingService {
  signal_weights : SignalWeights;
  min_confidence_threshold : Q;
  risk_multipliers : RiskLevel -> Q
}.

(** [SignalWeights()] and [TradingService.__init__]. *)
Definition default_weights : SignalWeights :=
  {| w_sentiment := 0.4; w_technical := 0.4; w_volume := 0.1; w_momentum := 0.1 |}.

Definition trading_service : TradingService :=
  {| signal_weights := default_weights;
     min_confidence_threshold := 0.6;
     risk_multipliers := fun r =>
       match r with LOW => 0.5 | MEDIUM => 1 | HIGH => 1.5 end |}.

(** [app.core.config.settings] is not part of the sources at hand; the one
    constant the service reads from it is a parameter of the model. *)
Record Settings : Type := mkSettings { MAX_POSITION_SIZE : Q }.

(** The two divisions are float divisions.  The budget, a float or an
    [int] that the division converts, is rounded to binary64; each quotient
    is rounded, and is an infinity when it overflows; [int] of an infinity
    raises [OverflowError]. *)
Definition _calculate_position_size (self : TradingService) (settings : Settings)
    (current_price : Q) (risk_level : RiskLevel) (config : gmap string Q)
    : result Z :=
  let max_position_size :=
    config_get config "max_position_size" (MAX_POSITION_SIZE settings) in
  let risk_multiplier := risk_multipliers self risk_level in
  adjusted_position_size ← float_div (binary64 max_position_size) risk_multiplier;
  per_share ← float_div adjusted_position_size current_price;
  quantity ← float_int per_share;
  mret (py_max_Z 1 (py_min_Z quantity 1000)).

(** ** [TradingService._generate_reasoning] *)

Definition _generate_reasoning (signal_type : SignalType)
    (sentiment_score technical_score volume_score momentum_score : Q)
    (symbol : string) : string :=
  let sentiment_reason :=
    if Qlt_bool 0.3 sentiment_score
    then ["Strong positive market sentiment from recent news"]
    else if Qlt_bool sentiment_score (-0.3)
    then ["Negative sentiment from recent market news"]
    else if Qlt_bool (Qabs sentiment_score) 0.1
    then ["Neutral sentiment in recent news coverage"]
    else [] in
  let technical_reason :=
    if Qlt_bool 0.4 technical_score
    then ["Strong bullish technical indicators"]
    else if Qlt_bool technical_score (-0.4)
    then ["Bearish technical signals present"]
    else if Qlt_bool (Qabs technical_score) 0.1
    then ["Mixed technical signals"]
    else [] in
  let volume_reason :=
    if Qlt_bool 0.3 volume_score
    then ["Above-average trading volume supporting the move"]
    else if Qlt_bool volume_score 0
    then ["Below-average volume may indicate weak conviction"]
    else [] in
  let momentum_reason :=
    if Qlt_bool 0.3 momentum_score
    then ["Strong upward price momentum"]
    else if Qlt_bool momentum_score (-0.3)
    then ["Downward price momentum observed"]
    else [] in
  let signal_reason :=
    match signal_type with
    | BUY => "Multiple factors align for a potential buying opportunity in " +:+ symbol
    | SELL => "Risk indicators suggest considering a sell position in " +:+ symbol
    | HOLD => "Mixed signals recommend holding current position in " +:+ symbol
    end in
  let reasons :=
    sentiment_reason ++ technical_reason ++ volume_reason ++ momentum_reason
    ++ [signal_reason] in
  String.concat ". " reasons +:+ ".".

(** ** [TradeSignal] and [TradingService.generate_signal] *)

Record TradeSignal : Type := mkTradeSignal {
  id : Z;
  user_id : option Z;
  symbol : string;
  signal : SignalType;
  price : Q;
  quantity : Z;
  confidence : Q;
  sentiment_score : Q;
  technical_score : Q;
  combined_score : Q;
  risk_level : RiskLevel;
  reason : string;
  executed : bool;
  created_at : Z;
  expires_at : option Z
}.

(** A field declared with [Field(..., ge=lo, le=hi)]. *)
Definition check_range (field : string) (lo hi v : Q) : result Q :=
  if Qle_bool lo v && Qle_bool v hi then Ok v else Raise (ValidationError field).

(** The model constructor: the three bounded fields are validated. *)
Definition TradeSignal_init (s : TradeSignal) : result TradeSignal :=
  _ ← check_range "confidence" 0 1 (confidence s);
  _ ← check_range "sentiment_score" (-1) 1 (sentiment_score s);
  _ ← check_range "technical_score" (-1) 1 (technical_score s);
  mret s.

(** [timedelta(hours=24)], with timestamps in seconds. *)
Definition hours_24 : Z := 86400.

(** The collaborators' answers are arguments: [market_data] is what
    [alpaca_service.get_market_data] returned, [news_data] what
    [news_service.fetch_news] returned, [technical_indicators] what the
    TA library computed from the bars, and [now_created], [now_expires]
    the two readings of the clock. *)
Definition generate_signal (self : TradingService) (settings : Settings)
    (symbol_ : string) (config : gmap string Q) (user_id_ : option Z)
    (market_data : list MarketData) (news_data : list NewsItem)
    (technical_indicators : TechnicalIndicators) (now_created now_expires : Z)
    : result TradeSignal :=
  if (Z.of_nat (length market_data) <? 50)%Z
  then Raise (ValueError ("Insufficient market data for " +:+ symbol_))
  else
    let sentiment_score_ := _calculate_sentiment_score news_data in
    technical_score_ ← _calculate_technical_score technical_indicators market_data;
    volume_score ← _calculate_volume_score market_data;
    momentum_score ← _calculate_momentum_score market_data;
    let combined_score_ :=
      sentiment_score_ * w_sentiment (signal_weights self)
      + technical_score_ * w_technical (signal_weights self)
      + volume_score * w_volume (signal_weights self)
      + momentum_score * w_momentum (signal_weights self) in
    let signal_type := _determine_signal_type combined_score_ config in
    let confidence_ :=
      _calculate_confidence
        [Some sentiment_score_; Some technical_score_; Some volume_score;
         Some momentum_score] in
    risk_level_ ← _calculate_risk_level market_data news_data technical_indicators;
    last_bar ← py_index market_data (-1);
    let current_price := close_price last_bar in
    recommended_qty ←
      _calculate_position_size self settings current_price risk_level_ config;
    let reasoning :=
      _generate_reasoning signal_type sentiment_score_ technical_score_
        volume_score momentum_score symbol_ in
    TradeSignal_init
      {| id := 0; user_id := user_id_; symbol := symbol_; signal := signal_type;
         price := current_price; quantity := recommended_qty;
         confidence := confidence_; sentiment_score := sentiment_score_;
         technical_score := technical_score_; combined_score := combined_score_;
         risk_level := risk_level_; reason := reasoning; executed := false;
         created_at := now_created;
         expires_at := Some (now_expires + hours_24)%Z |}.

(** ** [TradingConfig] ([app/schemas/trading.py]) *)

Record TradingConfig : Type := mkTradingConfig {
  tc_symbol : string;
  buy_threshold : Q;
  sell_threshold : Q;
  risk_tolerance : RiskLevel;
  max_position_size : Q;
  enable_notifications : bool;
  enable_paper_trading : bool;
  stop_loss_percent : Q;
  take_profit_percent : Q;
  sentiment_weight : Q;
  technical_weight : Q
}.

(** The keyword arguments of a construction; [None] is an argument that was
    not supplied, and takes the field's default. *)
Record TradingConfigArgs : Type := mkTradingConfigArgs {
  arg_symbol : option string;
  arg_buy_threshold : option Q;
  arg_sell_threshold : option Q;
  arg_risk_tolerance : option RiskLevel;
  arg_max_position_size : option Q;
  arg_enable_notifications : option bool;
  arg_enable_paper_trading : option bool;
  arg_stop_loss_percent : option Q;
  arg_take_profit_percent : option Q;
  arg_sentiment_weight : option Q;
  arg_technical_weight : option Q
}.

(** A supplied value goes through the field's validators; a default is
    taken as it is (the validators are not declared [always=True]). *)
Definition validate_field {A : Type} (arg : option A) (dflt : A)
    (validators : A -> result A) : result A :=
  match arg with
  | Some v => validators v
  | None => Ok dflt
  end.

(** [weights_must_sum_to_one(cls, v, values)], registered for both weights.
    [values] holds the fields validated so far. *)
Definition weights_must_sum_to_one (v : Q) (values : gmap string Q) : result Q :=
  match values !! "sentiment_weight" with
  | Some sw =>
      if Qlt_bool 0.01 (Qabs (v + sw - 1))
      then Raise (ValueError "sentiment_weight + technical_weight must equal 1.0")
      else Ok v
  | None => Ok v
  end.

(** The fields are validated in declaration order; the first failure is
    the one reported here. *)
Definition TradingConfig_init (args : TradingConfigArgs) : result TradingConfig :=
  let values : gmap string Q := ∅ in
  let symbol_ := default "RELIANCE" (arg_symbol args) in
  bt ← validate_field (arg_buy_threshold args) 0.2 (check_range "buy_threshold" (-1) 1);
  let values := <["buy_threshold" := bt]> values in
  st ← validate_field (arg_sell_threshold args) (-0.2)
         (check_range "sell_threshold" (-1) 1);
  let values := <["sell_threshold" := st]> values in
  let mps := default 10000 (arg_max_position_size args) in
  let values := <["max_position_size" := mps]> values in
  let slp := default 5 (arg_stop_loss_percent args) in
  let values := <["stop_loss_percent" := slp]> values in
  let tpp := default 10 (arg_take_profit_percent args) in
  let values := <["take_profit_percent" := tpp]> values in
  sw ← validate_field (arg_sentiment_weight args) 0.6
         (fun v => v ← check_range "sentiment_weight" 0 1 v;
                   weights_must_sum_to_one v values);
  let values := <["sentiment_weight" := sw]> values in
  tw ← validate_field (arg_technical_weight args) 0.4
         (fun v => v ← check_range "technical_weight" 0 1 v;
                   weights_must_sum_to_one v values);
  mret {| tc_symbol := symbol_; buy_threshold := bt; sell_threshold := st;
          risk_tolerance := default MEDIUM (arg_risk_tolerance args);
          max_position_size := mps;
          enable_notifications := default true (arg_enable_notifications args);
          enable_paper_trading := default true (arg_enable_paper_trading args);
          stop_loss_percent := slp; take_profit_percent := tpp;
          sentiment_weight := sw; technical_weight := tw |}.

(** ** The [execute_trade] endpoint ([api/v1/endpoints/trading.py]) *)

(** What [alpaca_service.execute_trade] answers: it catches every
    exception of its own and always returns a dictionary. *)
Record TradeResult : Type := mkTradeResult {
  success : bool;
  message : string
}.

(** [signal.executed = True] *)
Definition set_executed (s : TradeSignal) : TradeSignal :=
  {| id := id s; user_id := user_id s; symbol := symbol s; signal := signal s;
     price := price s; quantity := quantity s; confidence := confidence s;
     sentiment_score := sentiment_score s; technical_score := technical_score s;
     combined_score := combined_score s; risk_level := risk_level s;
     reason := reason s; executed := true; created_at := created_at s;
     expires_at := expires_at s |}.

(** The database is the table of stored signals, by id.  [broker] stands
    for the broker call made during this request. *)
Definition execute_trade (signal_id : Z) (broker : TradeSignal -> TradeResult)
    (db : gmap Z TradeSignal) : result TradeResult * gmap Z TradeSignal :=
  match db !! signal_id with
  | None => (Raise (HTTPException 404 "Signal not found"), db)
  | Some signal_ =>
      if executed signal_
      then (Raise (HTTPException 400 "Signal already executed"), db)
      else
        let result_ := broker signal_ in
        if success result_
        then (Ok result_, <[signal_id := set_executed signal_]> db)
        else (Ok result_, db)
  end.

(** ** The specification's formulas

    These definitions follow the words of the specification, not the code;
    the theorems below compare them with the embedding above. *)

Module Spec.

Definition Qsum (xs : list Q) : Q := foldr Qplus 0 xs.

Definition clamp (x lo hi : Q) : Q :=
  if Qlt_le_dec x lo then lo else if Qlt_le_dec hi x then hi else x.

(** *** 4.2 SentimentAggregator *)

(** [Weight(i) = 1/(rank+1)] *)
Definition weight (rank : nat) : Q := 1 / (inject_Z (Z.of_nat rank) + 1).

(** The items paired with their recency rank, 0 for the first. *)
Definition ranked (items : list NewsItem) : list (nat * NewsItem) :=
  zip (seq 0 (length items)) items.

Definition aggregate (items : list NewsItem) : Q :=
  match items with
  | [] => 0
  | _ =>
      Qsum (map (fun ri => sentiment ri.2 * sentiment_confidence ri.2 * weight ri.1)
                (ranked items))
      / Qsum (map (fun ri => weight ri.1) (ranked items))
  end.

(** The bounds of the data model: score in [-1, 1], confidence in [0, 1]. *)
Definition news_in_range (items : list NewsItem) : Prop :=
  Forall (fun n => (-1 <= sentiment n <= 1) /\ (0 <= sentiment_confidence n <= 1))
         items.

(** *** 4.3 TechnicalScorer: the contribution table, row by row *)

Definition rsi_row (ind : TechnicalIndicators) : option Q :=
  r ← rsi ind;
  Some (if Qlt_le_dec r 30 then 0.7
        else if Qlt_le_dec 70 r then - 0.7
        else if Qle_bool 40 r && Qle_bool r 60 then 0.1
        else 0).

Definition macd_row (ind : TechnicalIndicators) : option Q :=
  m ← macd ind; s ← macd_signal ind;
  Some (if Qlt_le_dec s m then 0.5 else - 0.5).

Definition sma_cross_row (ind : TechnicalIndicators) : option Q :=
  s20 ← sma_20 ind; s50 ← sma_50 ind;
  Some (if Qlt_le_dec s50 s20 then 0.6 else - 0.6).

Definition price_vs_sma_row (ind : TechnicalIndicators) (price_ : Q) : option Q :=
  s20 ← sma_20 ind;
  Some (clamp ((price_ - s20) / s20 * 2) (- 0.5) 0.5).

Definition bollinger_position (price_ upper lower : Q) : Q :=
  (price_ - lower) / (upper - lower).

Definition bollinger_contribution (price_ upper lower : Q) : Q :=
  let pos := bollinger_position price_ upper lower in
  if Qlt_le_dec pos 0.2 then 0.4
  else if Qlt_le_dec 0.8 pos then - 0.4
  else 0.

(** The Bollinger row as the table words it: the position is defined by
    the upper and the lower band. *)
Definition bollinger_row (ind : TechnicalIndicators) (price_ : Q) : option Q :=
  upper ← bollinger_upper ind; lower ← bollinger_lower ind;
  Some (bollinger_contribution price_ upper lower).

Definition stochastic_row (ind : TechnicalIndicators) : option Q :=
  k ← stochastic_k ind;
  Some (if Qlt_le_dec k 20 then 0.3
        else if Qlt_le_dec 80 k then - 0.3
        else 0).

Definition contributions (boll : TechnicalIndicators -> Q -> option Q)
    (ind : TechnicalIndicators) (price_ : Q) : list Q :=
  omap Datatypes.id [rsi_row ind; macd_row ind; sma_cross_row ind;
           price_vs_sma_row ind price_; boll ind price_; stochastic_row ind].

(** [sum(contributions) / count(indicators that contributed)], 0.0 if none. *)
Definition average (cs : list Q) : Q :=
  match cs with
  | [] => 0
  | _ => Qsum cs / inject_Z (Z.of_nat (length cs))
  end.

Definition technical_score (ind : TechnicalIndicators) (price_ : Q) : Q :=
  average (contributions bollinger_row ind price_).

(** *** 4.4 VolumeScorer *)

(** The last [n] elements. *)
Definition last_n {A : Type} (n : nat) (l : list A) : list A :=
  drop (length l - n) l.

Definition mean_volume (bars : list MarketData) : Q :=
  inject_Z (foldr Z.add 0%Z (map volume bars)) / inject_Z (Z.of_nat (length bars)).

(** Bars [-20, -5): the first 15 of the last 20. *)
Definition baseline (bars : list MarketData) : list MarketData :=
  take 15 (last_n 20 bars).

Definition score_of_ratio (ratio : Q) : Q :=
  if Qlt_le_dec 1.5 ratio then 0.5
  else if Qlt_le_dec ratio 0.5 then - 0.2
  else 0.1.

(** As worded: the mean of the last 5 volumes against the baseline, the
    ratio taken as 0.0 when the baseline is zero. *)
Definition volume_score (bars : list MarketData) : Q :=
  if (length bars <? 20)%nat then 0
  else
    let avg_recent := mean_volume (last_n 5 bars) in
    let avg_baseline := mean_volume (baseline bars) in
    let ratio := if Qeq_bool avg_baseline 0 then 0 else avg_recent / avg_baseline in
    score_of_ratio ratio.

(** The volume of the most recent bar. *)
Definition current_volume (bars : list MarketData) : Z :=
  from_option volume 0%Z (last bars).

(** With the last bar's volume in place of the recent mean, and a score
    of 0.0 when the baseline is zero. *)
Definition volume_score_current (bars : list MarketData) : Q :=
  if (length bars <? 20)%nat then 0
  else
    let avg_baseline := mean_volume (baseline bars) in
    if Qeq_bool avg_baseline 0 then 0
    else score_of_ratio (inject_Z (current_volume bars) / avg_baseline).

(** *** 4.5 MomentumScorer *)

(** The close [k] bars before the last one. *)
Definition close_back (bars : list MarketData) (k : nat) : Q :=
  from_option close_price 0 (reverse bars !! k).

(** The [k]-day return, 0 when there are not [k+1] bars. *)
Definition day_return (bars : list MarketData) (k : nat) : Q :=
  if (k <? length bars)%nat
  then (close_back bars 0 - close_back bars k) / close_back bars k
  else 0.

Definition momentum (bars : list MarketData) : Q :=
  clamp ((0.5 * day_return bars 1 + 0.3 * day_return bars 5
          + 0.2 * day_return bars 10) * 10) (- 1) 1.

Definition closes_positive (bars : list MarketData) : Prop :=
  Forall (fun b => 0 < close_price b) bars.

(** *** 4.6 ScoreCombiner, with the weights read from the configuration *)

Definition config_weighted_score (config : gmap string Q)
    (sentiment_ technical volume_ momentum_ : Q) : Q :=
  sentiment_ * config_get config "sentiment_weight" 0.4
  + technical * config_get config "technical_weight" 0.4
  + volume_ * config_get config "volume_weight" 0.1
  + momentum_ * config_get config "momentum_weight" 0.1.

(** *** 4.7 ConfidenceEstimator *)

Inductive polarity : Type := Positive | Negative | Neutral.

#[global] Instance polarity_eq_dec : EqDecision polarity.
Proof. solve_decision. Defined.

Definition classify (s : Q) : polarity :=
  if Qlt_le_dec 0.1 s then Positive
  else if Qlt_le_dec s (- 0.1) then Negative
  else Neutral.

Definition class_count (c : polarity) (scores : list Q) : nat :=
  length (filter (fun s => classify s = c) scores).

Definition agreement_ratio (scores : list Q) : Q :=
  inject_Z (Z.of_nat (Nat.max (Nat.max (class_count Positive scores)
                                        (class_count Negative scores))
                               (class_count Neutral scores)))
  / inject_Z (Z.of_nat (length scores)).

Definition magnitude_avg (scores : list Q) : Q :=
  Qsum (map Qabs scores) / inject_Z (Z.of_nat (length scores)).

Definition confidence_of (scores : list Q) : Q :=
  match scores with
  | [] => 0
  | _ => clamp (agreement_ratio scores * 0.6 + magnitude_avg scores * 0.4) 0 1
  end.

(** *** 4.8 RiskClassifier *)

Definition volatility_high (bars : list MarketData) : bool :=
  (20 <=? length bars)%nat
  && np_std_over_mean_gt (map close_price (last_n 20 bars)) 0.03.

Definition atr_high (ind : TechnicalIndicators) (current_price : Q) : bool :=
  match atr ind with
  | Some a => Qlt_bool 0.025 (a / current_price)
  | None => false
  end.

Definition sentiment_dispersed (news : list NewsItem) : bool :=
  let top := map sentiment (take 5 news) in
  (2 <=? length top)%nat && np_std_gt top 0.5.

(** [RSI present and (RSI > 80 or RSI < 20)] *)
Definition rsi_extreme (ind : TechnicalIndicators) : bool :=
  match rsi ind with
  | Some r => Qlt_bool 80 r || Qlt_bool r 20
  | None => false
  end.

Definition risk_factors (bars : list MarketData) (news : list NewsItem)
    (ind : TechnicalIndicators) : nat :=
  Nat.b2n (volatility_high bars)
  + Nat.b2n (atr_high ind (close_back bars 0))
  + Nat.b2n (sentiment_dispersed news)
  + Nat.b2n (rsi_extreme ind).

Definition level_of_count (n : nat) : RiskLevel :=
  if (3 <=? n)%nat then HIGH else if (1 <=? n)%nat then MEDIUM else LOW.

Definition risk_rank (r : RiskLevel) : nat :=
  match r with LOW => 0 | MEDIUM => 1 | HIGH => 2 end.

(** *** 4.9 PositionSizer *)

Definition risk_multiplier (r : RiskLevel) : Q :=
  match r with LOW => 0.5 | MEDIUM => 1 | HIGH => 1.5 end.

Definition quantity_of (max_position_size_ current_price : Q) (r : RiskLevel) : Z :=
  Z.max 1 (Z.min 1000
             (Qfloor (max_position_size_ / risk_multiplier r / current_price))).

(** *** 4.10 SignalLifecycle *)

(** [now > expires_at] *)
Definition expired (now : Z) (s : TradeSignal) : bool :=
  match expires_at s with
  | Some e => (e <? now)%Z
  | None => false
  end.

End Spec.

(** ** The technical scorer as the code guards it

    The code enters its Bollinger block on
    [all([upper, lower, middle])]: a band that is unset, or exactly 0.0,
    keeps the block out.  These definitions describe that guard; the table
    of the specification is [Spec.bollinger_row]. *)

Definition bollinger_row_guarded (ind : TechnicalIndicators) (price_ : Q)
    : option Q :=
  if truthy (bollinger_upper ind) && truthy (bollinger_lower ind)
     && truthy (bollinger_middle ind)
  then Spec.bollinger_row ind price_
  else None.

Definition technical_score_guarded (ind : TechnicalIndicators) (price_ : Q) : Q :=
  Spec.average (Spec.contributions bollinger_row_guarded ind price_).

(** The two divisions of the scorer have a divisor that is not zero:
    [sma_20] when it is set, and the band width when the three bands pass
    the guard. *)
Definition denominators_nonzero (ind : TechnicalIndicators) : Prop :=
  (forall s20, sma_20 ind = Some s20 -> ~ s20 == 0)
  /\ (forall upper lower,
        truthy (bollinger_upper ind) && truthy (bollinger_lower ind)
        && truthy (bollinger_middle ind) = true ->
        bollinger_upper ind = Some upper -> bollinger_lower ind = Some lower ->
        ~ upper == lower).

(** The running pair [(score, signals_count)] of the scorer accounts for
    the rows seen so far. *)
Definition tracks (rows : list (option Q)) (st : Q * Z) : Prop :=
  st.1 == Spec.Qsum (omap Datatypes.id rows)
  /\ st.2 = Z.of_nat (length (omap Datatypes.id rows)).


(** Volumes that fit a signed 64-bit integer, as the data sources deliver
    them: the conversions of such a volume, and of a sum of them, to a
    float cannot overflow. *)
Definition volumes_in_range (bars : list MarketData) : Prop :=
  Forall (fun b => (- 2 ^ 63 <= volume b < 2 ^ 63)%Z) bars.

(** ** Sample inputs *)

Module Sample.

Definition bar (close_ : Q) (volume_ : Z) : MarketData :=
  mkMarketData "ACME" 0 close_ close_ close_ close_ volume_.

Definition only_rsi (r : Q) : TechnicalIndicators :=
  mkTechnicalIndicators "ACME" 0 None None None None (Some r) None None None
    None None None None None None None.

Definition only_bands (upper middle lower : option Q) : TechnicalIndicators :=
  mkTechnicalIndicators "ACME" 0 None None None None None None None None
    upper middle lower None None None None.

(** Twenty bars: a baseline of 100 shares a day, four busy days, and a
    last day back at 100. *)
Definition quiet_last_bar : list MarketData :=
  map (bar 100) (replicate 15 100%Z ++ [1000; 1000; 1000; 1000; 100]%Z).

(** Twenty bars with no trade at all in the baseline window. *)
Definition empty_baseline : list MarketData :=
  map (bar 100) (replicate 15 0%Z ++ [1000; 1000; 1000; 1000; 100]%Z).

Definition two_bars : list MarketData := [bar 100 1; bar 110 1].

Definition eleven_bars : list MarketData :=
  map (fun c => bar (inject_Z c) 1)
      [100; 101; 102; 103; 104; 105; 106; 107; 108; 109; 110]%Z.

(** Fifty bars, closes 100 .. 149. *)
Definition fifty_bars : list MarketData :=
  map (fun i => bar (100 + inject_Z (Z.of_nat i)) (1000 + Z.of_nat i)) (seq 0 50).

Definition two_news : list NewsItem :=
  [mkNewsItem 1 "Record quarter" 0.8 0.9; mkNewsItem 2 "Probe opened" (-0.2) 0.5].

Definition settings : Settings := mkSettings 10000.

(** A configuration that puts all the weight on sentiment. *)
Definition sentiment_only_config : gmap string Q :=
  <["sentiment_weight" := 1]> (<["technical_weight" := 0]>
  (<["volume_weight" := 0]> (<["momentum_weight" := 0]> ∅))).

(** A stored signal created at time 0, not yet executed, that expired at
    time 100. *)
Definition stale_signal : TradeSignal :=
  {| id := 7; user_id := None; symbol := "ACME"; signal := BUY; price := 100;
     quantity := 10; confidence := 0.8; sentiment_score := 0.5;
     technical_score := 0.5; combined_score := 0.5; risk_level := LOW;
     reason := "Mixed signals."; executed := false; created_at := 0;
     expires_at := Some 100%Z |}.

Definition db : gmap Z TradeSignal := {[ 7%Z := stale_signal ]}.

Definition broker_accepts (s : TradeSignal) : TradeResult :=
  mkTradeResult true "Order executed".

Definition broker_rejects (s : TradeSignal) : TradeResult :=
  mkTradeResult false "Trading API not configured".

Definition args_weights (sw tw : option Q) : TradingConfigArgs :=
  mkTradingConfigArgs None None None None None None None None None sw tw.

Definition args_thresholds (bt st : option Q) : TradingConfigArgs :=
  mkTradingConfigArgs None bt st None None None None None None None None.

End Sample.

(** ** More of the service: the manual RSI, the broker, the endpoints *)

(** *** [TradingService._calculate_rsi] (used when TA-Lib fails)

    A NumPy array of floats is a list; an entry that is NaN is [None]. *)

(** [np.diff(a)] *)
Definition np_diff (a : list Q) : list Q :=
  zip_with (fun x y => y - x) a (tail a).

(** The contiguous windows of length [n], in order. *)
Fixpoint windows (n : nat) (l : list Q) : list (list Q) :=
  match l with
  | [] => if (n =? 0)%nat then [[]] else []
  | _ :: l' => if (n <=? length l)%nat then take n l :: windows n l' else []
  end.

Definition dot (xs ys : list Q) : Q :=
  py_sum (zip_with Qmult xs ys).

(** [np.convolve(a, v, mode='valid')]: the longer argument is taken as the
    signal, an empty argument is refused, and the output has one entry per
    full overlap. *)
Definition np_convolve_valid (a v : list Q) : result (list Q) :=
  let '(a, v) := if (length a <? length v)%nat then (v, a) else (a, v) in
  match a, v with
  | [], _ => Raise (ValueError "a cannot be empty")
  | _, [] => Raise (ValueError "v cannot be empty")
  | _, _ => Ok (map (fun w => dot w (reverse v)) (windows (length v) a))
  end.

(** [np.ones(period) / period] *)
Definition averaging_kernel (period : Z) : result (list Q) :=
  if (period <? 0)%Z then Raise (ValueError "negative dimensions are not allowed")
  else Ok (replicate (Z.to_nat period) (1 / inject_Z period)).

Definition _calculate_rsi (prices : list Q) (period : Z) : result (list (option Q)) :=
  let deltas := np_diff prices in
  let gains := map (fun d => if Qlt_bool 0 d then d else 0) deltas in
  let losses := map (fun d => if Qlt_bool d 0 then - d else 0) deltas in
  kernel ← averaging_kernel period;
  avg_gains ← np_convolve_valid gains kernel;
  avg_losses ← np_convolve_valid losses kernel;
  let rs := zip_with (fun g l => g / (l + 1e-10)) avg_gains avg_losses in
  let rsi_ := map (fun x => 100 - 100 / (1 + x)) rs in
  mret (replicate (Z.to_nat period) None ++ map Some rsi_).

(** *** Ordering the three signals: SELL below HOLD below BUY *)

Definition signal_rank (s : SignalType) : nat :=
  match s with SELL => 0 | HOLD => 1 | BUY => 2 end.

(** The sentence that closes the reasoning, before the symbol. *)
Definition closing_sentence (s : SignalType) : string :=
  match s with
  | BUY => "Multiple factors align for a potential buying opportunity in "
  | SELL => "Risk indicators suggest considering a sell position in "
  | HOLD => "Mixed signals recommend holding current position in "
  end.

(** *** [AlpacaService]: symbol conversion *)

Definition indian_to_us : gmap string string :=
  list_to_map
    [("INFY", "INFY"); ("WIT", "WIT"); ("SIFY", "SIFY"); ("RDY", "RDY");
     ("TTM", "TTM"); ("HDB", "HDB"); ("IBN", "IBN"); ("VEDL", "VEDL");
     ("AZRE", "AZRE")].

Definition _convert_to_us_symbol (indian_symbol : string) : string :=
  match indian_to_us !! indian_symbol with
  | Some us => us
  | None => "INDA"
  end.

Definition us_to_indian : gmap string string :=
  list_to_map
    [("INFY", "INFY"); ("WIT", "WIPRO"); ("SIFY", "SIFY"); ("RDY", "DRREDDY");
     ("TTM", "TATAMOTORS"); ("HDB", "HDFCBANK"); ("IBN", "ICICIBANK");
     ("VEDL", "VEDL"); ("INDA", "NIFTY")].

Definition _convert_from_us_symbol (us_symbol : string) : string :=
  default us_symbol (us_to_indian !! us_symbol).

(** The keys of [indian_to_us]. *)
Definition adr_symbols : list string :=
  ["INFY"; "WIT"; "SIFY"; "RDY"; "TTM"; "HDB"; "IBN"; "VEDL"; "AZRE"].

(** ['.' in s] *)
Fixpoint has_dot (s : string) : bool :=
  match s with
  | EmptyString => false
  | String c rest => if Ascii.eqb c (Ascii.ascii_of_nat 46) then true else has_dot rest
  end.

Definition _convert_to_yf_symbol (indian_symbol : string) : string :=
  if negb (has_dot indian_symbol) then indian_symbol +:+ ".NS" else indian_symbol.

(** *** [AlpacaService.execute_trade]

    The broker's answers are fields of [Broker]: whether the API client is
    configured, what [get_current_price] returns, and what the three calls
    of the client ([get_account], [list_positions], [submit_order]) return
    or raise. *)

Inductive api_failure : Type :=
| APIError (msg : string)
| OtherError (msg : string).

Record BrokerPosition : Type := mkBrokerPosition {
  bp_symbol : string;
  bp_qty : Z
}.

Record Broker : Type := mkBroker {
  api : bool;
  latest_price : string -> option Q;
  buying_power : api_failure + Q;
  list_positions : api_failure + list BrokerPosition;
  submit_order : string -> Z -> string -> api_failure + string
}.

(** The dictionary that [execute_trade] returns. *)
Record OrderReport : Type := mkOrderReport {
  rep_success : bool;
  rep_message : string;
  rep_order_id : option string;
  rep_quantity : option Z;
  rep_estimated_price : option Q
}.

Definition failed (msg : string) : OrderReport :=
  mkOrderReport false msg None None None.

(** The two [except] clauses. *)
Definition on_failure (e : api_failure) : OrderReport :=
  match e with
  | APIError m => failed ("Trading error: " +:+ m)
  | OtherError m => failed ("Execution failed: " +:+ m)
  end.

(** [str(e)] for the two arithmetic errors of the sizing. *)
Definition exn_message (e : exn) : string :=
  match e with
  | OverflowError => "cannot convert float infinity to integer"
  | _ => "float division by zero"
  end.

Definition order_side (s : SignalType) : string :=
  match s with BUY => "buy" | _ => "sell" end.

Definition side_upper (side : string) : string :=
  if String.eqb side "buy" then "BUY" else "SELL".

Definition alpaca_execute_trade (self : Broker) (settings : Settings)
    (signal_ : TradeSignal) : OrderReport :=
  if negb (api self) then failed "Trading API not configured"
  else
    let us_symbol := _convert_to_us_symbol (symbol signal_) in
    let side := order_side (signal signal_) in
    match latest_price self (symbol signal_) with
    | None => failed "Could not get current price"
    | Some current_price =>
        if Qeq_bool current_price 0 then failed "Could not get current price"
        else
          match buying_power self with
          | inl e => on_failure e
          | inr buying_power_ =>
              let max_position_value :=
                float_min (float_mul buying_power_ (literal 0.1))
                          (MAX_POSITION_SIZE settings) in
              match float_div max_position_value current_price ≫= float_int with
              | Raise e => on_failure (OtherError (exn_message e))
              | Ok max_quantity =>
              let quantity_ :=
                if (quantity signal_ =? 0)%Z then max_quantity
                else py_min_Z (quantity signal_) max_quantity in
              if (quantity_ <=? 0)%Z then failed "Insufficient buying power"
              else
                match list_positions self with
                | inl e => on_failure e
                | inr positions =>
                    let existing_position :=
                      find (fun p => String.eqb (bp_symbol p) us_symbol) positions in
                    let sell_short :=
                      String.eqb side "sell"
                      && match existing_position with
                         | None => true
                         | Some p => (bp_qty p <? quantity_)%Z
                         end in
                    let available_qty :=
                      match existing_position with
                      | Some p => bp_qty p
                      | None => 0%Z
                      end in
                    if sell_short && (available_qty =? 0)%Z
                    then failed "No position to sell"
                    else
                      let quantity_ :=
                        if sell_short then py_min_Z quantity_ available_qty
                        else quantity_ in
                      match submit_order self us_symbol quantity_ side with
                      | inl e => on_failure e
                      | inr order_id_ =>
                          mkOrderReport true
                            ("Order executed: " +:+ side_upper side +:+ " "
                             +:+ pretty quantity_ +:+ " shares of "
                             +:+ symbol signal_)
                            (Some order_id_) (Some quantity_) (Some current_price)
                      end
                end
              end
          end
    end.

(** *** The [execute_trade] endpoint of [api/v1/endpoints/portfolio.py] *)

Record PortfolioTradeResponse : Type := mkPortfolioTradeResponse {
  ptr_success : bool;
  ptr_message : string;
  ptr_order : TradeResult
}.

(** The request carries the whole signal; the stored copy is looked up only
    when the signal's id is not zero.  The broker's answer is a non-empty
    dictionary, hence true in [if order_result and signal.id]. *)
Definition portfolio_execute_trade (signal_ : TradeSignal)
    (broker : TradeSignal -> TradeResult) (db : gmap Z TradeSignal)
    : result PortfolioTradeResponse * gmap Z TradeSignal :=
  let has_id := negb (id signal_ =? 0)%Z in
  let checked : result (option TradeSignal) :=
    if has_id then
      match db !! id signal_ with
      | None =>
          Raise (HTTPException 404
                   ("Signal with ID " +:+ pretty (id signal_) +:+ " not found."))
      | Some signal_db =>
          if executed signal_db
          then Raise (HTTPException 400 "Signal has already been executed.")
          else Ok (Some signal_db)
      end
    else Ok None in
  match checked with
  | Raise e => (Raise e, db)
  | Ok signal_db =>
      let order_result := broker signal_ in
      let db :=
        match signal_db with
        | Some stored =>
            if has_id then <[id signal_ := set_executed stored]> db else db
        | None => db
        end in
      (Ok (mkPortfolioTradeResponse true "Trade executed successfully" order_result),
       db)
  end.

(** *** [NewsService._deduplicate_news]

    The function reads two attributes of each item, [url] and [title]; they
    are the accessors [url] and [title] here.  [words] stands for
    [set(title.lower().split())]. *)

Definition common_ratio (title_words seen_words : gset string) : result Q :=
  py_div (inject_Z (Z.of_nat (size (title_words ∩ seen_words))))
         (inject_Z (Z.of_nat (size (title_words ∪ seen_words)))).

(** The inner loop over the titles seen so far, leaving at the first
    similar one. *)
Fixpoint similar_to_any (words : string -> gset string) (title_words : gset string)
    (seen : list string) : result bool :=
  match seen with
  | [] => Ok false
  | seen_title :: rest =>
      common_ratio_ ← common_ratio title_words (words seen_title);
      if Qlt_bool 0.7 common_ratio_ then Ok true
      else similar_to_any words title_words rest
  end.

Definition dedup_step {A : Type} (url title : A -> string)
    (words : string -> gset string)
    (st : gset string * gset string * list A) (item : A)
    : result (gset string * gset string * list A) :=
  let '(seen_urls, seen_titles, unique_items) := st in
  if decide (url item ∈ seen_urls) then Ok st
  else
    is_similar ← similar_to_any words (words (title item)) (elements seen_titles);
    if is_similar : bool then Ok st
    else Ok ({[url item]} ∪ seen_urls, {[title item]} ∪ seen_titles,
             unique_items ++ [item]).

Fixpoint dedup_loop {A : Type} (url title : A -> string)
    (words : string -> gset string)
    (st : gset string * gset string * list A) (news_items : list A)
    : result (gset string * gset string * list A) :=
  match news_items with
  | [] => Ok st
  | item :: rest =>
      st ← dedup_step url title words st item;
      dedup_loop url title words st rest
  end.

Definition _deduplicate_news {A : Type} (url title : A -> string)
    (words : string -> gset string) (news_items : list A) : result (list A) :=
  st ← dedup_loop url title words (∅, ∅, []) news_items;
  mret st.2.

(** The state of the loop after some items: the seen URLs and titles are
    those of the kept items, which have pairwise different URLs. *)
Definition dedup_inv {A : Type} (url title : A -> string)
    (st : gset string * gset string * list A) : Prop :=
  st.1.1 = list_to_set (url <$> st.2)
  /\ st.1.2 = list_to_set (title <$> st.2)
  /\ NoDup (url <$> st.2).

(** *** Key levels and trend in the [analyze_market] endpoint

    The part of the endpoint that works on the closing prices of the last
    fifty bars. *)

(** [min(xs)] and [max(xs)] of a list: the first least, or greatest,
    element. *)
Definition py_min_list (xs : list Q) : result Q :=
  match xs with
  | [] => Raise (ValueError "min() arg is an empty sequence")
  | x :: rest => Ok (fold_left py_min rest x)
  end.

Definition py_max_list (xs : list Q) : result Q :=
  match xs with
  | [] => Raise (ValueError "max() arg is an empty sequence")
  | x :: rest => Ok (fold_left py_max rest x)
  end.

Definition analysis_prices (market_data : list MarketData) : list Q :=
  match market_data with
  | [] => []
  | _ => map close_price (py_slice market_data (Some (-50)%Z) None)
  end.

(** The pair [(support_levels, resistance_levels)]. *)
Definition key_levels (prices : list Q) : result (list Q * list Q) :=
  match prices with
  | [] => Ok ([], [])
  | _ =>
      recent_low ← py_min_list (py_slice prices (Some (-20)%Z) None);
      recent_high ← py_max_list (py_slice prices (Some (-20)%Z) None);
      Ok ([recent_low * 0.98; recent_low * 0.95],
          [recent_high * 1.02; recent_high * 1.05])
  end.

(** The two means and their comparison, in exact arithmetic. *)
Definition trend_direction (prices : list Q) : string :=
  if (10 <=? Z.of_nat (length prices))%Z then
    let recent_avg := py_sum (py_slice prices (Some (-5)%Z) None) / 5 in
    let older_avg := py_sum (py_slice prices (Some (-10)%Z) (Some (-5)%Z)) / 5 in
    if Qlt_bool (older_avg * 1.02) recent_avg then "bullish"
    else if Qlt_bool recent_avg (older_avg * 0.98) then "bearish"
    else "neutral"
  else "neutral".

(** The running pair of the technical scorer stays within 0.7 per counted
    indicator. *)
Definition score_within (st : Q * Z) : Prop :=
  (0 <= st.2)%Z
  /\ - (0.7 * inject_Z st.2) <= st.1 <= 0.7 * inject_Z st.2.

(** ** Comparisons and arithmetic helpers *)

Lemma Qlt_bool_iff (a b : Q) : Qlt_bool a b = true <-> a < b.
Proof.
  unfold Qlt_bool. rewrite negb_true_iff, <- not_true_iff_false, Qle_bool_iff.
  split; [apply Qnot_le_lt | apply Qlt_not_le].
Qed.

Lemma Qlt_bool_false_iff (a b : Q) : Qlt_bool a b = false <-> b <= a.
Proof.
  unfold Qlt_bool. rewrite negb_false_iff. apply Qle_bool_iff.
Qed.

Lemma Qlt_bool_spec (a b : Q) : reflect (a < b) (Qlt_bool a b).
Proof.
  destruct (Qlt_bool a b) eqn:E; constructor.
  - by apply Qlt_bool_iff.
  - apply Qlt_bool_false_iff in E. by apply Qle_not_lt.
Qed.

Lemma Qle_bool_spec (a b : Q) : reflect (a <= b) (Qle_bool a b).
Proof.
  destruct (Qle_bool a b) eqn:E; constructor.
  - by apply Qle_bool_iff.
  - intros H. apply Qle_bool_iff in H. congruence.
Qed.

Lemma Qeq_bool_spec (a b : Q) : reflect (a == b) (Qeq_bool a b).
Proof.
  destruct (Qeq_bool a b) eqn:E; constructor.
  - by apply Qeq_bool_iff.
  - by apply Qeq_bool_neq.
Qed.

#[global] Instance Qlt_bool_proper : Proper (Qeq ==> Qeq ==> eq) Qlt_bool.
Proof.
  intros a a' Ha b b' Hb.
  destruct (Qlt_bool_spec a b) as [H|H], (Qlt_bool_spec a' b') as [H'|H'];
    try reflexivity; exfalso; rewrite Ha, Hb in H; contradiction.
Qed.

(** ** The sentiment aggregator *)

Lemma weight_pos (rank : nat) : 0 < Spec.weight rank.
Proof.
  unfold Spec.weight. apply Qlt_shift_div_l.
  - rewrite <- (inject_Z_plus _ 1). change 0 with (inject_Z 0).
    rewrite <- Zlt_Qlt. lia.
  - rewrite <- (inject_Z_plus _ 1). change 0 with (inject_Z 0).
    rewrite Qmult_0_l. reflexivity.
Qed.

Lemma loop_weight_eq (i : nat) : 1 / inject_Z (Z.of_nat i + 1) == Spec.weight i.
Proof. unfold Spec.weight. by rewrite inject_Z_plus. Qed.

(** The loop adds, to each accumulator, the sum of the terms of the items
    it visits, ranks counted from [i]. *)
Lemma sentiment_loop_sums (items : list NewsItem) :
  forall (i : nat) (tw ws : Q),
    (sentiment_loop i items tw ws).1
      == tw + Spec.Qsum (map (fun ri => Spec.weight ri.1)
                             (zip (seq i (length items)) items))
    /\ (sentiment_loop i items tw ws).2
      == ws + Spec.Qsum
                (map (fun ri => sentiment ri.2 * sentiment_confidence ri.2
                                * Spec.weight ri.1)
                     (zip (seq i (length items)) items)).
Proof.
  induction items as [|news rest IH]; intros i tw ws; simpl.
  - split; ring.
  - destruct (IH (S i) (tw + 1 / inject_Z (Z.of_nat i + 1))
                (ws + sentiment news * sentiment_confidence news
                      * (1 / inject_Z (Z.of_nat i + 1)))) as [H1 H2].
    rewrite H1, H2, !loop_weight_eq. unfold Spec.Qsum. cbn. split; ring.
Qed.

Lemma weights_sum_pos (items : list NewsItem) (i : nat) :
  items <> [] ->
  0 < Spec.Qsum (map (fun ri : nat * NewsItem => Spec.weight ri.1)
                     (zip (seq i (length items)) items)).
Proof.
  revert i. induction items as [|news rest IH]; intros i Hne; [done|].
  simpl. destruct rest as [|news' rest'].
  - simpl. pose proof (weight_pos i). lra.
  - pose proof (weight_pos i). pose proof (IH (S i) ltac:(done)). simpl in *. lra.
Qed.

(** The loop computes the weighted mean of the specification. *)
Lemma sentiment_score_aggregate (items : list NewsItem) :
  _calculate_sentiment_score items == Spec.aggregate items.
Proof.
  destruct items as [|news rest]; [reflexivity|].
  unfold _calculate_sentiment_score, Spec.aggregate, Spec.ranked.
  set (items := news :: rest).
  destruct (sentiment_loop_sums items 0 0 0) as [H1 H2].
  pose proof (weights_sum_pos items 0 ltac:(done)) as Hpos.
  destruct (sentiment_loop 0 items 0 0) as [tw ws]; simpl in H1, H2.
  rewrite Qplus_0_l in H1, H2.
  assert (Htw : Qlt_bool 0 tw = true) by (apply Qlt_bool_iff; by rewrite H1).
  rewrite Htw. by rewrite H1, H2.
Qed.

(** C5.  For every list of sentiment items, most recent first, the
    aggregated sentiment is the sum of score * confidence * weight over the
    sum of the weights, with weight 1/(rank+1); the empty list gives 0.0
    and a single item of score 1.0 and confidence 1.0 gives 1.0. *)
Theorem sentiment_score_recency_weighted :
  (forall items : list NewsItem,
      _calculate_sentiment_score items == Spec.aggregate items)
  /\ _calculate_sentiment_score [] = 0
  /\ (forall (i : Z) (t : string),
         _calculate_sentiment_score [mkNewsItem i t 1 1] == 1).
Proof.
  split; [exact sentiment_score_aggregate|].
  split; [reflexivity | intros; reflexivity].
Qed.

(** ** Clamping, sums and truncation *)

Lemma clamp_bounds (x lo hi : Q) : lo <= hi -> lo <= Spec.clamp x lo hi <= hi.
Proof.
  intros H. unfold Spec.clamp.
  destruct (Qlt_le_dec x lo); [lra|]. destruct (Qlt_le_dec hi x); lra.
Qed.

#[global] Instance clamp_proper : Proper (Qeq ==> Qeq ==> Qeq ==> Qeq) Spec.clamp.
Proof.
  intros x x' Hx lo lo' Hlo hi hi' Hhi. unfold Spec.clamp.
  destruct (Qlt_le_dec x lo), (Qlt_le_dec x' lo'); try lra;
    destruct (Qlt_le_dec hi x), (Qlt_le_dec hi' x'); lra.
Qed.

(** [min(max(x, lo), hi)] is the clamp of [x] to the interval. *)
Lemma py_min_max_clamp (x lo hi : Q) :
  lo <= hi -> py_min (py_max x lo) hi = Spec.clamp x lo hi.
Proof.
  intros H. unfold py_min, py_max, Spec.clamp.
  destruct (Qlt_bool_spec x lo), (Qlt_le_dec x lo); try lra.
  - destruct (Qlt_bool_spec hi lo); [lra | done].
  - destruct (Qlt_bool_spec hi x), (Qlt_le_dec hi x); try lra; done.
Qed.

(** [min(x, 1.0)] clamps to the unit interval a number that is not negative. *)
Lemma py_min_clamp_unit (x : Q) : 0 <= x -> py_min x 1 = Spec.clamp x 0 1.
Proof.
  intros H. unfold py_min, Spec.clamp.
  destruct (Qlt_le_dec x 0); [lra|].
  destruct (Qlt_bool_spec 1 x), (Qlt_le_dec 1 x); try lra; done.
Qed.

Lemma fold_left_Qplus (xs : list Q) : forall a, fold_left Qplus xs a == a + Spec.Qsum xs.
Proof.
  induction xs as [|x xs IH]; intros a; simpl.
  - ring.
  - rewrite IH. ring.
Qed.

Lemma py_sum_Qsum (xs : list Q) : py_sum xs == Spec.Qsum xs.
Proof. unfold py_sum. rewrite fold_left_Qplus. ring. Qed.

Lemma fold_left_Zadd (xs : list Z) : forall a, fold_left Z.add xs a = (a + foldr Z.add 0 xs)%Z.
Proof.
  induction xs as [|x xs IH]; intros a; simpl; [lia|]. rewrite IH. lia.
Qed.

Lemma py_sum_Z_foldr (xs : list Z) : py_sum_Z xs = foldr Z.add 0%Z xs.
Proof. unfold py_sum_Z. by rewrite fold_left_Zadd. Qed.

Lemma Qsum_abs_nonneg (xs : list Q) : 0 <= Spec.Qsum (map Qabs xs).
Proof.
  induction xs as [|x xs IH]; simpl; [lra|].
  pose proof (Qabs_nonneg x). lra.
Qed.

(** On a number that is not negative, truncation is the floor. *)
Lemma py_int_floor (x : Q) : 0 <= x -> py_int x = Qfloor x.
Proof.
  destruct x as [n d]. unfold Qle, py_int, Qfloor. simpl. intros H.
  apply Z.quot_div_nonneg; lia.
Qed.

Lemma py_clamp_Z (q : Z) : py_max_Z 1 (py_min_Z q 1000) = Z.max 1 (Z.min 1000 q).
Proof.
  unfold py_max_Z, py_min_Z.
  destruct (Z.ltb_spec 1000 q); [destruct (Z.ltb_spec 1 1000) | destruct (Z.ltb_spec 1 q)]; lia.
Qed.

Lemma py_div_ok (a b : Q) : ~ b == 0 -> py_div a b = Ok (a / b).
Proof. intros H. unfold py_div. by destruct (Qeq_bool_spec b 0). Qed.

(** ** Binary64 rounding *)

Lemma pow2_pos (e : Z) : 0 < 2 ^ e.
Proof. apply Qpower_0_lt. reflexivity. Qed.

Lemma pow2_Z (n : Z) : (0 <= n)%Z -> 2 ^ n == inject_Z (2 ^ n).
Proof. intros H. by rewrite Zpower_Qpower. Qed.

Lemma pow2_le (n m : Z) : (n <= m)%Z -> 2 ^ n <= 2 ^ m.
Proof. intros H. apply Qpower_le_compat_l; [exact H | discriminate]. Qed.

Lemma pow2_lt (n m : Z) : (n < m)%Z -> 2 ^ n < 2 ^ m.
Proof. intros H. apply Qpower_lt_compat_l; [exact H | reflexivity]. Qed.

Lemma pow2_lt_inv (n m : Z) : 2 ^ n < 2 ^ m -> (n < m)%Z.
Proof.
  intros H. destruct (Z_lt_le_dec n m) as [|Hle]; [assumption|].
  apply pow2_le in Hle. lra.
Qed.

(** The logarithm is not above an exponent whose power bounds the number. *)
Lemma ilog2_le (x : Q) (n : Z) : 0 < x -> x <= 2 ^ n -> (ilog2 x <= n)%Z.
Proof.
  intros Hpos Hle.
  assert (Hlow : 2 ^ (Z.log2 (Qnum x) - Z.log2 (Zpos (Qden x)) - 1) < x).
  { destruct x as [num den]. cbn [Qnum Qden] in *.
    assert (0 < num)%Z as Hnum by (unfold Qlt in Hpos; simpl in Hpos; lia).
    pose proof (Z.log2_spec num Hnum) as [Ha _].
    pose proof (Z.log2_spec (Z.pos den) ltac:(lia)) as [_ Hb].
    pose proof (Z.log2_nonneg num) as Ha0.
    pose proof (Z.log2_nonneg (Z.pos den)) as Hb0.
    set (a := Z.log2 num) in *. set (b := Z.log2 (Z.pos den)) in *.
    replace (a - b - 1)%Z with (a - Z.succ b)%Z by lia.
    rewrite Qpower_minus by discriminate.
    rewrite (pow2_Z a), (pow2_Z (Z.succ b)) by lia.
    assert (0 < 2 ^ a)%Z by (apply Z.pow_pos_nonneg; lia).
    assert (0 < 2 ^ Z.succ b)%Z by (apply Z.pow_pos_nonneg; lia).
    apply Qlt_shift_div_r.
    { change 0 with (inject_Z 0). rewrite <- Zlt_Qlt. lia. }
    unfold Qlt, Qmult, inject_Z. cbn [Qnum Qden]. nia. }
  unfold ilog2.
  set (e := (Z.log2 (Qnum x) - Z.log2 (Z.pos (Qden x)))%Z) in *.
  assert (e - 1 < n)%Z by (apply pow2_lt_inv; lra).
  destruct (Qle_bool (2 ^ e) x); lia.
Qed.

(** Rounding to the nearest integer does not pass an integer bound. *)
Lemma round_half_even_le (x : Q) (N : Z) :
  x <= inject_Z N -> (round_half_even x <= N)%Z.
Proof.
  intros H. unfold round_half_even.
  pose proof (Qfloor_le x) as Hf. pose proof (Qlt_floor x) as Hc.
  assert (Qfloor x <= N)%Z as HfN by (rewrite Zle_Qle; lra).
  destruct (Z.eq_dec (Qfloor x) N) as [Heq|Hne].
  - assert (x - inject_Z (Qfloor x) <= 0) as Hz by (rewrite Heq; lra).
    destruct (Qcompare_spec (x - inject_Z (Qfloor x)) (1 # 2)) as [E|E|E];
      [lra | lia | lra].
  - destruct (Qcompare _ _); [destruct (Z.even _)| |]; lia.
Qed.

Lemma round_half_even_nonneg (x : Q) : 0 <= x -> (0 <= round_half_even x)%Z.
Proof.
  intros H. unfold round_half_even.
  assert (0 <= Qfloor x)%Z.
  { change 0%Z with (Qfloor 0). by apply Qfloor_resp_le. }
  destruct (Qcompare _ _); [destruct (Z.even _)| |]; lia.
Qed.

(** Rounding never passes a power of two of the binary64 range: a number
    within [2 ^ n] in absolute value rounds to a finite float within
    [2 ^ n]. *)
Lemma binary64_within_power (x : Q) (n : Z) :
  (-1074 <= n <= 1023)%Z -> Qabs x <= 2 ^ n ->
  exists y, binary64 x = Finite y /\ Qabs y <= 2 ^ n.
Proof.
  intros Hn Hx. unfold binary64.
  destruct (Qeq_bool x 0) eqn:Hz.
  { exists 0. split; [reflexivity|]. pose proof (pow2_pos n).
    change (Qabs 0) with 0. lra. }
  assert (0 < Qabs x) as Hpos.
  { apply Qeq_bool_neq in Hz. destruct (Qlt_le_dec 0 (Qabs x)) as [|Hle]; [done|].
    exfalso. apply Hz. revert Hle. apply Qabs_case; intros; lra. }
  pose proof (ilog2_le _ _ Hpos Hx) as Hk.
  set (e := Z.max (ilog2 (Qabs x) - 52) (-1074)).
  assert (e <= n)%Z as He by lia.
  pose proof (pow2_pos e) as Hpe.
  assert (Hsplit : 2 ^ n == 2 ^ (n - e) * 2 ^ e).
  { rewrite <- (Qpower_plus 2 (n - e) e) by discriminate.
    by replace (n - e + e)%Z with n by lia. }
  set (m := round_half_even (Qabs x / 2 ^ e)).
  assert (Hm : (m <= 2 ^ (n - e))%Z).
  { apply round_half_even_le. rewrite <- pow2_Z by lia.
    apply Qle_shift_div_r; [exact Hpe|]. lra. }
  assert (Hm0 : (0 <= m)%Z).
  { apply round_half_even_nonneg. apply Qle_shift_div_l; [exact Hpe|]. lra. }
  assert (Hy : inject_Z m * 2 ^ e <= 2 ^ n).
  { assert (inject_Z m <= 2 ^ (n - e)) as Hmq
      by (rewrite pow2_Z by lia; by rewrite <- Zle_Qle).
    pose proof (Qmult_le_compat_r _ _ (2 ^ e) Hmq ltac:(lra)). lra. }
  assert (Hy0 : 0 <= inject_Z m * 2 ^ e).
  { apply Qmult_le_0_compat; [|lra]. change 0 with (inject_Z 0).
    by rewrite <- Zle_Qle. }
  pose proof (pow2_lt n 1024 ltac:(lia)) as Hlt.
  destruct (Qle_bool (2 ^ 1024) (inject_Z m * 2 ^ e)) eqn:Hov.
  { apply Qle_bool_iff in Hov. lra. }
  eexists. split; [reflexivity|].
  destruct (Qlt_bool x 0).
  - rewrite Qabs_opp, Qabs_pos; assumption.
  - rewrite Qabs_pos; assumption.
Qed.

Lemma Qabs_div_le (a b B C : Q) :
  Qabs a <= B -> 0 < b -> B <= C * b -> Qabs (a / b) <= C.
Proof.
  intros Ha Hb HB. apply Qabs_Qle_condition in Ha as [Hlo Hhi].
  apply Qabs_Qle_condition. split.
  - apply Qle_shift_div_l; [exact Hb|]. lra.
  - apply Qle_shift_div_r; [exact Hb|]. lra.
Qed.

(** A finite float divided by a divisor that keeps the quotient within
    [2 ^ n] gives a finite float within [2 ^ n]. *)
Lemma float_div_within_power (x b : Q) (n k : Z) :
  (-1074 <= n <= 1023)%Z -> Qabs x <= 2 ^ k -> 0 < b -> 2 ^ k <= 2 ^ n * b ->
  exists y, float_div (Finite x) b = Ok (Finite y) /\ Qabs y <= 2 ^ n.
Proof.
  intros Hn Hx Hb Hk. unfold float_div.
  destruct (Qeq_bool_spec b 0); [lra|].
  destruct (binary64_within_power (x / b) n Hn
              (Qabs_div_le x b (2 ^ k) (2 ^ n) Hx Hb Hk)) as (y & -> & Hy).
  by exists y.
Qed.

(** ** The position sizer *)

Lemma service_multiplier (r : RiskLevel) :
  risk_multipliers trading_service r = Spec.risk_multiplier r.
Proof. by destruct r. Qed.

Lemma risk_multiplier_pos (r : RiskLevel) : 0 < Spec.risk_multiplier r.
Proof. destruct r; reflexivity. Qed.

Lemma risk_multiplier_ge_half (r : RiskLevel) : 1 # 2 <= Spec.risk_multiplier r.
Proof. destruct r; discriminate. Qed.

(** Whenever the sizer returns, the clamp has been applied. *)
Lemma position_size_clamped (self : TradingService) (settings : Settings)
    (current_price : Q) (r : RiskLevel) (config : gmap string Q) (q : Z) :
  _calculate_position_size self settings current_price r config = Ok q ->
  (1 <= q <= 1000)%Z.
Proof.
  unfold _calculate_position_size.
  destruct (float_div _ _) as [adj|]; [|discriminate]. cbn [mbind result_bind].
  destruct (float_div _ _) as [per|]; [|discriminate]. cbn [mbind result_bind].
  destruct (float_int per) as [quantity_|]; [|discriminate].
  cbn [mbind result_bind mret result_ret]. intros [= <-].
  rewrite py_clamp_Z. lia.
Qed.

(** For a budget within [2 ^ 1000] in absolute value and a price of at
    least [2 ^ -20] the two quotients are finite and the sizer returns. *)
Lemma position_size_returns (settings : Settings) (config : gmap string Q)
    (current_price : Q) (r : RiskLevel) :
  Qabs (config_get config "max_position_size" (MAX_POSITION_SIZE settings))
  <= 2 ^ 1000 ->
  2 ^ (-20) <= current_price ->
  exists q,
    _calculate_position_size trading_service settings current_price r config = Ok q.
Proof.
  intros Hbudget Hprice. unfold _calculate_position_size.
  set (mps := config_get config "max_position_size" (MAX_POSITION_SIZE settings)) in *.
  rewrite service_multiplier.
  pose proof (risk_multiplier_pos r) as Hm.
  pose proof (risk_multiplier_ge_half r) as Hhalf.
  destruct (binary64_within_power mps 1000 ltac:(lia) Hbudget) as (m0 & -> & H0).
  assert (H1 : 2 ^ 1000 <= 2 ^ 1001 * Spec.risk_multiplier r).
  { assert (2 ^ 1001 == 2 ^ 1000 * 2) as ->
      by (by rewrite (Qpower_plus 2 1000 1)).
    pose proof (pow2_pos 1000). set (P := 2 ^ 1000) in *. nra. }
  destruct (float_div_within_power m0 _ 1001 1000 ltac:(lia) H0 Hm H1)
    as (adj & -> & Hadj).
  cbn [mbind result_bind].
  pose proof (pow2_pos (-20)) as H20.
  assert (H2 : 2 ^ 1001 <= 2 ^ 1021 * current_price).
  { assert (2 ^ 1001 == 2 ^ 1021 * 2 ^ (-20)) as ->
      by (by rewrite <- (Qpower_plus 2 1021 (-20))).
    pose proof (pow2_pos 1021). set (P := 2 ^ 1021) in *.
    set (p20 := 2 ^ (-20)) in *. nra. }
  destruct (float_div_within_power adj current_price 1021 1001 ltac:(lia) Hadj
              ltac:(lra) H2) as (per & -> & _).
  cbn [mbind result_bind float_int mret result_ret]. by eexists.
Qed.

(** C7.  A budget of 1e308 in the LOW tier at a price of 100: the
    adjusted budget 1e308 / 0.5 overflows to infinity, so does the quotient
    by the price, and [int] raises [OverflowError] before the clamp
    [max(1, min(quantity, 1000))] is reached, where the specification gives
    the quantity 1000.  Whenever the sizer does return, the quantity is
    between 1 and 1000. *)
Theorem position_size_overflows_before_clamp :
  _calculate_position_size trading_service Sample.settings 100 LOW
    {[ "max_position_size" := 1e308 ]}
  = Raise OverflowError
  /\ Spec.quantity_of 1e308 100 LOW = 1000%Z
  /\ (forall (settings : Settings) (current_price : Q) (r : RiskLevel)
             (config : gmap string Q) (q : Z),
         _calculate_position_size trading_service settings current_price r config
         = Ok q ->
         (1 <= q <= 1000)%Z).
Proof.
  split; [vm_compute; reflexivity|]. split; [vm_compute; reflexivity|].
  intros settings current_price r config q. apply position_size_clamped.
Qed.

(** The quantity is the integer part of the float quotient: at a budget
    of 10 and the float price 0.1 the quotient rounds to exactly 100, where
    the quotient of the same two numbers taken exactly is just below 100. *)
Lemma position_size_of_rounded_quotient :
  _calculate_position_size trading_service Sample.settings (literal 0.1) MEDIUM
    {[ "max_position_size" := 10 ]}
  = Ok 100%Z
  /\ Spec.quantity_of 10 (literal 0.1) MEDIUM = 99%Z.
Proof. split; vm_compute; reflexivity. Qed.

(** ** The confidence estimator *)

Lemma classify_cases (x : Q) :
  (Spec.classify x = Spec.Positive /\ 0.1 < x)
  \/ (Spec.classify x = Spec.Negative /\ x < -0.1)
  \/ (Spec.classify x = Spec.Neutral /\ -0.1 <= x <= 0.1).
Proof.
  unfold Spec.classify.
  destruct (Qlt_le_dec 0.1 x); [by left|].
  destruct (Qlt_le_dec x (-0.1)); [right; by left|]. right; right. split; [done | lra].
Qed.

(** The three counters of the code are the sizes of the three classes. *)
Lemma count_classes (xs : list Q) :
  count_if (fun s => Qlt_bool 0.1 s) xs = Z.of_nat (Spec.class_count Spec.Positive xs)
  /\ count_if (fun s => Qlt_bool s (-0.1)) xs
     = Z.of_nat (Spec.class_count Spec.Negative xs)
  /\ (Spec.class_count Spec.Positive xs + Spec.class_count Spec.Negative xs
      + Spec.class_count Spec.Neutral xs = length xs)%nat.
Proof.
  unfold count_if, Spec.class_count.
  induction xs as [|x xs (IHp & IHn & IHs)]; [done|].
  rewrite !filter_cons.
  destruct (Qlt_bool_spec 0.1 x) as [Hp|Hp], (Qlt_bool_spec x (-0.1)) as [Hn|Hn];
    destruct (classify_cases x) as [[Hc Hr]|[[Hc Hr]|[Hc Hr]]]; try lra;
    rewrite Hc; repeat case_decide; try done; try (exfalso; tauto);
    cbn [length]; repeat split; lia.
Qed.

Lemma agreement_ratio_range (xs : list Q) :
  xs <> [] -> 0 <= Spec.agreement_ratio xs <= 1.
Proof.
  intros Hne. unfold Spec.agreement_ratio.
  destruct (count_classes xs) as (_ & _ & Hsum).
  assert (0 < length xs)%nat as Hlen by (destruct xs; [done | simpl; lia]).
  set (m := Nat.max _ _) in *.
  assert (m <= length xs)%nat as Hm by (subst m; lia).
  assert (0 < inject_Z (Z.of_nat (length xs))) as Hpos.
  { change 0 with (inject_Z 0). rewrite <- Zlt_Qlt. lia. }
  split.
  - apply Qle_shift_div_l; [done|]. rewrite Qmult_0_l.
    change 0 with (inject_Z 0). rewrite <- Zle_Qle. lia.
  - apply Qle_shift_div_r; [done|]. rewrite Qmult_1_l. rewrite <- Zle_Qle. lia.
Qed.

Lemma magnitude_avg_nonneg (xs : list Q) : 0 <= Spec.magnitude_avg xs.
Proof.
  unfold Spec.magnitude_avg. destruct xs as [|x xs].
  - vm_compute. discriminate.
  - apply Qle_shift_div_l.
    + change 0 with (inject_Z 0). rewrite <- Zlt_Qlt. simpl. lia.
    + rewrite Qmult_0_l. apply Qsum_abs_nonneg.
Qed.

Lemma confidence_blend (scores : list (option Q)) :
  _calculate_confidence scores == Spec.confidence_of (omap Datatypes.id scores).
Proof.
  unfold _calculate_confidence, Spec.confidence_of.
  destruct (omap Datatypes.id scores) as [|x xs] eqn:Hvalid; [reflexivity|].
  set (valid := x :: xs).
  destruct (count_classes valid) as (Hp & Hn & Hsum).
  pose proof (agreement_ratio_range valid ltac:(done)) as Hagree.
  pose proof (magnitude_avg_nonneg valid) as Hmag.
  assert (Hblend :
    inject_Z (py_max_Z (py_max_Z (count_if (fun s => Qlt_bool 0.1 s) valid)
                                 (count_if (fun s => Qlt_bool s (-0.1)) valid))
                       (Z.of_nat (length valid)
                        - count_if (fun s => Qlt_bool 0.1 s) valid
                        - count_if (fun s => Qlt_bool s (-0.1)) valid))
    / inject_Z (Z.of_nat (length valid)) * 0.6
    + py_sum (map Qabs valid) / inject_Z (Z.of_nat (length valid)) * 0.4
    == Spec.agreement_ratio valid * 0.6 + Spec.magnitude_avg valid * 0.4).
  { unfold Spec.agreement_ratio, Spec.magnitude_avg.
    rewrite py_sum_Qsum, Hp, Hn.
    replace (Z.of_nat (length valid) - _ - _)%Z
      with (Z.of_nat (Spec.class_count Spec.Neutral valid)) by lia.
    replace (py_max_Z (py_max_Z _ _) _)
      with (Z.of_nat (Nat.max (Nat.max (Spec.class_count Spec.Positive valid)
                                       (Spec.class_count Spec.Negative valid))
                              (Spec.class_count Spec.Neutral valid))).
    - reflexivity.
    - unfold py_max_Z.
      destruct (Z.ltb_spec (Z.of_nat (Spec.class_count Spec.Positive valid))
                           (Z.of_nat (Spec.class_count Spec.Negative valid)));
        match goal with |- context [(?a <? ?b)%Z] => destruct (Z.ltb_spec a b) end;
        lia. }
  rewrite py_min_clamp_unit.
  - by rewrite Hblend.
  - rewrite Hblend. lra.
Qed.

Lemma confidence_unit_range (scores : list (option Q)) :
  0 <= _calculate_confidence scores <= 1.
Proof.
  rewrite confidence_blend. unfold Spec.confidence_of.
  destruct (omap Datatypes.id scores); [lra|]. apply clamp_bounds. lra.
Qed.

(** C8.  For every list of component scores (those that could not be
    computed are skipped), the confidence is
    clamp(agreement_ratio * 0.6 + magnitude_avg * 0.4, 0, 1), the classes
    being positive (> 0.1), negative (< -0.1) and neutral; it lies in
    [0, 1], and the empty list gives 0.0. *)
Theorem confidence_is_clamped_blend (scores : list (option Q)) :
  _calculate_confidence scores == Spec.confidence_of (omap Datatypes.id scores)
  /\ 0 <= _calculate_confidence scores <= 1
  /\ _calculate_confidence [] = 0.
Proof.
  split; [apply confidence_blend|]. split; [apply confidence_unit_range | reflexivity].
Qed.

(** ** Negative indices and slices *)

(** [l[-(k+1)]] is the element [k] places before the last one; the access
    raises when there is none. *)
Lemma py_index_back {A : Type} (l : list A) (k : nat) :
  py_index l (- Z.of_nat (S k))
  = match reverse l !! k with Some x => Ok x | None => Raise IndexError end.
Proof.
  unfold py_index, norm_index.
  destruct (Z.ltb_spec (- Z.of_nat (S k)) 0) as [_|H]; [|lia].
  destruct (decide (k < length l)%nat) as [Hk|Hk].
  - rewrite reverse_lookup by done.
    destruct (Z.ltb_spec (- Z.of_nat (S k) + Z.of_nat (length l)) 0); [lia|].
    replace (Z.to_nat (- Z.of_nat (S k) + Z.of_nat (length l)))
      with (length l - S k)%nat by lia.
    done.
  - rewrite (lookup_ge_None_2 (reverse l) k) by (rewrite length_reverse; lia).
    destruct (Z.ltb_spec (- Z.of_nat (S k) + Z.of_nat (length l)) 0); [done|].
    lia.
Qed.

Lemma reverse_lookup_0 {A : Type} (l : list A) : reverse l !! 0%nat = last l.
Proof.
  destruct (decide (0 < length l)%nat) as [H|H].
  - rewrite reverse_lookup by done. rewrite last_lookup. f_equal. lia.
  - destruct l; [done | simpl in H; lia].
Qed.

(** [l[-n:]] keeps the last [n] elements, the whole list when it is shorter. *)
Lemma py_slice_last {A : Type} (l : list A) (n : nat) :
  (0 < n)%nat -> py_slice l (Some (- Z.of_nat n)%Z) None = Spec.last_n n l.
Proof.
  intros Hn. unfold py_slice, clip_index, norm_index, Spec.last_n.
  destruct (Z.ltb_spec (- Z.of_nat n) 0); [|lia].
  rewrite take_ge by (rewrite length_drop; lia).
  f_equal. lia.
Qed.

(** [l[-n:-m]] is the last [n] elements without their last [m]. *)
Lemma py_slice_window {A : Type} (l : list A) (n m : nat) :
  (0 < m <= n)%nat -> (n <= length l)%nat ->
  py_slice l (Some (- Z.of_nat n)%Z) (Some (- Z.of_nat m)%Z)
  = take (n - m) (Spec.last_n n l).
Proof.
  intros Hm Hn. unfold py_slice, clip_index, norm_index, Spec.last_n.
  destruct (Z.ltb_spec (- Z.of_nat n) 0); [|lia].
  destruct (Z.ltb_spec (- Z.of_nat m) 0); [|lia].
  f_equal; [|f_equal]; lia.
Qed.


(** ** The volume scorer *)

Lemma score_of_ratio_code (ratio : Q) :
  (if Qlt_bool 1.5 ratio then Ok 0.5
   else if Qlt_bool ratio 0.5 then Ok (-0.2) else Ok 0.1)
  = Ok (Spec.score_of_ratio ratio).
Proof.
  unfold Spec.score_of_ratio.
  destruct (Qlt_bool_spec 1.5 ratio), (Qlt_le_dec 1.5 ratio); try lra; [done|].
  destruct (Qlt_bool_spec ratio 0.5), (Qlt_le_dec ratio 0.5); try lra; done.
Qed.

Lemma last_map_volume (bars : list MarketData) (n : nat) :
  (0 < n)%nat ->
  reverse (map volume (Spec.last_n n bars)) !! 0%nat = volume <$> last bars.
Proof.
  intros Hn. rewrite reverse_lookup_0. unfold Spec.last_n.
  change (map volume) with (fmap (M:=list) volume). rewrite fmap_last. f_equal.
  destruct (decide (length bars = 0)%nat) as [H0|H0].
  - destruct bars; [done | simpl in H0; lia].
  - rewrite !last_lookup, lookup_drop, length_drop. f_equal. lia.
Qed.

(** The scorer compares the last bar with the baseline; in the model, of
    volumes within the float range, it does not raise. *)
Lemma volume_score_refines (bars : list MarketData) :
  _calculate_volume_score bars = Ok (Spec.volume_score_current bars).
Proof.
  unfold _calculate_volume_score, Spec.volume_score_current.
  destruct (Z.ltb_spec (Z.of_nat (length bars)) 20) as [Hlen|Hlen],
           (Nat.ltb_spec (length bars) 20) as [Hlen'|Hlen']; try lia; [done|].
  change (-20)%Z with (- Z.of_nat 20)%Z. change (-5)%Z with (- Z.of_nat 5)%Z.
  rewrite py_slice_window, py_slice_last by lia.
  change (20 - 5)%nat with 15%nat. fold (Spec.baseline bars).
  rewrite py_sum_Z_foldr.
  assert (Hcount : length (Spec.baseline bars) = 15%nat).
  { unfold Spec.baseline, Spec.last_n. rewrite length_take, length_drop. lia. }
  unfold Spec.mean_volume. rewrite Hcount. change (inject_Z (Z.of_nat 15)) with 15.
  set (avg := inject_Z _ / 15).
  destruct (Qeq_bool_spec avg 0) as [Hz|Hz]; [done|].
  change (-1)%Z with (- Z.of_nat 1)%Z.
  rewrite py_index_back, last_map_volume by lia.
  unfold Spec.current_volume.
  destruct (last bars) as [b|] eqn:Hlast.
  - cbn [fmap option_fmap option_map mbind result_bind from_option].
    rewrite py_div_ok by done. cbn [mbind result_bind].
    apply score_of_ratio_code.
  - apply last_None in Hlast. subst bars. simpl in Hlen. lia.
Qed.



(** ** The momentum scorer *)

Lemma close_back_lookup (bars : list MarketData) (k : nat) (b : MarketData) :
  reverse bars !! k = Some b -> Spec.close_back bars k = close_price b.
Proof. intros H. unfold Spec.close_back. by rewrite H. Qed.

Lemma reverse_lookup_positive (bars : list MarketData) (k : nat) (b : MarketData) :
  Spec.closes_positive bars -> reverse bars !! k = Some b -> 0 < close_price b.
Proof.
  intros Hpos Hk. unfold Spec.closes_positive in Hpos.
  rewrite Forall_forall in Hpos. apply Hpos.
  apply elem_of_reverse. by eapply list_elem_of_lookup_2.
Qed.

Lemma reverse_lookup_lt (bars : list MarketData) (k : nat) :
  (k < length bars)%nat -> exists b, reverse bars !! k = Some b.
Proof.
  intros H. apply lookup_lt_is_Some_2. by rewrite length_reverse.
Qed.

(** A return over [k] bars, when the bar is there and its close is positive. *)
Lemma period_return_back (bars : list MarketData) (current : Q) (k : nat)
    (b : MarketData) :
  reverse bars !! k = Some b -> 0 < close_price b ->
  period_return bars current (- Z.of_nat (S k))
  = Ok ((current - close_price b) / close_price b).
Proof.
  intros Hk Hpos. unfold period_return. rewrite py_index_back, Hk.
  cbn [mbind result_bind]. apply py_div_ok. lra.
Qed.

Lemma day_return_lookup (bars : list MarketData) (k : nat) (last_bar b : MarketData) :
  reverse bars !! 0%nat = Some last_bar -> reverse bars !! k = Some b ->
  Spec.day_return bars k
  = (close_price last_bar - close_price b) / close_price b.
Proof.
  intros H0 Hk. unfold Spec.day_return.
  assert (k < length bars)%nat as Hlt.
  { apply lookup_lt_Some in Hk. by rewrite length_reverse in Hk. }
  destruct (Nat.ltb_spec k (length bars)); [|lia].
  by rewrite (close_back_lookup _ _ _ H0), (close_back_lookup _ _ _ Hk).
Qed.

Lemma momentum_score_short (bars : list MarketData) :
  (length bars < 10)%nat -> _calculate_momentum_score bars = Ok 0.
Proof.
  intros Hlen. unfold _calculate_momentum_score.
  destruct (Z.ltb_spec (Z.of_nat (length bars)) 10); [done | lia].
Qed.

Lemma momentum_score_refines (bars : list MarketData) :
  Spec.closes_positive bars -> (10 <= length bars)%nat ->
  exists v, _calculate_momentum_score bars = Ok v /\ v == Spec.momentum bars.
Proof.
  intros Hpos Hlen. unfold _calculate_momentum_score.
  destruct (Z.ltb_spec (Z.of_nat (length bars)) 10); [lia|].
  destruct (reverse_lookup_lt bars 0 ltac:(lia)) as [b0 H0].
  destruct (reverse_lookup_lt bars 1 ltac:(lia)) as [b1 H1].
  destruct (reverse_lookup_lt bars 5 ltac:(lia)) as [b5 H5].
  change (py_index bars (-1)) with (py_index bars (- Z.of_nat 1)).
  change (-2)%Z with (- Z.of_nat 2)%Z.
  change (-6)%Z with (- Z.of_nat 6)%Z. change (-11)%Z with (- Z.of_nat 11)%Z.
  rewrite py_index_back, H0. cbn [mbind result_bind].
  rewrite (period_return_back _ _ _ _ H1 (reverse_lookup_positive _ _ _ Hpos H1)).
  cbn [mbind result_bind].
  destruct (Z.leb_spec 6 (Z.of_nat (length bars))); [|lia].
  rewrite (period_return_back _ _ _ _ H5 (reverse_lookup_positive _ _ _ Hpos H5)).
  cbn [mbind result_bind].
  unfold Spec.momentum.
  rewrite (day_return_lookup _ _ _ _ H0 H1), (day_return_lookup _ _ _ _ H0 H5).
  destruct (Z.leb_spec 11 (Z.of_nat (length bars))) as [H11|H11].
  - destruct (reverse_lookup_lt bars 10 ltac:(lia)) as [b10 H10].
    rewrite (period_return_back _ _ _ _ H10
               (reverse_lookup_positive _ _ _ Hpos H10)).
    cbn [mbind result_bind mret result_ret]. eexists; split; [reflexivity|].
    rewrite (day_return_lookup _ _ _ _ H0 H10).
    rewrite py_min_max_clamp by lra.
    apply clamp_proper; [ring | reflexivity | reflexivity].
  - cbn [mbind result_bind mret result_ret]. eexists; split; [reflexivity|].
    unfold Spec.day_return.
    destruct (Nat.ltb_spec 10 (length bars)); [lia|].
    rewrite py_min_max_clamp by lra.
    apply clamp_proper; [ring | reflexivity | reflexivity].
Qed.

(** C10 (as amended).  With fewer than 10 bars the momentum score is 0.0,
    whatever the bars hold.  With at least 10 bars of positive closes it is
    clamp((0.5*r1 + 0.3*r5 + 0.2*r10) * 10, -1.0, 1.0), r1 and r5 being the
    1-day and 5-day returns and r10 the 10-day return, 0 when there are
    only 10 bars. *)
Theorem momentum_score_from_ten_bars (bars : list MarketData) :
  ((length bars < 10)%nat -> _calculate_momentum_score bars = Ok 0)
  /\ (Spec.closes_positive bars -> (10 <= length bars)%nat ->
      exists v, _calculate_momentum_score bars = Ok v /\ v == Spec.momentum bars).
Proof.
  split; [apply momentum_score_short | apply momentum_score_refines].
Qed.

Lemma momentum_score_from_ten_bars_witness :
  Spec.closes_positive Sample.eleven_bars
  /\ exists v, _calculate_momentum_score Sample.eleven_bars = Ok v
               /\ v == Spec.momentum Sample.eleven_bars.
Proof.
  assert (H : Spec.closes_positive Sample.eleven_bars)
    by (repeat constructor).
  split; [exact H|].
  apply (proj2 (momentum_score_from_ten_bars Sample.eleven_bars) H).
  simpl. lia.
Defined.

(** Two bars, 100 then 110: the 1-day return is 0.1 and the worded formula
    gives 0.5, but the scorer answers 0.0 below ten bars. *)
Lemma momentum_two_bars_counterexample :
  (2 <= length Sample.two_bars)%nat
  /\ _calculate_momentum_score Sample.two_bars = Ok 0
  /\ Spec.momentum Sample.two_bars == 0.5
  /\ ~ 0 == Spec.momentum Sample.two_bars.
Proof.
  split; [simpl; lia|]. split; [reflexivity|]. split; [reflexivity|].
  intros H. vm_compute in H. discriminate.
Qed.

(** ** The technical scorer *)

Lemma Qsum_app (xs ys : list Q) : Spec.Qsum (xs ++ ys) == Spec.Qsum xs + Spec.Qsum ys.
Proof.
  induction xs as [|x xs IH]; simpl; [ring|]. unfold Spec.Qsum in *. simpl.
  rewrite IH. ring.
Qed.

Lemma tracks_nil : tracks [] (0, 0%Z).
Proof. split; reflexivity. Qed.

Lemma tracks_present (rows : list (option Q)) (st : Q * Z) (c score' : Q) :
  tracks rows st -> score' == st.1 + c ->
  tracks (rows ++ [Some c]) (score', (st.2 + 1)%Z).
Proof.
  intros [Hs Hc] Hscore. unfold tracks.
  rewrite omap_app, Qsum_app, length_app. simpl. split.
  - rewrite Hscore, Hs. unfold Spec.Qsum. simpl. ring.
  - rewrite Hc. lia.
Qed.

Lemma tracks_absent (rows : list (option Q)) (st : Q * Z) :
  tracks rows st -> tracks (rows ++ [None]) st.
Proof.
  intros [Hs Hc]. unfold tracks. rewrite omap_app. simpl.
  by rewrite app_nil_r.
Qed.

(** Decide a comparison of the code and the same comparison of the table
    together. *)
Ltac compare_both a b :=
  destruct (Qlt_bool_spec a b), (Qlt_le_dec a b); try lra.

Lemma rsi_signals_row (ind : TechnicalIndicators) rows st :
  tracks rows st ->
  tracks (rows ++ [Spec.rsi_row ind]) (rsi_signals ind st).
Proof.
  intros H. destruct st as [score n]. unfold rsi_signals, Spec.rsi_row.
  destruct (rsi ind) as [r|]; simpl; [|by apply tracks_absent].
  compare_both r 30; [apply (tracks_present _ (score, n)); [done | simpl; ring]|].
  compare_both 70 r; [apply (tracks_present _ (score, n)); [done | simpl; ring]|].
  destruct (Qle_bool 40 r && Qle_bool r 60);
    apply (tracks_present _ (score, n)); try done; simpl; ring.
Qed.

Lemma macd_signals_row (ind : TechnicalIndicators) rows st :
  tracks rows st ->
  tracks (rows ++ [Spec.macd_row ind]) (macd_signals ind st).
Proof.
  intros H. destruct st as [score n]. unfold macd_signals, Spec.macd_row.
  destruct (macd ind) as [m|]; simpl; [|by apply tracks_absent].
  destruct (macd_signal ind) as [s|]; simpl; [|by apply tracks_absent].
  compare_both s m; apply (tracks_present _ (score, n)); try done; simpl; ring.
Qed.

Lemma moving_average_signals_row (ind : TechnicalIndicators) rows st :
  tracks rows st ->
  tracks (rows ++ [Spec.sma_cross_row ind]) (moving_average_signals ind st).
Proof.
  intros H. destruct st as [score n].
  unfold moving_average_signals, Spec.sma_cross_row.
  destruct (sma_20 ind) as [s20|]; simpl; [|by apply tracks_absent].
  destruct (sma_50 ind) as [s50|]; simpl; [|by apply tracks_absent].
  compare_both s50 s20; apply (tracks_present _ (score, n)); try done; simpl; ring.
Qed.

Lemma price_vs_sma_signals_row (ind : TechnicalIndicators) (current : Q) rows st :
  denominators_nonzero ind -> tracks rows st ->
  exists st', price_vs_sma_signals ind current st = Ok st'
              /\ tracks (rows ++ [Spec.price_vs_sma_row ind current]) st'.
Proof.
  intros [Hsma _] H. destruct st as [score n].
  unfold price_vs_sma_signals, Spec.price_vs_sma_row.
  destruct (sma_20 ind) as [s20|] eqn:E; simpl.
  - rewrite py_div_ok by (by apply Hsma). cbn [mbind result_bind mret result_ret].
    eexists; split; [reflexivity|].
    apply (tracks_present _ (score, n)); [done|]. simpl.
    rewrite py_min_max_clamp by lra. reflexivity.
  - eexists; split; [reflexivity|]. by apply tracks_absent.
Qed.

Lemma bollinger_signals_row (ind : TechnicalIndicators) (current : Q) rows st :
  denominators_nonzero ind -> tracks rows st ->
  exists st', bollinger_signals ind current st = Ok st'
              /\ tracks (rows ++ [bollinger_row_guarded ind current]) st'.
Proof.
  intros [_ Hband] H. destruct st as [score n].
  unfold bollinger_signals, bollinger_row_guarded, Spec.bollinger_row.
  destruct (truthy (bollinger_upper ind) && truthy (bollinger_lower ind)
            && truthy (bollinger_middle ind)) eqn:Hguard;
    [|eexists; split; [reflexivity | by apply tracks_absent]].
  destruct (bollinger_upper ind) as [upper|] eqn:Eu; [|done].
  destruct (bollinger_lower ind) as [lower|] eqn:El;
    [|by rewrite andb_false_r in Hguard].
  simpl.
  rewrite py_div_ok.
  2:{ intros Hz. apply (Hband upper lower); [done..|]. lra. }
  cbn [mbind result_bind mret result_ret].
  eexists; split; [reflexivity|].
  unfold Spec.bollinger_contribution, Spec.bollinger_position.
  set (pos := (current - lower) / (upper - lower)).
  compare_both pos 0.2; [apply (tracks_present _ (score, n)); [done | simpl; ring]|].
  compare_both 0.8 pos; apply (tracks_present _ (score, n)); try done; simpl; ring.
Qed.

Lemma stochastic_signals_row (ind : TechnicalIndicators) rows st :
  tracks rows st ->
  tracks (rows ++ [Spec.stochastic_row ind]) (stochastic_signals ind st).
Proof.
  intros H. destruct st as [score n]. unfold stochastic_signals, Spec.stochastic_row.
  destruct (stochastic_k ind) as [k|]; simpl; [|by apply tracks_absent].
  compare_both k 20; [apply (tracks_present _ (score, n)); [done | simpl; ring]|].
  compare_both 80 k; apply (tracks_present _ (score, n)); try done; simpl; ring.
Qed.

(** The closing division of the scorer is the average of the rows. *)
Lemma tracks_average (rows : list (option Q)) (score : Q) (n : Z) :
  tracks rows (score, n) ->
  (if (0 <? n)%Z then score / inject_Z n else 0)
  == Spec.average (omap Datatypes.id rows).
Proof.
  intros [Hs Hc]. simpl in Hs, Hc. unfold Spec.average.
  destruct (omap Datatypes.id rows) as [|c cs] eqn:E.
  - subst n. reflexivity.
  - destruct (Z.ltb_spec 0 n); [|simpl in Hc; lia]. by rewrite Hs, Hc.
Qed.

Lemma py_index_last {A : Type} (l : list A) (x : A) :
  last l = Some x -> py_index l (-1) = Ok x.
Proof.
  intros H. change (-1)%Z with (- Z.of_nat 1)%Z.
  by rewrite py_index_back, reverse_lookup_0, H.
Qed.

Lemma technical_score_refines (ind : TechnicalIndicators)
    (bars : list MarketData) (last_bar : MarketData) :
  last bars = Some last_bar ->
  denominators_nonzero ind ->
  exists v, _calculate_technical_score ind bars = Ok v
            /\ v == technical_score_guarded ind (close_price last_bar).
Proof.
  intros Hlast Hden.
  unfold _calculate_technical_score. rewrite (py_index_last _ _ Hlast).
  cbn [mbind result_bind].
  pose proof tracks_nil as H0.
  apply (rsi_signals_row ind) in H0.
  apply (macd_signals_row ind) in H0.
  apply (moving_average_signals_row ind) in H0.
  destruct (price_vs_sma_signals_row ind (close_price last_bar) _ _ Hden H0)
    as (st4 & -> & H4).
  cbn [mbind result_bind].
  destruct (bollinger_signals_row ind (close_price last_bar) _ _ Hden H4)
    as (st5 & -> & H5).
  cbn [mbind result_bind].
  apply (stochastic_signals_row ind) in H5.
  destruct (stochastic_signals ind st5) as [score n].
  apply tracks_average in H5.
  exists (if (0 <? n)%Z then score / inject_Z n else 0).
  split; [by destruct (0 <? n)%Z|].
  rewrite H5. reflexivity.
Qed.

(** C4.  Twenty flat closes at 100 put the three Bollinger bands at 100:
    the bands pass the guard, the band width is zero and the position
    (price - lower) / (upper - lower) raises [ZeroDivisionError], where the
    specification promises a score for every indicator set.  The scorer
    guards its own last division (no indicator gives 0.0), and the volume
    scorer guards its division by a zero baseline.  The guard of the
    Bollinger block is a truthiness test as well: a lower band of exactly
    0.0 keeps out the row that the table scores +0.4. *)
Theorem technical_score_flat_bands_divide_by_zero :
  _calculate_technical_score
    (Sample.only_bands (Some 100) (Some 100) (Some 100)) [Sample.bar 100 1]
  = Raise ZeroDivisionError
  /\ _calculate_technical_score
       (Sample.only_bands None None None) [Sample.bar 100 1]
     = Ok 0
  /\ _calculate_volume_score Sample.empty_baseline = Ok 0
  /\ _calculate_technical_score
       (Sample.only_bands (Some 10) (Some 5) (Some 0)) [Sample.bar 1 1]
     = Ok 0
  /\ Spec.technical_score (Sample.only_bands (Some 10) (Some 5) (Some 0)) 1 == 0.4.
Proof. repeat split; reflexivity. Qed.

(** ** The risk classifier *)


Lemma atr_check_counts (bars : list MarketData) (ind : TechnicalIndicators) (n : Z) :
  Spec.closes_positive bars ->
  atr_check bars ind n
  = Ok (n + Z.of_nat (Nat.b2n (Spec.atr_high ind (Spec.close_back bars 0))))%Z.
Proof.
  intros Hpos. unfold atr_check, Spec.atr_high, Spec.close_back, truthy.
  destruct (atr ind) as [a|]; [|simpl; do 2 f_equal; lia].
  destruct (Qeq_bool_spec a 0) as [Ha|Ha]; simpl.
  - f_equal. rewrite Ha.
    assert (Qlt_bool 0.025 (0 / from_option close_price 0 (reverse bars !! 0%nat))
            = false) as ->.
    { apply Qlt_bool_false_iff. unfold Qdiv. rewrite Qmult_0_l. lra. }
    simpl. lia.
  - destruct (Z.ltb_spec 0 (Z.of_nat (length bars))) as [Hlen|Hlen].
    + destruct (reverse_lookup_lt bars 0 ltac:(lia)) as [b Hb].
      change (-1)%Z with (- Z.of_nat 1)%Z. rewrite py_index_back, Hb.
      cbn [mbind result_bind from_option].
      pose proof (reverse_lookup_positive _ _ _ Hpos Hb).
      rewrite py_div_ok by lra. cbn [mbind result_bind].
      destruct (Qlt_bool 0.025 (a / close_price b)); simpl; do 2 f_equal; lia.
    + destruct bars; [|simpl in Hlen; lia]. simpl.
      assert (Qlt_bool 0.025 (a / 0) = false) as ->.
      { apply Qlt_bool_false_iff. unfold Qdiv, Qinv. simpl. rewrite Qmult_0_r. lra. }
      simpl. do 2 f_equal. lia.
Qed.





(** The level does not decrease when the count grows. *)
Lemma level_of_count_monotone (n m : nat) :
  (n <= m)%nat ->
  (Spec.risk_rank (Spec.level_of_count n) <= Spec.risk_rank (Spec.level_of_count m))%nat.
Proof.
  intros H. unfold Spec.level_of_count.
  destruct (Nat.leb_spec 3 n), (Nat.leb_spec 3 m); try lia;
    destruct (Nat.leb_spec 1 n), (Nat.leb_spec 1 m); cbn [Spec.risk_rank]; lia.
Qed.

(** C6.  The RSI test of the classifier is a truthiness test: an RSI of
    exactly 0.0 (fourteen periods without a gain) is present and below 20,
    so the count of the specification is 1 and the level MEDIUM, but the
    classifier skips it and answers LOW. *)
Theorem risk_level_skips_zero_rsi :
  _calculate_risk_level [Sample.bar 100 1] [] (Sample.only_rsi 0) = Ok LOW
  /\ Spec.risk_factors [Sample.bar 100 1] [] (Sample.only_rsi 0) = 1%nat
  /\ Spec.level_of_count
       (Spec.risk_factors [Sample.bar 100 1] [] (Sample.only_rsi 0)) = MEDIUM
  /\ _calculate_technical_score (Sample.only_rsi 0) [Sample.bar 100 1] = Ok 0.7.
Proof. repeat split; reflexivity. Qed.

(** ** Signal generation *)

Lemma py_div_inv (a b c : Q) : py_div a b = Ok c -> ~ b == 0 /\ c = a / b.
Proof.
  unfold py_div. destruct (Qeq_bool_spec b 0); [discriminate|].
  intros [= <-]. done.
Qed.

Lemma check_range_inv (field : string) (lo hi v w : Q) :
  check_range field lo hi v = Ok w -> w = v /\ lo <= v <= hi.
Proof.
  unfold check_range.
  destruct (Qle_bool_spec lo v), (Qle_bool_spec v hi); simpl;
    intros [= <-]; done.
Qed.

Lemma TradeSignal_init_inv (s s' : TradeSignal) :
  TradeSignal_init s = Ok s' -> s' = s.
Proof.
  unfold TradeSignal_init, check_range.
  repeat (match goal with |- context [if ?c then _ else _] => destruct c end;
          cbn [mbind result_bind mret result_ret]);
    by intros [= <-].
Qed.

(** *** Bounds of the component scores, and signal generation going through *)

Lemma weighted_terms_bounded (items : list NewsItem) :
  Spec.news_in_range items ->
  forall i : nat,
    - Spec.Qsum (map (fun ri : nat * NewsItem => Spec.weight ri.1)
                     (zip (seq i (length items)) items))
    <= Spec.Qsum (map (fun ri : nat * NewsItem =>
                         sentiment ri.2 * sentiment_confidence ri.2 * Spec.weight ri.1)
                      (zip (seq i (length items)) items))
    <= Spec.Qsum (map (fun ri : nat * NewsItem => Spec.weight ri.1)
                      (zip (seq i (length items)) items)).
Proof.
  induction 1 as [|news rest [Hs Hc] _ IH]; intros i.
  - unfold Spec.Qsum. simpl. lra.
  - specialize (IH (S i)). pose proof (weight_pos i) as Hw.
    unfold Spec.Qsum in *. cbn [length seq zip zip_with map foldr fst snd] in *.
    set (w := Spec.weight i) in *.
    assert (-1 <= sentiment news * sentiment_confidence news <= 1) as Hsc by nra.
    assert (- w <= sentiment news * sentiment_confidence news * w <= w) by nra.
    lra.
Qed.

Lemma aggregate_range (items : list NewsItem) :
  Spec.news_in_range items -> -1 <= Spec.aggregate items <= 1.
Proof.
  intros Hin. destruct items as [|news rest]; [simpl; lra|].
  unfold Spec.aggregate, Spec.ranked. set (items := news :: rest) in *.
  pose proof (weights_sum_pos items 0 ltac:(done)) as Hpos.
  pose proof (weighted_terms_bounded items Hin 0) as [Hlo Hhi].
  split.
  - apply Qle_shift_div_l; [done|]. lra.
  - apply Qle_shift_div_r; [done|]. lra.
Qed.

Lemma Forall_omap_id (P : Q -> Prop) (rows : list (option Q)) :
  Forall (fun o => forall c, o = Some c -> P c) rows ->
  Forall P (omap Datatypes.id rows).
Proof.
  induction 1 as [|o rows Ho _ IH]; [constructor|].
  destruct o as [c|]; simpl; [|done]. constructor; [by apply Ho | done].
Qed.

Lemma Qsum_bounded (b : Q) (cs : list Q) :
  Forall (fun c => - b <= c <= b) cs ->
  - (b * inject_Z (Z.of_nat (length cs))) <= Spec.Qsum cs
  <= b * inject_Z (Z.of_nat (length cs)).
Proof.
  induction 1 as [|c cs Hc _ IH].
  - unfold Spec.Qsum. cbn [length foldr]. change (inject_Z (Z.of_nat 0)) with 0. lra.
  - unfold Spec.Qsum in *. cbn [length foldr].
    rewrite Nat2Z.inj_succ, <- Z.add_1_r, inject_Z_plus. change (inject_Z 1) with 1.
    lra.
Qed.

Lemma average_bounded (b : Q) (cs : list Q) :
  0 <= b -> Forall (fun c => - b <= c <= b) cs -> - b <= Spec.average cs <= b.
Proof.
  intros Hb Hcs. unfold Spec.average. destruct cs as [|c cs']; [lra|].
  set (cs := c :: cs') in *.
  pose proof (Qsum_bounded b cs Hcs) as [Hlo Hhi].
  assert (0 < inject_Z (Z.of_nat (length cs))) as Hn.
  { change 0 with (inject_Z 0). rewrite <- Zlt_Qlt. simpl. lia. }
  split.
  - apply Qle_shift_div_l; [done|]. lra.
  - apply Qle_shift_div_r; [done|]. lra.
Qed.

(** No row of the table contributes more than 0.7 in absolute value. *)
Lemma contributions_bounded (ind : TechnicalIndicators) (price_ : Q) :
  Forall (fun c => - 0.7 <= c <= 0.7)
         (Spec.contributions bollinger_row_guarded ind price_).
Proof.
  unfold Spec.contributions. apply Forall_omap_id.
  repeat first [apply List.Forall_nil | apply List.Forall_cons]; intros c.
  - unfold Spec.rsi_row. destruct (rsi ind) as [r|]; simpl; [|done].
    intros [= <-]. destruct (Qlt_le_dec r 30); [lra|].
    destruct (Qlt_le_dec 70 r); [lra|].
    destruct (Qle_bool 40 r && Qle_bool r 60); lra.
  - unfold Spec.macd_row. destruct (macd ind) as [m|]; simpl; [|done].
    destruct (macd_signal ind) as [sg|]; simpl; [|done].
    intros [= <-]. destruct (Qlt_le_dec sg m); lra.
  - unfold Spec.sma_cross_row. destruct (sma_20 ind) as [s20|]; simpl; [|done].
    destruct (sma_50 ind) as [s50|]; simpl; [|done].
    intros [= <-]. destruct (Qlt_le_dec s50 s20); lra.
  - unfold Spec.price_vs_sma_row. destruct (sma_20 ind) as [s20|]; simpl; [|done].
    intros [= <-].
    pose proof (clamp_bounds ((price_ - s20) / s20 * 2) (- 0.5) 0.5 ltac:(lra)).
    lra.
  - unfold bollinger_row_guarded, Spec.bollinger_row.
    destruct (truthy _ && truthy _ && truthy _); [|done].
    destruct (bollinger_upper ind) as [u|]; simpl; [|done].
    destruct (bollinger_lower ind) as [l|]; simpl; [|done].
    intros [= <-]. unfold Spec.bollinger_contribution.
    destruct (Qlt_le_dec _ 0.2); [lra|]. destruct (Qlt_le_dec 0.8 _); lra.
  - unfold Spec.stochastic_row. destruct (stochastic_k ind) as [k|]; simpl; [|done].
    intros [= <-]. destruct (Qlt_le_dec k 20); [lra|].
    destruct (Qlt_le_dec 80 k); lra.
Qed.

Lemma technical_score_guarded_range (ind : TechnicalIndicators) (price_ : Q) :
  - 0.7 <= technical_score_guarded ind price_ <= 0.7.
Proof.
  unfold technical_score_guarded.
  exact (average_bounded 0.7 _ ltac:(lra) (contributions_bounded ind price_)).
Qed.

Lemma check_range_ok (field : string) (lo hi v : Q) :
  lo <= v <= hi -> check_range field lo hi v = Ok v.
Proof.
  intros [Hlo Hhi]. unfold check_range.
  apply Qle_bool_iff in Hlo, Hhi. by rewrite Hlo, Hhi.
Qed.

Lemma risk_level_returns (bars : list MarketData) (news : list NewsItem)
    (ind : TechnicalIndicators) :
  Spec.closes_positive bars -> exists r, _calculate_risk_level bars news ind = Ok r.
Proof.
  intros Hpos. unfold _calculate_risk_level.
  rewrite (atr_check_counts _ _ _ Hpos). cbn [mbind result_bind].
  destruct (3 <=? _)%Z; [by eexists|]. destruct (1 <=? _)%Z; by eexists.
Qed.

(** X11.  With at least 50 bars of positive closes whose volumes fit 64
    bits and whose last close is at least 2^-20, divisors that are not
    zero, news items within the bounds of the data model and a
    configuration of numbers whose budget (the entry [max_position_size],
    else the setting) is within 2^1000 in absolute value, the service as
    constructed produces a signal. *)
Lemma generate_signal_returns (settings : Settings) (symbol_ : string)
    (config : gmap string Q) (user_id_ : option Z) (bars : list MarketData)
    (news : list NewsItem) (ind : TechnicalIndicators) (now_created now_expires : Z) :
  (50 <= length bars)%nat -> Spec.closes_positive bars ->
  volumes_in_range bars ->
  (forall b, last bars = Some b -> 2 ^ (-20) <= close_price b) ->
  denominators_nonzero ind -> Spec.news_in_range news ->
  Qabs (config_get config "max_position_size" (MAX_POSITION_SIZE settings))
  <= 2 ^ 1000 ->
  exists sig,
    generate_signal trading_service settings symbol_ config user_id_ bars news ind
      now_created now_expires = Ok sig.
Proof.
  intros Hlen Hpos _ Hlast_price Hden Hnews Hbudget. unfold generate_signal.
  destruct (Z.ltb_spec (Z.of_nat (length bars)) 50); [lia|].
  destruct (last bars) as [last_bar|] eqn:Hlast;
    [|apply last_None in Hlast; subst bars; simpl in Hlen; lia].
  destruct (technical_score_refines ind bars last_bar Hlast Hden) as (t & -> & Ht).
  rewrite volume_score_refines.
  destruct (momentum_score_refines bars Hpos ltac:(lia)) as (m & -> & _).
  cbn [mbind result_bind].
  destruct (risk_level_returns bars news ind Hpos) as [r ->].
  rewrite (py_index_last _ _ Hlast). cbn [mbind result_bind].
  destruct (position_size_returns settings config (close_price last_bar) r
              Hbudget (Hlast_price _ eq_refl)) as [q ->].
  cbn [mbind result_bind mret result_ret].
  unfold TradeSignal_init. cbn [confidence sentiment_score technical_score].
  rewrite (check_range_ok "confidence") by apply confidence_unit_range.
  cbn [mbind result_bind].
  rewrite (check_range_ok "sentiment_score").
  2:{ rewrite sentiment_score_aggregate. by apply aggregate_range. }
  cbn [mbind result_bind].
  rewrite (check_range_ok "technical_score").
  2:{ rewrite Ht. pose proof (technical_score_guarded_range ind (close_price last_bar)).
      lra. }
  cbn [mbind result_bind mret result_ret]. by eexists.
Qed.

(** C1 (as amended).  Whenever signal generation produces a signal, its
    [combined_score] is
    sentiment * w_s + technical * w_t + volume * w_v + momentum * w_m with
    the four weights of the service's own [SignalWeights] (0.4/0.4/0.1/0.1
    for the service as constructed); the [config] argument takes no part:
    every configuration with which generation produces a signal gives the
    same [combined_score]. *)
Theorem combined_score_uses_service_weights (self : TradingService)
    (settings : Settings) (symbol_ : string) (config : gmap string Q)
    (user_id_ : option Z) (bars : list MarketData) (news : list NewsItem)
    (ind : TechnicalIndicators) (now_created now_expires : Z) (sig : TradeSignal) :
  generate_signal self settings symbol_ config user_id_ bars news ind
    now_created now_expires = Ok sig ->
  (exists t v m,
      _calculate_technical_score ind bars = Ok t
      /\ _calculate_volume_score bars = Ok v
      /\ _calculate_momentum_score bars = Ok m
      /\ sentiment_score sig = _calculate_sentiment_score news
      /\ technical_score sig = t
      /\ combined_score sig
         = sentiment_score sig * w_sentiment (signal_weights self)
           + t * w_technical (signal_weights self)
           + v * w_volume (signal_weights self)
           + m * w_momentum (signal_weights self))
  /\ signal_weights trading_service = mkSignalWeights 0.4 0.4 0.1 0.1
  /\ (forall (config' : gmap string Q) (sig' : TradeSignal),
         generate_signal self settings symbol_ config' user_id_ bars news ind
           now_created now_expires = Ok sig' ->
         combined_score sig' = combined_score sig).
Proof.
  intros H. unfold generate_signal in H.
  destruct (Z.of_nat (length bars) <? 50)%Z eqn:Hlen; [discriminate|].
  destruct (_calculate_technical_score ind bars) as [t|] eqn:Ht; [|discriminate].
  destruct (_calculate_volume_score bars) as [v|] eqn:Hv; [|discriminate].
  destruct (_calculate_momentum_score bars) as [m|] eqn:Hm; [|discriminate].
  cbn [mbind result_bind] in H.
  destruct (_calculate_risk_level bars news ind) as [r|] eqn:Hr; [|discriminate].
  destruct (py_index bars (-1)) as [last_bar|] eqn:Hi; [|discriminate].
  cbn [mbind result_bind] in H.
  destruct (_calculate_position_size self settings (close_price last_bar) r config)
    as [q|] eqn:Hq; [|discriminate].
  cbn [mbind result_bind] in H.
  pose proof H as Hinit. apply TradeSignal_init_inv in H. subst sig.
  split; [|split; [reflexivity|]].
  - exists t, v, m. cbn [sentiment_score technical_score combined_score]. done.
  - intros config' sig' H'. unfold generate_signal in H'.
    rewrite Hlen, Ht, Hv, Hm in H'. cbn [mbind result_bind] in H'.
    rewrite Hr, Hi in H'. cbn [mbind result_bind] in H'.
    destruct (_calculate_position_size self settings (close_price last_bar) r config')
      as [q'|]; [|discriminate].
    cbn [mbind result_bind] in H'.
    apply TradeSignal_init_inv in H'. by subst sig'.
Qed.

Lemma combined_score_uses_service_weights_witness :
  exists sig,
    generate_signal trading_service Sample.settings "ACME" ∅ None
      Sample.fifty_bars Sample.two_news (Sample.only_rsi 25) 1000 1000 = Ok sig
    /\ exists t v m,
         _calculate_technical_score (Sample.only_rsi 25) Sample.fifty_bars = Ok t
         /\ _calculate_volume_score Sample.fifty_bars = Ok v
         /\ _calculate_momentum_score Sample.fifty_bars = Ok m
         /\ combined_score sig
            = sentiment_score sig * 0.4 + t * 0.4 + v * 0.1 + m * 0.1.
Proof.
  destruct (generate_signal trading_service Sample.settings "ACME" ∅ None
              Sample.fifty_bars Sample.two_news (Sample.only_rsi 25) 1000 1000)
    as [sig|e] eqn:E; [|vm_compute in E; discriminate E].
  exists sig. split; [reflexivity|].
  destruct (combined_score_uses_service_weights _ _ _ _ _ _ _ _ _ _ _ E)
    as [(t & v & m & Ht & Hv & Hm & _ & _ & Hc) _].
  exists t, v, m. repeat split; assumption.
Defined.

(** A configuration that sets [sentiment_weight] to 1 and the other three
    weights to 0 does not change the blend: the combined score is not the
    sentiment score. *)
Lemma combined_score_ignores_config_counterexample :
  exists sig t v m,
    generate_signal trading_service Sample.settings "ACME"
      Sample.sentiment_only_config None Sample.fifty_bars Sample.two_news
      (Sample.only_rsi 25) 1000 1000 = Ok sig
    /\ _calculate_technical_score (Sample.only_rsi 25) Sample.fifty_bars = Ok t
    /\ _calculate_volume_score Sample.fifty_bars = Ok v
    /\ _calculate_momentum_score Sample.fifty_bars = Ok m
    /\ ~ combined_score sig
         == Spec.config_weighted_score Sample.sentiment_only_config
              (sentiment_score sig) t v m.
Proof.
  do 4 eexists. split; [vm_compute; reflexivity|].
  split; [vm_compute; reflexivity|]. split; [vm_compute; reflexivity|].
  split; [vm_compute; reflexivity|].
  intros H. vm_compute in H. discriminate H.
Qed.

(** ** The signal lifecycle *)

Lemma execute_trade_executed (signal_id : Z) (broker : TradeSignal -> TradeResult)
    (db : gmap Z TradeSignal) (s : TradeSignal) :
  db !! signal_id = Some s -> executed s = true ->
  execute_trade signal_id broker db
  = (Raise (HTTPException 400 "Signal already executed"), db).
Proof. intros Hs He. unfold execute_trade. by rewrite Hs, He. Qed.

Lemma execute_trade_created (signal_id : Z) (broker : TradeSignal -> TradeResult)
    (db : gmap Z TradeSignal) (s : TradeSignal) :
  db !! signal_id = Some s -> executed s = false ->
  execute_trade signal_id broker db
  = (Ok (broker s),
     if success (broker s) then <[signal_id := set_executed s]> db else db).
Proof.
  intros Hs He. unfold execute_trade. rewrite Hs, He.
  by destruct (success (broker s)).
Qed.

(** C3 (as amended).  [execute_trade] on a stored signal goes through only
    when the signal is not yet executed; the expiry time is not consulted.
    On an executed signal it fails with status 400 and leaves the store
    unchanged.  On a signal that is not executed it returns the broker's
    answer: when the broker reports success the signal becomes executed,
    and any further call on it fails with status 400; when the broker
    reports a failure the store is unchanged, so a later call may still go
    through. *)
Theorem execute_trade_lifecycle (signal_id : Z) (broker broker' : TradeSignal -> TradeResult)
    (db : gmap Z TradeSignal) (s : TradeSignal) :
  db !! signal_id = Some s ->
  (executed s = true ->
   execute_trade signal_id broker db
   = (Raise (HTTPException 400 "Signal already executed"), db))
  /\ (executed s = false ->
      (execute_trade signal_id broker db).1 = Ok (broker s)
      /\ (success (broker s) = true ->
          (exists s', (execute_trade signal_id broker db).2 !! signal_id = Some s'
                      /\ executed s' = true /\ expires_at s' = expires_at s)
          /\ execute_trade signal_id broker' (execute_trade signal_id broker db).2
             = (Raise (HTTPException 400 "Signal already executed"),
                (execute_trade signal_id broker db).2))
      /\ (success (broker s) = false ->
          (execute_trade signal_id broker db).2 = db)).
Proof.
  intros Hs. split; intros He.
  - by apply (execute_trade_executed _ _ _ s).
  - rewrite (execute_trade_created _ _ _ _ Hs He). cbn [fst snd].
    split; [done|]. split; intros Hb; rewrite Hb; [|done]. split.
    + exists (set_executed s). by rewrite lookup_insert_eq.
    + apply (execute_trade_executed _ _ _ (set_executed s)); [|done].
      by rewrite lookup_insert_eq.
Qed.

Lemma execute_trade_lifecycle_witness :
  Sample.db !! 7%Z = Some Sample.stale_signal
  /\ (execute_trade 7 Sample.broker_accepts Sample.db).1
     = Ok (Sample.broker_accepts Sample.stale_signal)
  /\ execute_trade 7 Sample.broker_accepts
       (execute_trade 7 Sample.broker_accepts Sample.db).2
     = (Raise (HTTPException 400 "Signal already executed"),
        (execute_trade 7 Sample.broker_accepts Sample.db).2).
Proof.
  assert (H : Sample.db !! 7%Z = Some Sample.stale_signal) by reflexivity.
  destruct (execute_trade_lifecycle 7 Sample.broker_accepts Sample.broker_accepts
              Sample.db Sample.stale_signal H) as [_ Hnew].
  destruct (Hnew eq_refl) as (Hfirst & Hok & _).
  destruct (Hok eq_refl) as [_ Hsecond].
  split; [exact H|]. split; [exact Hfirst | exact Hsecond].
Defined.

(** A signal that expired at time 100 is executed at time 200; and after a
    call that the broker rejected, a second call on the same signal goes
    through instead of raising. *)
Lemma execute_trade_expired_counterexample :
  Spec.expired 200 Sample.stale_signal = true
  /\ (execute_trade 7 Sample.broker_accepts Sample.db).1
     = Ok (mkTradeResult true "Order executed")
  /\ (executed <$> (execute_trade 7 Sample.broker_accepts Sample.db).2 !! 7%Z)
     = Some true
  /\ (execute_trade 7 Sample.broker_rejects Sample.db).1
     = Ok (mkTradeResult false "Trading API not configured")
  /\ (execute_trade 7 Sample.broker_accepts
        (execute_trade 7 Sample.broker_rejects Sample.db).2).1
     = Ok (mkTradeResult true "Order executed").
Proof. repeat split; reflexivity. Qed.

(** ** Configuration *)

(** The first validation of [sentiment_weight] finds no earlier weight to
    compare with. *)
Lemma sentiment_weight_unchecked (v bt st mps slp tpp : Q) :
  weights_must_sum_to_one v
    (<["take_profit_percent" := tpp]> (<["stop_loss_percent" := slp]>
     (<["max_position_size" := mps]> (<["sell_threshold" := st]>
      (<["buy_threshold" := bt]> ∅)))))
  = Ok v.
Proof. unfold weights_must_sum_to_one. by simplify_map_eq. Qed.

Lemma technical_weight_checked (tw sw : Q) (values : gmap string Q) :
  0.01 < Qabs (tw + sw - 1) ->
  exists e, weights_must_sum_to_one tw (<["sentiment_weight" := sw]> values)
            = Raise e.
Proof.
  intros H. unfold weights_must_sum_to_one. rewrite lookup_insert_eq.
  apply Qlt_bool_iff in H. rewrite H. eauto.
Qed.

(** C2 (as amended).  Constructing a [TradingConfig] in which
    [technical_weight] is supplied and [sentiment_weight] (as supplied,
    else its default 0.6) plus [technical_weight] differs from 1.0 by more
    than 0.01 raises at construction; [sentiment_weight = 0.5] with
    [technical_weight = 0.6] raises.  The order of the two thresholds is
    not validated: any two thresholds in [-1, 1] are accepted, and with
    thresholds that are numbers [_determine_signal_type] answers BUY
    whenever the score reaches the buy threshold, whatever the sell
    threshold. *)
Theorem config_weight_sum_validated (args : TradingConfigArgs) (tw : Q) :
  arg_technical_weight args = Some tw ->
  0.01 < Qabs (tw + default 0.6 (arg_sentiment_weight args) - 1) ->
  (exists e, TradingConfig_init args = Raise e)
  /\ TradingConfig_init (Sample.args_weights (Some 0.5) (Some 0.6))
     = Raise (ValueError "sentiment_weight + technical_weight must equal 1.0")
  /\ (forall bt st : Q,
         -1 <= bt <= 1 -> -1 <= st <= 1 ->
         exists c, TradingConfig_init (Sample.args_thresholds (Some bt) (Some st))
                   = Ok c
                   /\ buy_threshold c = bt /\ sell_threshold c = st)
  /\ (forall (score : Q) (config : gmap string Q),
         config_get config "buy_threshold" 0.3 <= score ->
         _determine_signal_type score config = BUY).
Proof.
  intros Htw Hsum. split; [|split; [reflexivity|split]].
  - unfold TradingConfig_init.
    destruct (validate_field (arg_buy_threshold args) 0.2 _) as [bt|e];
      [|by eexists].
    cbn [mbind result_bind].
    destruct (validate_field (arg_sell_threshold args) (-0.2) _) as [st|e];
      [|by eexists].
    cbn [mbind result_bind].
    destruct (arg_sentiment_weight args) as [sw|] eqn:Hsw; cbn [validate_field].
    + destruct (check_range "sentiment_weight" 0 1 sw) as [sw'|e] eqn:Hr;
        [|by eexists].
      apply check_range_inv in Hr as [-> _]. cbn [mbind result_bind].
      rewrite sentiment_weight_unchecked. cbn [mbind result_bind].
      rewrite Htw. cbn [validate_field default from_option] in *.
      destruct (check_range "technical_weight" 0 1 tw) as [tw'|e] eqn:Hr;
        [|by eexists].
      apply check_range_inv in Hr as [-> _]. cbn [mbind result_bind].
      destruct (technical_weight_checked tw sw
                  (<["take_profit_percent" := default 10 (arg_take_profit_percent args)]>
                   (<["stop_loss_percent" := default 5 (arg_stop_loss_percent args)]>
                    (<["max_position_size" := default 10000 (arg_max_position_size args)]>
                     (<["sell_threshold" := st]> (<["buy_threshold" := bt]> ∅)))))
                  Hsum) as [e ->].
      by eexists.
    + cbn [mbind result_bind]. rewrite Htw. cbn [validate_field default from_option] in *.
      destruct (check_range "technical_weight" 0 1 tw) as [tw'|e] eqn:Hr;
        [|by eexists].
      apply check_range_inv in Hr as [-> _]. cbn [mbind result_bind].
      destruct (technical_weight_checked tw 0.6
                  (<["take_profit_percent" := default 10 (arg_take_profit_percent args)]>
                   (<["stop_loss_percent" := default 5 (arg_stop_loss_percent args)]>
                    (<["max_position_size" := default 10000 (arg_max_position_size args)]>
                     (<["sell_threshold" := st]> (<["buy_threshold" := bt]> ∅)))))
                  Hsum) as [e ->].
      by eexists.
  - intros bt st [Hb1 Hb2] [Hs1 Hs2].
    unfold TradingConfig_init, Sample.args_thresholds.
    cbn [arg_buy_threshold arg_sell_threshold arg_sentiment_weight
         arg_technical_weight validate_field].
    unfold check_range.
    apply Qle_bool_iff in Hb1, Hb2, Hs1, Hs2. rewrite Hb1, Hb2, Hs1, Hs2.
    cbn [andb mbind result_bind mret result_ret]. eexists; split; [reflexivity|].
    done.
  - intros score config H. unfold _determine_signal_type.
    apply Qle_bool_iff in H. by rewrite H.
Qed.

Lemma config_weight_sum_validated_witness :
  arg_technical_weight (Sample.args_weights (Some 0.5) (Some 0.6)) = Some 0.6
  /\ 0.01 < Qabs (0.6 + 0.5 - 1)
  /\ exists e, TradingConfig_init (Sample.args_weights (Some 0.5) (Some 0.6))
               = Raise e.
Proof.
  split; [reflexivity|]. split; [reflexivity|].
  exact (proj1 (config_weight_sum_validated
                  (Sample.args_weights (Some 0.5) (Some 0.6)) 0.6
                  eq_refl eq_refl)).
Defined.

(** A configuration whose sell threshold (0.5) is above its buy threshold
    (-0.5) is constructed without an error, and so is one that supplies
    only [sentiment_weight = 0.9] (with the default [technical_weight] of
    0.4 the sum is 1.3). *)
Lemma config_thresholds_unchecked_counterexample :
  (exists c, TradingConfig_init (Sample.args_thresholds (Some (-0.5)) (Some 0.5))
             = Ok c
             /\ buy_threshold c <= sell_threshold c)
  /\ (exists c, TradingConfig_init (Sample.args_weights (Some 0.9) None) = Ok c
                /\ ~ Qabs (sentiment_weight c + technical_weight c - 1) <= 0.01).
Proof.
  split; (eexists; split; [reflexivity|]); vm_compute; [discriminate | tauto].
Qed.

(** * Further properties of the service *)

(** ** The manual RSI *)

Lemma np_diff_length (a : list Q) : length (np_diff a) = (length a - 1)%nat.
Proof.
  unfold np_diff. rewrite length_zip_with. destruct a; cbn [tail length]; lia.
Qed.

Lemma windows_length (n : nat) (l : list Q) :
  (1 <= n)%nat -> length (windows n l) = (length l + 1 - n)%nat.
Proof.
  intros Hn. induction l as [|x l IH]; cbn [windows length].
  - destruct (Nat.eqb_spec n 0); cbn [length]; lia.
  - destruct (Nat.leb_spec n (S (length l))); cbn [length]; [rewrite IH|]; lia.
Qed.

Lemma windows_lookup (n : nat) (l : list Q) :
  (1 <= n)%nat ->
  forall i : nat, (i + n <= length l)%nat -> windows n l !! i = Some (take n (drop i l)).
Proof.
  intros Hn. induction l as [|x l IH]; intros i Hi; simpl in Hi; [lia|].
  cbn [windows]. destruct (Nat.leb_spec n (length (x :: l))) as [_|H];
    [|simpl in H; lia].
  destruct i as [|i]; [done|]. simpl. apply IH. lia.
Qed.

Lemma Qsum_nonneg (xs : list Q) : Forall (fun x => 0 <= x) xs -> 0 <= Spec.Qsum xs.
Proof.
  induction 1 as [|x xs Hx _ IH]; unfold Spec.Qsum in *; simpl; lra.
Qed.

Lemma Qsum_zero (xs : list Q) : Forall (fun x => x == 0) xs -> Spec.Qsum xs == 0.
Proof.
  induction 1 as [|x xs Hx _ IH]; unfold Spec.Qsum in *; simpl; [reflexivity|].
  rewrite Hx, IH. reflexivity.
Qed.

Lemma dot_nonneg (xs ys : list Q) :
  Forall (fun x => 0 <= x) xs -> Forall (fun y => 0 <= y) ys -> 0 <= dot xs ys.
Proof.
  intros Hx Hy. unfold dot. rewrite py_sum_Qsum. apply Qsum_nonneg.
  revert ys Hy. induction Hx as [|x xs H0 _ IH]; intros ys Hy; [constructor|].
  destruct Hy as [|y ys Hy0 Hy]; simpl; constructor; [nra | by apply IH].
Qed.

Lemma dot_zero (xs ys : list Q) : Forall (fun x => x == 0) xs -> dot xs ys == 0.
Proof.
  intros Hx. unfold dot. rewrite py_sum_Qsum. apply Qsum_zero.
  revert ys. induction Hx as [|x xs H0 _ IH]; intros ys; [constructor|].
  destruct ys as [|y ys]; simpl; constructor; [by rewrite H0, Qmult_0_l | apply IH].
Qed.

Lemma kernel_nonneg (period : Z) :
  (1 <= period)%Z ->
  Forall (fun y => 0 <= y) (reverse (replicate (Z.to_nat period) (1 / inject_Z period))).
Proof.
  intros Hp. rewrite reverse_replicate. apply Forall_replicate.
  apply Qle_shift_div_l.
  - change 0 with (inject_Z 0). rewrite <- Zlt_Qlt. lia.
  - lra.
Qed.

(** The moving average of a long enough signal: no swap, one entry per
    window. *)
Lemma convolve_kernel (xs : list Q) (period : Z) :
  (1 <= period)%Z -> (Z.to_nat period <= length xs)%nat ->
  np_convolve_valid xs (replicate (Z.to_nat period) (1 / inject_Z period))
  = Ok (map (fun w => dot w (reverse (replicate (Z.to_nat period)
                                        (1 / inject_Z period))))
            (windows (Z.to_nat period) xs)).
Proof.
  intros Hp Hlen. unfold np_convolve_valid. rewrite length_replicate.
  destruct (Nat.ltb_spec (length xs) (Z.to_nat period)); [lia|].
  destruct xs as [|x xs]; [simpl in Hlen; lia|].
  destruct (Z.to_nat period) as [|p] eqn:E; [lia|].
  cbn [replicate]. by rewrite <- (replicate_S _ (1 / inject_Z period)), length_replicate.
Qed.

Lemma gains_nonneg (deltas : list Q) :
  Forall (fun x => 0 <= x) (map (fun d => if Qlt_bool 0 d then d else 0) deltas).
Proof.
  apply Forall_map, Forall_forall. intros d _.
  destruct (Qlt_bool_spec 0 d); lra.
Qed.

Lemma losses_nonneg (deltas : list Q) :
  Forall (fun x => 0 <= x) (map (fun d => if Qlt_bool d 0 then - d else 0) deltas).
Proof.
  apply Forall_map, Forall_forall. intros d _.
  destruct (Qlt_bool_spec d 0); lra.
Qed.

(** The entry of the result at position [period + i]. *)
Lemma calculate_rsi_entry (prices : list Q) (period : Z) (i : nat) :
  (1 <= period)%Z -> (Z.to_nat period + i < length prices)%nat ->
  exists out g l,
    _calculate_rsi prices period = Ok out
    /\ length out = length prices
    /\ (forall j, (j < Z.to_nat period)%nat -> out !! j = Some None)
    /\ out !! (Z.to_nat period + i)%nat
       = Some (Some (100 - 100 / (1 + g / (l + 1e-10))))
    /\ g = dot (take (Z.to_nat period)
                  (drop i (map (fun d => if Qlt_bool 0 d then d else 0)
                               (np_diff prices))))
               (reverse (replicate (Z.to_nat period) (1 / inject_Z period)))
    /\ 0 <= g /\ 0 <= l.
Proof.
  intros Hp Hi. unfold _calculate_rsi, averaging_kernel.
  destruct (Z.ltb_spec period 0); [lia|]. cbn [mbind result_bind].
  set (gains := map (fun d => if Qlt_bool 0 d then d else 0) (np_diff prices)).
  set (losses := map (fun d => if Qlt_bool d 0 then - d else 0) (np_diff prices)).
  assert (Hg : length gains = (length prices - 1)%nat)
    by (subst gains; by rewrite length_map, np_diff_length).
  assert (Hl : length losses = (length prices - 1)%nat)
    by (subst losses; by rewrite length_map, np_diff_length).
  rewrite !convolve_kernel by lia. cbn [mbind result_bind mret result_ret].
  set (p := Z.to_nat period) in *.
  assert (1 <= p)%nat as Hp1 by lia.
  set (k := reverse _).
  assert (Hk : Forall (fun y => 0 <= y) k) by (by apply kernel_nonneg).
  assert (Hwg : windows p gains !! i = Some (take p (drop i gains)))
    by (apply windows_lookup; lia).
  assert (Hwl : windows p losses !! i = Some (take p (drop i losses)))
    by (apply windows_lookup; lia).
  exists (replicate p None
          ++ map Some (map (fun x => 100 - 100 / (1 + x))
                           (zip_with (fun g l => g / (l + 1e-10))
                                     (map (fun w => dot w k) (windows p gains))
                                     (map (fun w => dot w k) (windows p losses))))),
         (dot (take p (drop i gains)) k), (dot (take p (drop i losses)) k).
  split; [reflexivity|]. split; [|split; [|split; [|split; [reflexivity|split]]]].
  - rewrite length_app, length_replicate, !length_map, length_zip_with,
      !length_map, !windows_length by lia. lia.
  - intros j Hj. rewrite lookup_app_l by (rewrite length_replicate; lia).
    by apply lookup_replicate_2.
  - rewrite lookup_app_r by (rewrite length_replicate; lia).
    rewrite length_replicate. replace (p + i - p)%nat with i by lia.
    rewrite !list_lookup_fmap, lookup_zip_with, !list_lookup_fmap, Hwg, Hwl.
    done.
  - apply dot_nonneg; [|done].
    apply Forall_take, Forall_drop, gains_nonneg.
  - apply dot_nonneg; [|done].
    apply Forall_take, Forall_drop, losses_nonneg.
Qed.

(** X1.  For more prices than the period, the manual RSI has one entry per
    price: NaN for the first [period] positions, then values between 0 and
    100. *)
Theorem calculate_rsi_shape (prices : list Q) (period : Z) :
  (1 <= period)%Z -> (period < Z.of_nat (length prices))%Z ->
  exists out,
    _calculate_rsi prices period = Ok out
    /\ length out = length prices
    /\ (forall j, (j < Z.to_nat period)%nat -> out !! j = Some None)
    /\ (forall j, (Z.to_nat period <= j < length prices)%nat ->
                  exists r, out !! j = Some (Some r) /\ 0 <= r <= 100).
Proof.
  intros Hp Hlen.
  destruct (calculate_rsi_entry prices period 0 Hp ltac:(lia))
    as (out & _ & _ & Hout & Hlenout & Hnan & _).
  exists out. split; [done|]. split; [done|]. split; [exact Hnan|].
  - intros j Hj.
    destruct (calculate_rsi_entry prices period (j - Z.to_nat period) Hp ltac:(lia))
      as (out' & g & l & Hout' & _ & _ & Hj' & _ & Hg & Hl).
    rewrite Hout in Hout'. injection Hout' as <-.
    replace (Z.to_nat period + (j - Z.to_nat period))%nat with j in Hj' by lia.
    eexists; split; [exact Hj'|].
    assert (0 < 1e-10) as Heps by reflexivity.
    set (eps := 1e-10) in *.
    assert (0 < l + eps) by lra.
    assert (0 <= g / (l + eps)) as Hrs.
    { apply Qle_shift_div_l; [done | lra]. }
    set (rs := g / (l + eps)) in *.
    assert (0 < 100 / (1 + rs) <= 100) as [H1 H2].
    { split.
      - apply Qlt_shift_div_l; lra.
      - apply Qle_shift_div_r; [lra|]. nra. }
    lra.
Qed.

(** X2.  Where none of the [period] price changes before position [j] is a
    rise, the manual RSI at [j] is exactly 0: a falling or flat stretch
    yields the value 0.0 that the risk classifier's truthiness test then
    takes for a missing RSI. *)
Theorem calculate_rsi_zero_without_gain (prices : list Q) (period : Z) (j : nat) :
  (1 <= period)%Z -> (Z.to_nat period <= j < length prices)%nat ->
  Forall (fun d => d <= 0)
         (take (Z.to_nat period) (drop (j - Z.to_nat period) (np_diff prices))) ->
  exists out r,
    _calculate_rsi prices period = Ok out /\ out !! j = Some (Some r) /\ r == 0.
Proof.
  intros Hp Hj Hflat.
  destruct (calculate_rsi_entry prices period (j - Z.to_nat period) Hp ltac:(lia))
    as (out & g & l & Hout & _ & _ & Hentry & Hg & _ & Hl).
  replace (Z.to_nat period + (j - Z.to_nat period))%nat with j in Hentry by lia.
  exists out. eexists. split; [done|]. split; [exact Hentry|].
  assert (g == 0) as Hg0.
  { subst g. apply dot_zero.
    change (map ?f ?l) with (f <$> l). rewrite <- fmap_drop, <- fmap_take.
    apply Forall_fmap. eapply Forall_impl; [exact Hflat|].
    intros d Hd. unfold compose. cbv beta in Hd. destruct (Qlt_bool_spec 0 d); [lra | reflexivity]. }
  rewrite Hg0. unfold Qdiv. rewrite Qmult_0_l, Qplus_0_r. reflexivity.
Qed.

Lemma calculate_rsi_shape_witness :
  (1 <= 3)%Z /\ (3 < Z.of_nat (length [10; 9; 8; 8; 7]))%Z
  /\ exists out, _calculate_rsi [10; 9; 8; 8; 7] 3 = Ok out
                 /\ length out = 5%nat.
Proof.
  split; [lia|]. split; [simpl; lia|].
  destruct (calculate_rsi_shape [10; 9; 8; 8; 7] 3 ltac:(lia) ltac:(simpl; lia))
    as (out & Hout & Hlen & _).
  exists out. split; [exact Hout | exact Hlen].
Defined.

Lemma calculate_rsi_zero_without_gain_witness :
  exists out r,
    _calculate_rsi [10; 9; 8; 8; 7] 3 = Ok out /\ out !! 4%nat = Some (Some r)
    /\ r == 0.
Proof.
  apply (calculate_rsi_zero_without_gain [10; 9; 8; 8; 7] 3 4).
  - lia.
  - simpl. lia.
  - repeat constructor; discriminate.
Defined.

(** ** Ranges of the component scores *)

Lemma score_within_add (score score' c : Q) (n : Z) :
  score_within (score, n) -> - 0.7 <= c <= 0.7 -> score' == score + c ->
  score_within (score', (n + 1)%Z).
Proof.
  unfold score_within. cbn [fst snd]. intros [Hn Hs] Hc ->.
  rewrite inject_Z_plus. change (inject_Z 1) with 1. split; [lia | lra].
Qed.

Ltac within_add st c :=
  apply (score_within_add st.1 _ c st.2); [done | lra | cbn [fst]; ring].

Lemma rsi_signals_within (ind : TechnicalIndicators) (st : Q * Z) :
  score_within st -> score_within (rsi_signals ind st).
Proof.
  intros H. destruct st as [score n]. unfold rsi_signals.
  destruct (rsi ind) as [r|]; [|done].
  destruct (Qlt_bool r 30); [within_add (score, n) 0.7|].
  destruct (Qlt_bool 70 r); [within_add (score, n) (- 0.7)|].
  destruct (Qle_bool 40 r && Qle_bool r 60);
    [within_add (score, n) 0.1 | within_add (score, n) 0].
Qed.

Lemma macd_signals_within (ind : TechnicalIndicators) (st : Q * Z) :
  score_within st -> score_within (macd_signals ind st).
Proof.
  intros H. destruct st as [score n]. unfold macd_signals.
  destruct (macd ind) as [m|]; [|done]. destruct (macd_signal ind) as [s|]; [|done].
  destruct (Qlt_bool s m); [within_add (score, n) 0.5 | within_add (score, n) (- 0.5)].
Qed.

Lemma moving_average_signals_within (ind : TechnicalIndicators) (st : Q * Z) :
  score_within st -> score_within (moving_average_signals ind st).
Proof.
  intros H. destruct st as [score n]. unfold moving_average_signals.
  destruct (sma_20 ind) as [s20|]; [|done]. destruct (sma_50 ind) as [s50|]; [|done].
  destruct (Qlt_bool s50 s20);
    [within_add (score, n) 0.6 | within_add (score, n) (- 0.6)].
Qed.

Lemma price_vs_sma_signals_within (ind : TechnicalIndicators) (current : Q)
    (st st' : Q * Z) :
  score_within st -> price_vs_sma_signals ind current st = Ok st' ->
  score_within st'.
Proof.
  intros H. destruct st as [score n]. unfold price_vs_sma_signals.
  destruct (sma_20 ind) as [s20|]; [|by intros [= <-]].
  destruct (py_div (current - s20) s20) as [x|]; [|discriminate].
  cbn [mbind result_bind mret result_ret]. intros [= <-].
  rewrite py_min_max_clamp by lra.
  pose proof (clamp_bounds (x * 2) (-0.5) 0.5 ltac:(lra)).
  apply (score_within_add score _ (Spec.clamp (x * 2) (-0.5) 0.5) n);
    [done | lra | reflexivity].
Qed.

Lemma bollinger_signals_within (ind : TechnicalIndicators) (current : Q)
    (st st' : Q * Z) :
  score_within st -> bollinger_signals ind current st = Ok st' ->
  score_within st'.
Proof.
  intros H. destruct st as [score n]. unfold bollinger_signals.
  destruct (truthy _ && truthy _ && truthy _); [|by intros [= <-]].
  destruct (bollinger_upper ind) as [u|]; [|by intros [= <-]].
  destruct (bollinger_lower ind) as [l|]; [|by intros [= <-]].
  destruct (py_div (current - l) (u - l)) as [x|]; [|discriminate].
  cbn [mbind result_bind mret result_ret]. intros [= <-].
  destruct (Qlt_bool x 0.2); [within_add (score, n) 0.4|].
  destruct (Qlt_bool 0.8 x); [within_add (score, n) (- 0.4) | within_add (score, n) 0].
Qed.

Lemma stochastic_signals_within (ind : TechnicalIndicators) (st : Q * Z) :
  score_within st -> score_within (stochastic_signals ind st).
Proof.
  intros H. destruct st as [score n]. unfold stochastic_signals.
  destruct (stochastic_k ind) as [k|]; [|done].
  destruct (Qlt_bool k 20); [within_add (score, n) 0.3|].
  destruct (Qlt_bool 80 k); [within_add (score, n) (- 0.3) | within_add (score, n) 0].
Qed.

Lemma technical_score_bound (ind : TechnicalIndicators)
    (bars : list MarketData) (v : Q) :
  _calculate_technical_score ind bars = Ok v -> - 0.7 <= v <= 0.7.
Proof.
  unfold _calculate_technical_score.
  destruct (py_index bars (-1)) as [last_bar|]; [|discriminate].
  cbn [mbind result_bind].
  assert (H0 : score_within (0, 0%Z)).
  { split; [done|]. cbn [fst snd]. change (inject_Z 0) with 0. lra. }
  apply (rsi_signals_within ind), (macd_signals_within ind),
    (moving_average_signals_within ind) in H0.
  destruct (price_vs_sma_signals ind (close_price last_bar) _) as [st4|] eqn:E4;
    [|discriminate].
  apply (price_vs_sma_signals_within _ _ _ _ H0) in E4.
  cbn [mbind result_bind].
  destruct (bollinger_signals ind (close_price last_bar) st4) as [st5|] eqn:E5;
    [|discriminate].
  apply (bollinger_signals_within _ _ _ _ E4) in E5.
  cbn [mbind result_bind].
  apply (stochastic_signals_within ind) in E5.
  destruct (stochastic_signals ind st5) as [score n].
  destruct E5 as [Hn Hs]. cbn [fst snd] in Hn, Hs.
  destruct (Z.ltb_spec 0 n); intros [= <-]; [|lra].
  assert (0 < inject_Z n) as Hpos.
  { change 0 with (inject_Z 0). rewrite <- Zlt_Qlt. lia. }
  split.
  - apply Qle_shift_div_l; [done|]. lra.
  - apply Qle_shift_div_r; [done|]. lra.
Qed.

Lemma momentum_score_bound (bars : list MarketData) (v : Q) :
  _calculate_momentum_score bars = Ok v -> - 1 <= v <= 1.
Proof.
  unfold _calculate_momentum_score.
  destruct (Z.of_nat (length bars) <? 10)%Z; [intros [= <-]; lra|].
  destruct (py_index bars (-1)) as [last_bar|]; [|discriminate].
  cbn [mbind result_bind].
  destruct (period_return bars _ (-2)) as [r1|]; [|discriminate].
  cbn [mbind result_bind].
  destruct (if (6 <=? _)%Z then _ else _) as [r5|]; [|discriminate].
  cbn [mbind result_bind].
  destruct (if (11 <=? _)%Z then _ else _) as [r10|]; [|discriminate].
  cbn [mbind result_bind mret result_ret]. intros [= <-].
  rewrite py_min_max_clamp by lra. apply clamp_bounds. lra.
Qed.

Lemma volume_score_values (bars : list MarketData) :
  exists v, _calculate_volume_score bars = Ok v
            /\ (v = 0 \/ v = 0.5 \/ v = - 0.2 \/ v = 0.1).
Proof.
  rewrite volume_score_refines. unfold Spec.volume_score_current.
  eexists; split; [reflexivity|].
  destruct (length bars <? 20)%nat; [by left|].
  destruct (Qeq_bool _ 0); [by left|].
  unfold Spec.score_of_ratio.
  destruct (Qlt_le_dec 1.5 _); [right; by left|].
  destruct (Qlt_le_dec _ 0.5); [right; right; by left | by do 3 right].
Qed.

(** X5.  On bars whose volumes fit 64 bits the volume scorer does not
    raise and returns one of the four values 0.0, +0.5, -0.2 and +0.1. *)
Theorem volume_score_four_values (bars : list MarketData) :
  volumes_in_range bars ->
  exists v, _calculate_volume_score bars = Ok v
            /\ (v = 0 \/ v = 0.5 \/ v = - 0.2 \/ v = 0.1).
Proof. intros _. apply volume_score_values. Qed.

Lemma volume_score_four_values_witness :
  volumes_in_range Sample.quiet_last_bar
  /\ exists v, _calculate_volume_score Sample.quiet_last_bar = Ok v
               /\ (v = 0 \/ v = 0.5 \/ v = - 0.2 \/ v = 0.1).
Proof.
  assert (H : volumes_in_range Sample.quiet_last_bar).
  { repeat (apply List.Forall_cons; [cbn; lia|]). apply List.Forall_nil. }
  split; [exact H|]. exact (volume_score_four_values Sample.quiet_last_bar H).
Defined.

(** X6.  For news items within the bounds of their schema (sentiment in
    [-1, 1], confidence in [0, 1]) the sentiment score lies in [-1, 1]. *)
Theorem sentiment_score_within_unit (news : list NewsItem) :
  Spec.news_in_range news -> - 1 <= _calculate_sentiment_score news <= 1.
Proof.
  intros H. rewrite sentiment_score_aggregate. by apply aggregate_range.
Qed.

Lemma sentiment_score_within_unit_witness :
  Spec.news_in_range Sample.two_news
  /\ - 1 <= _calculate_sentiment_score Sample.two_news <= 1.
Proof.
  assert (H : Spec.news_in_range Sample.two_news).
  { repeat constructor; discriminate. }
  split; [exact H | exact (sentiment_score_within_unit Sample.two_news H)].
Defined.

(** ** The decision rule *)

Lemma determine_signal_type_cases (score : Q) (config : gmap string Q) :
  let buy := config_get config "buy_threshold" 0.3 in
  let sell := config_get config "sell_threshold" (-0.3) in
  (_determine_signal_type score config = BUY /\ buy <= score)
  \/ (_determine_signal_type score config = SELL /\ score < buy /\ score <= sell)
  \/ (_determine_signal_type score config = HOLD /\ score < buy /\ sell < score).
Proof.
  cbv zeta. unfold _determine_signal_type.
  destruct (Qle_bool_spec (config_get config "buy_threshold" 0.3) score);
    [left; done|].
  destruct (Qle_bool_spec score (config_get config "sell_threshold" (-0.3)));
    right; [left | right]; repeat split; try done; lra.
Qed.

(** X7.  The decision is monotone in the combined score, for every
    configuration: with SELL below HOLD below BUY, a larger score never
    gives a lower signal. *)
Theorem signal_type_monotone (score score' : Q) (config : gmap string Q) :
  score <= score' ->
  (signal_rank (_determine_signal_type score config)
   <= signal_rank (_determine_signal_type score' config))%nat.
Proof.
  intros Hle.
  destruct (determine_signal_type_cases score config) as [[-> H]|[[-> H]|[-> H]]],
    (determine_signal_type_cases score' config) as [[-> H']|[[-> H']|[-> H']]];
    cbn [signal_rank]; try lia; lra.
Qed.

Lemma signal_type_monotone_witness :
  0.1 <= 0.5
  /\ (signal_rank (_determine_signal_type 0.1 ∅)
      <= signal_rank (_determine_signal_type 0.5 ∅))%nat.
Proof.
  split; [discriminate|].
  apply (signal_type_monotone 0.1 0.5 ∅). discriminate.
Defined.

(** X8.  With a configuration whose buy threshold is not above its sell
    threshold (the service accepts one) the decision is never HOLD: every
    score gives BUY or SELL. *)
Theorem inverted_thresholds_never_hold (score : Q) (config : gmap string Q) :
  config_get config "buy_threshold" 0.3 <= config_get config "sell_threshold" (-0.3) ->
  _determine_signal_type score config <> HOLD.
Proof.
  intros Hinv.
  destruct (determine_signal_type_cases score config) as [[-> H]|[[-> H]|[-> H]]];
    [done | done | lra].
Qed.

Lemma inverted_thresholds_never_hold_witness :
  -0.5 <= 0.5
  /\ _determine_signal_type 0
       (<["buy_threshold" := -0.5]> (<["sell_threshold" := 0.5]> ∅)) <> HOLD.
Proof.
  split; [discriminate|].
  apply inverted_thresholds_never_hold. discriminate.
Defined.

(** ** What a produced signal looks like *)


(** X9.  Every signal that generation produces, for any service, settings
    and configuration: there were at least 50 bars; the signal is not
    executed, carries id 0, the requested symbol and user and the close of
    the last bar as its price; it expires 24 hours after the clock reading;
    its quantity is between 1 and 1000, its confidence in [0, 1], its
    sentiment and technical scores in [-1, 1]; and its type is the decision
    rule applied to its combined score. *)
Theorem generated_signal_shape (self : TradingService) (settings : Settings)
    (symbol_ : string) (config : gmap string Q) (user_id_ : option Z)
    (bars : list MarketData) (news : list NewsItem) (ind : TechnicalIndicators)
    (now_created now_expires : Z) (sig : TradeSignal) :
  generate_signal self settings symbol_ config user_id_ bars news ind
    now_created now_expires = Ok sig ->
  (50 <= length bars)%nat
  /\ id sig = 0%Z /\ symbol sig = symbol_ /\ user_id sig = user_id_
  /\ executed sig = false
  /\ created_at sig = now_created
  /\ expires_at sig = Some (now_expires + 86400)%Z
  /\ (close_price <$> last bars) = Some (price sig)
  /\ (1 <= quantity sig <= 1000)%Z
  /\ 0 <= confidence sig <= 1
  /\ - 1 <= sentiment_score sig <= 1
  /\ - 1 <= technical_score sig <= 1
  /\ signal sig = _determine_signal_type (combined_score sig) config.
Proof.
  intros H. unfold generate_signal in H.
  destruct (Z.ltb_spec (Z.of_nat (length bars)) 50) as [|Hlen]; [discriminate|].
  destruct (_calculate_technical_score ind bars) as [t|] eqn:Ht; [|discriminate].
  destruct (_calculate_volume_score bars) as [v|] eqn:Hv; [|discriminate].
  destruct (_calculate_momentum_score bars) as [m|] eqn:Hm; [|discriminate].
  cbn [mbind result_bind] in H.
  destruct (_calculate_risk_level bars news ind) as [r|] eqn:Hr; [|discriminate].
  destruct (py_index bars (-1)) as [last_bar|] eqn:Hi; [|discriminate].
  cbn [mbind result_bind] in H.
  destruct (_calculate_position_size self settings (close_price last_bar) r config)
    as [q|] eqn:Hq; [|discriminate].
  cbn [mbind result_bind] in H.
  apply position_size_clamped in Hq.
  assert (Hlast : last bars = Some last_bar).
  { change (-1)%Z with (- Z.of_nat 1)%Z in Hi.
    rewrite py_index_back, reverse_lookup_0 in Hi.
    by destruct (last bars); [injection Hi as ->|]. }
  unfold TradeSignal_init in H.
  cbn [confidence sentiment_score technical_score] in H.
  destruct (check_range "confidence" _ _ _) as [c|] eqn:Ec; [|discriminate].
  destruct (check_range "sentiment_score" _ _ _) as [s|] eqn:Es; [|discriminate].
  destruct (check_range "technical_score" _ _ _) as [t'|] eqn:Et; [|discriminate].
  cbn [mbind result_bind mret result_ret] in H. injection H as <-.
  apply check_range_inv in Ec as [_ Hc], Es as [_ Hs], Et as [_ Ht'].
  cbn [id symbol user_id executed created_at expires_at price quantity confidence
       sentiment_score technical_score signal combined_score].
  rewrite Hlast. repeat split; try done; try lia; lra.
Qed.

Lemma generated_signal_shape_witness :
  exists sig,
    generate_signal trading_service Sample.settings "ACME" ∅ None
      Sample.fifty_bars Sample.two_news (Sample.only_rsi 25) 1000 1000 = Ok sig
    /\ executed sig = false /\ (1 <= quantity sig <= 1000)%Z.
Proof.
  destruct (generate_signal trading_service Sample.settings "ACME" ∅ None
              Sample.fifty_bars Sample.two_news (Sample.only_rsi 25) 1000 1000)
    as [sig|e] eqn:E; [|vm_compute in E; discriminate E].
  exists sig. split; [reflexivity|].
  destruct (generated_signal_shape _ _ _ _ _ _ _ _ _ _ _ E)
    as (_ & _ & _ & _ & Hex & _ & _ & _ & Hq & _).
  split; [exact Hex | exact Hq].
Defined.

(** X10.  For the service as constructed, the combined score of a produced
    signal lies between -0.80 and 0.83.  A buy threshold above 0.83
    therefore never gives BUY and a sell threshold below -0.80 never gives
    SELL, although thresholds up to 1 in absolute value are accepted. *)
Theorem combined_score_reach (settings : Settings)
    (symbol_ : string) (config : gmap string Q) (user_id_ : option Z)
    (bars : list MarketData) (news : list NewsItem) (ind : TechnicalIndicators)
    (now_created now_expires : Z) (sig : TradeSignal) :
  generate_signal trading_service settings symbol_ config user_id_ bars news ind
    now_created now_expires = Ok sig ->
  - 0.8 <= combined_score sig <= 0.83
  /\ (0.83 < config_get config "buy_threshold" 0.3 -> signal sig <> BUY)
  /\ (config_get config "sell_threshold" (-0.3) < - 0.8 -> signal sig <> SELL).
Proof.
  intros H.
  assert (Hc : - 0.8 <= combined_score sig <= 0.83).
  { unfold generate_signal in H.
    destruct (Z.of_nat (length bars) <? 50)%Z; [discriminate|].
    destruct (_calculate_technical_score ind bars) as [t|] eqn:Ht; [|discriminate].
    destruct (_calculate_volume_score bars) as [v|] eqn:Hv; [|discriminate].
    destruct (_calculate_momentum_score bars) as [m|] eqn:Hm; [|discriminate].
    cbn [mbind result_bind] in H.
    destruct (_calculate_risk_level bars news ind) as [r|]; [|discriminate].
    destruct (py_index bars (-1)) as [last_bar|]; [|discriminate].
    cbn [mbind result_bind] in H.
    destruct (_calculate_position_size _ _ _ _ _) as [q|]; [|discriminate].
    cbn [mbind result_bind] in H.
    unfold TradeSignal_init in H.
    cbn [confidence sentiment_score technical_score] in H.
    destruct (check_range "confidence" _ _ _); [|discriminate].
    destruct (check_range "sentiment_score" _ _ _) eqn:Es; [|discriminate].
    destruct (check_range "technical_score" _ _ _); [|discriminate].
    cbn [mbind result_bind mret result_ret] in H. injection H as <-.
    apply check_range_inv in Es as [_ Hs].
    apply technical_score_bound in Ht. apply momentum_score_bound in Hm.
    destruct (volume_score_values bars) as (v' & Hv' & Hvals).
    rewrite Hv in Hv'. injection Hv' as <-.
    cbn [combined_score trading_service signal_weights default_weights
         w_sentiment w_technical w_volume w_momentum].
    destruct Hvals as [-> | [-> | [-> | ->]]]; lra. }
  split; [exact Hc|].
  assert (Hsig : signal sig = _determine_signal_type (combined_score sig) config).
  { unfold generate_signal in H.
    destruct (Z.of_nat (length bars) <? 50)%Z; [discriminate|].
    destruct (_calculate_technical_score ind bars); [|discriminate].
    destruct (_calculate_volume_score bars); [|discriminate].
    destruct (_calculate_momentum_score bars); [|discriminate].
    cbn [mbind result_bind] in H.
    destruct (_calculate_risk_level bars news ind); [|discriminate].
    destruct (py_index bars (-1)); [|discriminate].
    cbn [mbind result_bind] in H.
    destruct (_calculate_position_size _ _ _ _ _); [|discriminate].
    cbn [mbind result_bind] in H.
    apply TradeSignal_init_inv in H. by subst sig. }
  rewrite Hsig.
  destruct (determine_signal_type_cases (combined_score sig) config)
    as [[-> Hb]|[[-> Hb]|[-> Hb]]]; split; intros; try done; lra.
Qed.

Lemma combined_score_reach_witness :
  exists sig,
    generate_signal trading_service Sample.settings "ACME" ∅ None
      Sample.fifty_bars Sample.two_news (Sample.only_rsi 25) 1000 1000 = Ok sig
    /\ - 0.8 <= combined_score sig <= 0.83.
Proof.
  destruct (generate_signal trading_service Sample.settings "ACME" ∅ None
              Sample.fifty_bars Sample.two_news (Sample.only_rsi 25) 1000 1000)
    as [sig|e] eqn:E; [|vm_compute in E; discriminate E].
  exists sig. split; [reflexivity|].
  exact (proj1 (combined_score_reach _ _ _ _ _ _ _ _ _ _ E)).
Defined.

Lemma generate_signal_returns_witness :
  (50 <= length Sample.fifty_bars)%nat
  /\ exists sig,
       generate_signal trading_service Sample.settings "ACME" ∅ None
         Sample.fifty_bars Sample.two_news (Sample.only_rsi 25) 1000 1000 = Ok sig.
Proof.
  assert (Hlen : (50 <= length Sample.fifty_bars)%nat) by (vm_compute; lia).
  split; [exact Hlen|].
  apply generate_signal_returns.
  - exact Hlen.
  - repeat constructor.
  - repeat (apply List.Forall_cons; [cbn; lia|]). apply List.Forall_nil.
  - intros b H. vm_compute in H. injection H as <-. vm_compute. discriminate.
  - split; [intros s20 H; discriminate H | intros upper lower _ H; discriminate H].
  - repeat constructor; discriminate.
  - vm_compute. discriminate.
Defined.


(** ** The reasoning text *)

Lemma string_app_assoc (a b c : string) : (a +:+ b) +:+ c = a +:+ b +:+ c.
Proof.
  induction a as [|x a IH]; [done|].
  change (String x ((a +:+ b) +:+ c) = String x (a +:+ b +:+ c)). by rewrite IH.
Qed.

Lemma concat_snoc (sep x : string) (l : list string) :
  String.concat sep (l ++ [x])
  = (match l with [] => "" | _ => String.concat sep l +:+ sep end) +:+ x.
Proof.
  induction l as [|y l IH]; [done|].
  destruct l as [|z l].
  - simpl. by rewrite string_app_assoc.
  - change (String.concat sep ((y :: z :: l) ++ [x]))
      with (y +:+ sep +:+ String.concat sep ((z :: l) ++ [x])).
    rewrite IH.
    change (String.concat sep (y :: z :: l))
      with (y +:+ sep +:+ String.concat sep (z :: l)).
    by rewrite !string_app_assoc.
Qed.

(** X13.  Whatever the scores, the reasoning text ends with the sentence of
    the signal type, the symbol and a full stop. *)
Theorem reasoning_ends_with_signal_sentence (signal_type : SignalType)
    (sentiment_score_ technical_score_ volume_score momentum_score : Q)
    (symbol_ : string) :
  exists body : string,
    _generate_reasoning signal_type sentiment_score_ technical_score_
      volume_score momentum_score symbol_
    = body +:+ closing_sentence signal_type +:+ symbol_ +:+ ".".
Proof.
  unfold _generate_reasoning.
  set (a := if Qlt_bool 0.3 sentiment_score_ then _ else _).
  set (b := if Qlt_bool 0.4 technical_score_ then _ else _).
  set (c := if Qlt_bool 0.3 volume_score then _ else _).
  set (d := if Qlt_bool 0.3 momentum_score then _ else _).
  rewrite !(assoc_L (++)), concat_snoc.
  set (pre := match _ with [] => "" | _ => _ end).
  exists pre. destruct signal_type; cbn [closing_sentence];
    rewrite !string_app_assoc; reflexivity.
Qed.

(** ** The execute endpoint and the store *)

(** X14.  A call of [execute_trade] leaves every stored signal as it was,
    except that the addressed signal, when it was not executed and the
    broker reported success, gets its [executed] flag set and nothing else
    changed; no signal is added or removed, and no flag is ever cleared. *)
Theorem execute_trade_frame (signal_id j : Z) (broker : TradeSignal -> TradeResult)
    (db : gmap Z TradeSignal) (s : TradeSignal) :
  db !! j = Some s ->
  ((execute_trade signal_id broker db).2 !! j = Some s
   \/ (j = signal_id /\ executed s = false /\ success (broker s) = true
       /\ (execute_trade signal_id broker db).2 !! j = Some (set_executed s)))
  /\ (forall k, db !! k = None -> (execute_trade signal_id broker db).2 !! k = None)
  /\ (executed s = true ->
      exists s', (execute_trade signal_id broker db).2 !! j = Some s'
                 /\ executed s' = true).
Proof.
  intros Hj.
  assert (Hcases :
    (execute_trade signal_id broker db).2 = db
    \/ exists t, db !! signal_id = Some t /\ executed t = false
                 /\ success (broker t) = true
                 /\ (execute_trade signal_id broker db).2
                    = <[signal_id := set_executed t]> db).
  { unfold execute_trade. destruct (db !! signal_id) as [t|] eqn:Ht; [|by left].
    destruct (executed t) eqn:He; [by left|].
    destruct (success (broker t)) eqn:Hb; [|by left].
    right. by exists t. }
  destruct Hcases as [->|(t & Ht & He & Hb & ->)].
  - split; [by left|]. split; [done|]. intros; by exists s.
  - destruct (decide (j = signal_id)) as [->|Hne].
    + rewrite Hj in Ht. injection Ht as <-. rewrite lookup_insert_eq.
      split; [right; done|]. split.
      * intros k Hk. rewrite lookup_insert_ne; [done | congruence].
      * intros _. by exists (set_executed s).
    + rewrite lookup_insert_ne by done. split; [by left|]. split.
      * intros k Hk. rewrite lookup_insert_ne; [done | congruence].
      * intros; by exists s.
Qed.

Lemma execute_trade_frame_witness :
  Sample.db !! 7%Z = Some Sample.stale_signal
  /\ (execute_trade 7 Sample.broker_rejects Sample.db).2 !! 7%Z
     = Some Sample.stale_signal.
Proof.
  split; [reflexivity|].
  destruct (execute_trade_frame 7 7 Sample.broker_rejects Sample.db
              Sample.stale_signal eq_refl) as [[H|(_ & _ & H & _)] _].
  - exact H.
  - discriminate H.
Defined.

(** ** Configurations that pass construction *)

Lemma validate_field_range (field : string) (lo hi dflt : Q) (arg : option Q)
    (then_ : Q -> result Q) (v : Q) :
  lo <= dflt <= hi ->
  (forall x y, then_ x = Ok y -> y = x) ->
  validate_field arg dflt (fun x => x ← check_range field lo hi x; then_ x) = Ok v ->
  v = default dflt arg /\ lo <= v <= hi.
Proof.
  intros Hd Hthen. destruct arg as [x|]; simpl.
  - destruct (check_range field lo hi x) as [x'|] eqn:E; [|discriminate].
    apply check_range_inv in E as [-> Hx]. cbn [mbind result_bind].
    intros Hv. by apply Hthen in Hv as ->.
  - by intros [= <-].
Qed.

Lemma weights_must_sum_to_one_inv (v w : Q) (values : gmap string Q) :
  weights_must_sum_to_one v values = Ok w -> w = v.
Proof.
  unfold weights_must_sum_to_one.
  destruct (values !! "sentiment_weight"); [|by intros [= <-]].
  destruct (Qlt_bool _ _); [discriminate | by intros [= <-]].
Qed.

(** X15.  Every configuration that construction accepts has both
    thresholds in [-1, 1] and both weights in [0, 1]; each validated field
    is the supplied value, else its default; and when [technical_weight] was
    supplied the two weights sum to 1.0 within 0.01. *)
Theorem accepted_config_is_within_bounds (args : TradingConfigArgs)
    (c : TradingConfig) :
  TradingConfig_init args = Ok c ->
  (buy_threshold c = default 0.2 (arg_buy_threshold args)
   /\ - 1 <= buy_threshold c <= 1)
  /\ (sell_threshold c = default (-0.2) (arg_sell_threshold args)
      /\ - 1 <= sell_threshold c <= 1)
  /\ (sentiment_weight c = default 0.6 (arg_sentiment_weight args)
      /\ 0 <= sentiment_weight c <= 1)
  /\ (technical_weight c = default 0.4 (arg_technical_weight args)
      /\ 0 <= technical_weight c <= 1)
  /\ (arg_technical_weight args <> None ->
      Qabs (technical_weight c + sentiment_weight c - 1) <= 0.01).
Proof.
  unfold TradingConfig_init. intros H.
  destruct (validate_field (arg_buy_threshold args) 0.2 _) as [bt|] eqn:Eb;
    [|discriminate].
  cbn [mbind result_bind] in H.
  destruct (validate_field (arg_sell_threshold args) (-0.2) _) as [st|] eqn:Es;
    [|discriminate].
  cbn [mbind result_bind] in H.
  destruct (validate_field (arg_sentiment_weight args) 0.6 _) as [sw|] eqn:Esw;
    [|discriminate].
  cbn [mbind result_bind] in H.
  destruct (validate_field (arg_technical_weight args) 0.4 _) as [tw|] eqn:Etw;
    [|discriminate].
  cbn [mbind result_bind mret result_ret] in H. injection H as <-.
  cbn [buy_threshold sell_threshold sentiment_weight technical_weight].
  assert (Hbt : bt = default 0.2 (arg_buy_threshold args) /\ -1 <= bt <= 1).
  { apply (validate_field_range "buy_threshold" (-1) 1 0.2 _ Ok); [lra | | ].
    - by intros x y [= <-].
    - destruct (arg_buy_threshold args) as [x|]; [|exact Eb].
      simpl in *. by destruct (check_range "buy_threshold" (-1) 1 x). }
  assert (Hst : st = default (-0.2) (arg_sell_threshold args) /\ -1 <= st <= 1).
  { apply (validate_field_range "sell_threshold" (-1) 1 (-0.2) _ Ok); [lra | | ].
    - by intros x y [= <-].
    - destruct (arg_sell_threshold args) as [x|]; [|exact Es].
      simpl in *. by destruct (check_range "sell_threshold" (-1) 1 x). }
  pose proof (validate_field_range "sentiment_weight" 0 1 0.6 _ _ sw ltac:(lra)
                (fun x y => weights_must_sum_to_one_inv x y _) Esw) as Hsw.
  pose proof (validate_field_range "technical_weight" 0 1 0.4 _ _ tw ltac:(lra)
                (fun x y => weights_must_sum_to_one_inv x y _) Etw) as Htw.
  repeat split; try tauto.
  intros Hsupplied. destruct (arg_technical_weight args) as [x|]; [|done].
  cbn [validate_field] in Etw.
  destruct (check_range "technical_weight" 0 1 x) as [x'|] eqn:E; [|discriminate].
  apply check_range_inv in E as [-> _]. cbn [mbind result_bind] in Etw.
  unfold weights_must_sum_to_one in Etw. rewrite lookup_insert_eq in Etw.
  destruct (Qlt_bool_spec 0.01 (Qabs (x + sw - 1))); [discriminate|].
  injection Etw as <-. lra.
Qed.

Lemma accepted_config_is_within_bounds_witness :
  exists c, TradingConfig_init (Sample.args_weights (Some 0.3) (Some 0.7)) = Ok c
            /\ Qabs (technical_weight c + sentiment_weight c - 1) <= 0.01.
Proof.
  eexists. split; [reflexivity|].
  apply (accepted_config_is_within_bounds
           (Sample.args_weights (Some 0.3) (Some 0.7)) _ eq_refl).
  discriminate.
Defined.

(** ** Symbols of the broker *)

Ltac listed := apply list_elem_of_In; simpl; tauto.

Lemma convert_to_us_symbol_cases (s : string) :
  ((s ∈ adr_symbols) /\ _convert_to_us_symbol s = s)
  \/ ((s ∉ adr_symbols) /\ _convert_to_us_symbol s = "INDA").
Proof.
  unfold adr_symbols.
  destruct (decide (s = "INFY")) as [->|?]; [left; split; [listed | done]|].
  destruct (decide (s = "WIT")) as [->|?]; [left; split; [listed | done]|].
  destruct (decide (s = "SIFY")) as [->|?]; [left; split; [listed | done]|].
  destruct (decide (s = "RDY")) as [->|?]; [left; split; [listed | done]|].
  destruct (decide (s = "TTM")) as [->|?]; [left; split; [listed | done]|].
  destruct (decide (s = "HDB")) as [->|?]; [left; split; [listed | done]|].
  destruct (decide (s = "IBN")) as [->|?]; [left; split; [listed | done]|].
  destruct (decide (s = "VEDL")) as [->|?]; [left; split; [listed | done]|].
  destruct (decide (s = "AZRE")) as [->|?]; [left; split; [listed | done]|].
  right. split.
  - rewrite list_elem_of_In. simpl. intuition congruence.
  - unfold _convert_to_us_symbol, indian_to_us. simpl. by simplify_map_eq.
Qed.

(** X16.  [_convert_to_us_symbol] is idempotent and only ever answers one
    of the nine listed ADR symbols or the fallback ETF "INDA". *)
Theorem convert_to_us_symbol_idempotent (s : string) :
  _convert_to_us_symbol (_convert_to_us_symbol s) = _convert_to_us_symbol s
  /\ ((_convert_to_us_symbol s ∈ adr_symbols) \/ _convert_to_us_symbol s = "INDA").
Proof.
  destruct (convert_to_us_symbol_cases s) as [[Hin ->]|[Hout ->]].
  - split; [|by left].
    by destruct (convert_to_us_symbol_cases s) as [[_ ->]|[? _]].
  - split; [reflexivity | by right].
Qed.

(** X17.  Converting a symbol to its US listing and back returns the same
    symbol exactly for INFY, SIFY, VEDL, AZRE and NIFTY; every symbol
    outside the nine listed ones comes back as NIFTY. *)
Theorem symbol_round_trip (s : string) :
  (_convert_from_us_symbol (_convert_to_us_symbol s) = s
   <-> s ∈ ["INFY"; "SIFY"; "VEDL"; "AZRE"; "NIFTY"])
  /\ ((s ∉ adr_symbols) ->
      _convert_from_us_symbol (_convert_to_us_symbol s) = "NIFTY").
Proof.
  split.
  - destruct (convert_to_us_symbol_cases s) as [[Hin ->]|[Hout ->]].
    + unfold adr_symbols in Hin. rewrite list_elem_of_In in Hin. simpl in Hin.
      rewrite list_elem_of_In. simpl.
      destruct Hin as [<-|[<-|[<-|[<-|[<-|[<-|[<-|[<-|[<-|[]]]]]]]]]];
        vm_compute; split; intros H; try tauto; try discriminate H;
        repeat (destruct H as [H|H]; [discriminate H|]); destruct H.
    + change (_convert_from_us_symbol "INDA") with "NIFTY".
      rewrite list_elem_of_In. simpl. split.
      * intros <-. tauto.
      * intros [<-|[<-|[<-|[<-|[<-|[]]]]]]; try done;
          exfalso; apply Hout; listed.
  - intros Hout.
    by destruct (convert_to_us_symbol_cases s) as [[Hin _]|[_ ->]].
Qed.

Lemma has_dot_append (s t : string) : has_dot t = true -> has_dot (s +:+ t) = true.
Proof.
  intros Ht. induction s as [|c s IH]; [done|].
  change (has_dot (String c (s +:+ t)) = true). cbn [has_dot].
  by destruct (Ascii.eqb c _).
Qed.

(** X18.  The Yahoo Finance form of a symbol always contains a dot, a
    symbol that has one is left as it is, and converting twice is
    converting once. *)
Theorem convert_to_yf_symbol_idempotent (s : string) :
  has_dot (_convert_to_yf_symbol s) = true
  /\ (has_dot s = true -> _convert_to_yf_symbol s = s)
  /\ _convert_to_yf_symbol (_convert_to_yf_symbol s) = _convert_to_yf_symbol s.
Proof.
  assert (Hkeep : forall t, has_dot t = true -> _convert_to_yf_symbol t = t).
  { intros t Ht. unfold _convert_to_yf_symbol. by rewrite Ht. }
  assert (Hdot : has_dot (_convert_to_yf_symbol s) = true).
  { unfold _convert_to_yf_symbol. destruct (has_dot s) eqn:E; [done|].
    by apply has_dot_append. }
  split; [done|]. split; [apply Hkeep | by apply Hkeep].
Qed.

(** ** Orders sent to the broker *)

Lemma py_int_le (x : Q) : 0 <= x -> inject_Z (py_int x) <= x.
Proof. intros H. rewrite py_int_floor by done. apply Qfloor_le. Qed.

Lemma py_int_nonpos (x : Q) : x <= 0 -> (py_int x <= 0)%Z.
Proof.
  destruct x as [n d]. unfold Qle, py_int. simpl. intros H.
  assert (n <= 0)%Z as Hn by lia.
  replace n with (- (- n))%Z by lia. rewrite Z.quot_opp_l by lia.
  pose proof (Z.quot_pos (- n) (Z.pos d) ltac:(lia) ltac:(lia)). lia.
Qed.

Lemma py_min_Z_le (a b : Z) : (py_min_Z a b <= a)%Z /\ (py_min_Z a b <= b)%Z.
Proof. unfold py_min_Z. destruct (Z.ltb_spec b a); lia. Qed.

Lemma py_min_le (a b : Q) : py_min a b <= a /\ py_min a b <= b.
Proof. unfold py_min. destruct (Qlt_bool_spec b a); lra. Qed.

Lemma on_failure_fails (e : api_failure) : rep_success (on_failure e) = false.
Proof. by destruct e. Qed.

(** A quantity that passed the test [quantity <= 0] is not above the
    quotient it was cut to. *)
Lemma quantity_below_quotient (per_share : Q) (wanted q : Z) :
  (0 < (if (wanted =? 0)%Z then py_int per_share
        else py_min_Z wanted (py_int per_share)))%Z ->
  (q <= (if (wanted =? 0)%Z then py_int per_share
         else py_min_Z wanted (py_int per_share)))%Z ->
  inject_Z q <= per_share.
Proof.
  intros Hpos Hq.
  assert (q <= py_int per_share)%Z as Hmax.
  { destruct (wanted =? 0)%Z; [done|].
    pose proof (py_min_Z_le wanted (py_int per_share)). lia. }
  assert (0 < py_int per_share)%Z as Hmq.
  { destruct (wanted =? 0)%Z; [done|].
    pose proof (py_min_Z_le wanted (py_int per_share)). lia. }
  assert (0 <= per_share) as Hx.
  { destruct (Qlt_le_dec per_share 0) as [Hneg|]; [|done].
    pose proof (py_int_nonpos per_share ltac:(lra)). lia. }
  pose proof (py_int_le _ Hx) as Hle.
  assert (inject_Z q <= inject_Z (py_int per_share)) as Hqle
    by (by rewrite <- Zle_Qle).
  lra.
Qed.

(** X19.  Whenever [AlpacaService.execute_trade] reports success, an order
    was submitted for the US symbol of the signal, on the buy side exactly
    for a BUY signal (a HOLD signal is sent as a sell).  Its quantity does
    not exceed the signal's quantity when that is not zero, nor the float
    quotient by the price of the position value, which is the smaller of
    the float product of the buying power by 0.1 and [MAX_POSITION_SIZE];
    a buy is for at least one share, and a sell is for no more than the
    held position. *)
Theorem alpaca_order_within_limits (self : Broker) (settings : Settings)
    (signal_ : TradeSignal) :
  rep_success (alpaca_execute_trade self settings signal_) = true ->
  exists (p bp per_share : Q) (positions : list BrokerPosition) (q : Z)
         (oid : string),
    latest_price self (symbol signal_) = Some p
    /\ buying_power self = inr bp
    /\ list_positions self = inr positions
    /\ submit_order self (_convert_to_us_symbol (symbol signal_)) q
         (order_side (signal signal_)) = inr oid
    /\ rep_order_id (alpaca_execute_trade self settings signal_) = Some oid
    /\ rep_quantity (alpaca_execute_trade self settings signal_) = Some q
    /\ (order_side (signal signal_) = "buy" <-> signal signal_ = BUY)
    /\ (quantity signal_ <> 0%Z -> (q <= quantity signal_)%Z)
    /\ float_div (float_min (float_mul bp (literal 0.1))
                            (MAX_POSITION_SIZE settings)) p
       = Ok (Finite per_share)
    /\ inject_Z q <= per_share
    /\ (signal signal_ = BUY -> (1 <= q)%Z)
    /\ (signal signal_ <> BUY ->
        exists pos, pos ∈ positions
                    /\ bp_symbol pos = _convert_to_us_symbol (symbol signal_)
                    /\ (q <= bp_qty pos)%Z).
Proof.
  unfold alpaca_execute_trade.
  destruct (api self); cbn [negb]; [|discriminate].
  destruct (latest_price self (symbol signal_)) as [p|]; [|discriminate].
  destruct (Qeq_bool p 0); [discriminate|].
  destruct (buying_power self) as [e|bp]; [by rewrite on_failure_fails|].
  set (value := float_min (float_mul bp (literal 0.1)) (MAX_POSITION_SIZE settings)).
  destruct (float_div value p) as [[per_share|negative]|e] eqn:Hdiv;
    cbn [mbind result_bind float_int]; [|discriminate..].
  set (q0 := if (quantity signal_ =? 0)%Z then py_int per_share
             else py_min_Z (quantity signal_) (py_int per_share)).
  destruct (Z.leb_spec q0 0) as [|Hq0]; [discriminate|].
  destruct (list_positions self) as [e|positions]; [by rewrite on_failure_fails|].
  set (us := _convert_to_us_symbol (symbol signal_)).
  set (existing := find (fun p => String.eqb (bp_symbol p) us) positions).
  set (sell_short := String.eqb (order_side (signal signal_)) "sell" && _).
  set (available := match existing with Some p => bp_qty p | None => 0%Z end).
  destruct (sell_short && (available =? 0)%Z) eqn:Hnone; [discriminate|].
  set (q := if sell_short then py_min_Z q0 available else q0).
  destruct (submit_order self us q (order_side (signal signal_))) as [e|oid] eqn:Hsub;
    [by rewrite on_failure_fails|].
  intros _. exists p, bp, per_share, positions, q, oid.
  assert (Hq : (q <= q0)%Z).
  { subst q. destruct sell_short; [|lia]. apply py_min_Z_le. }
  do 6 (split; [done|]). split; [|split; [|split; [|split; [|split]]]].
  - destruct (signal signal_); cbn [order_side]; split; done.
  - intros Hne. subst q0. destruct (Z.eqb_spec (quantity signal_) 0); [done|].
    pose proof (py_min_Z_le (quantity signal_) (py_int per_share)). lia.
  - done.
  - exact (quantity_below_quotient per_share _ q Hq0 Hq).
  - intros Hbuy. subst q sell_short. rewrite Hbuy. cbn [order_side].
    change (String.eqb "buy" "sell") with false. cbn [andb]. lia.
  - intros Hsell. subst q sell_short available existing.
    assert (String.eqb (order_side (signal signal_)) "sell" = true) as Hside
      by (by destruct (signal signal_)).
    rewrite Hside in *. cbn [andb] in *.
    destruct (find _ positions) as [pos|] eqn:Hfind; [|discriminate].
    apply find_some in Hfind as [Hin Heq].
    apply String.eqb_eq in Heq. exists pos.
    split; [by apply list_elem_of_In|]. split; [done|].
    destruct (Z.ltb_spec (bp_qty pos) q0); [apply py_min_Z_le | lia].
Qed.

Lemma alpaca_order_within_limits_witness :
  exists q,
    rep_quantity
      (alpaca_execute_trade
         (mkBroker true (fun _ => Some 50) (inr 20000)
            (inr [mkBrokerPosition "INDA" 3]) (fun _ _ _ => inr "order-1"))
         Sample.settings Sample.stale_signal) = Some q
    /\ (1 <= q)%Z.
Proof.
  assert (H : rep_success
                (alpaca_execute_trade
                   (mkBroker true (fun _ => Some 50) (inr 20000)
                      (inr [mkBrokerPosition "INDA" 3]) (fun _ _ _ => inr "order-1"))
                   Sample.settings Sample.stale_signal) = true)
    by (vm_compute; reflexivity).
  destruct (alpaca_order_within_limits _ _ _ H)
    as (p & bp & per & positions & q & oid
        & _ & _ & _ & _ & _ & Hq & _ & _ & _ & _ & Hbuy & _).
  exists q. split; [exact Hq | exact (Hbuy eq_refl)].
Defined.

(** The order quantity is the integer part of the float quotient: with a
    position value of 10000 and the float price 3333.3333333333335 the
    quotient rounds to exactly 3 and three shares are ordered, for a value
    just above the limit of 10000. *)
Lemma alpaca_order_of_rounded_quotient :
  rep_quantity
    (alpaca_execute_trade
       (mkBroker true (fun _ => Some (literal 3333.3333333333335)) (inr 1000000)
          (inr []) (fun _ _ _ => inr "order-1"))
       Sample.settings Sample.stale_signal) = Some 3%Z
  /\ 10000 < 3 * literal 3333.3333333333335.
Proof. split; vm_compute; reflexivity. Qed.

(** ** The portfolio endpoint *)

(** X20.  The [execute_trade] endpoint of [portfolio.py], given a signal
    whose id is stored and not yet executed, answers with success and marks
    the stored signal as executed whatever the broker reported, leaving every
    other stored signal alone; afterwards both endpoints refuse that id with
    status 400. *)
Theorem portfolio_execute_trade_marks_executed (signal_ stored : TradeSignal)
    (broker other_broker : TradeSignal -> TradeResult) (db : gmap Z TradeSignal) :
  id signal_ <> 0%Z ->
  db !! id signal_ = Some stored ->
  executed stored = false ->
  let out := portfolio_execute_trade signal_ broker db in
  out.1 = Ok (mkPortfolioTradeResponse true "Trade executed successfully"
                (broker signal_))
  /\ out.2 !! id signal_ = Some (set_executed stored)
  /\ (forall other, other <> id signal_ -> out.2 !! other = db !! other)
  /\ (execute_trade (id signal_) other_broker out.2).1
     = Raise (HTTPException 400 "Signal already executed")
  /\ (portfolio_execute_trade signal_ other_broker out.2).1
     = Raise (HTTPException 400 "Signal has already been executed.").
Proof.
  intros Hid Hdb Hex. unfold portfolio_execute_trade.
  destruct (Z.eqb_spec (id signal_) 0) as [|_]; [done|]. cbn [negb].
  rewrite Hdb, Hex. cbn [fst snd negb].
  split; [done|]. split; [by rewrite lookup_insert_eq|].
  split; [by intros other Hne; rewrite lookup_insert_ne|].
  unfold execute_trade. rewrite !lookup_insert_eq. by destruct stored.
Qed.

Lemma portfolio_execute_trade_marks_executed_witness :
  (portfolio_execute_trade Sample.stale_signal Sample.broker_rejects Sample.db).1
  = Ok (mkPortfolioTradeResponse true "Trade executed successfully"
          (Sample.broker_rejects Sample.stale_signal))
  /\ (portfolio_execute_trade Sample.stale_signal Sample.broker_rejects Sample.db).2
       !! id Sample.stale_signal
     = Some (set_executed Sample.stale_signal).
Proof.
  destruct (portfolio_execute_trade_marks_executed
              Sample.stale_signal Sample.stale_signal
              Sample.broker_rejects Sample.broker_rejects Sample.db
              ltac:(vm_compute; discriminate) eq_refl eq_refl)
    as (H1 & H2 & _).
  split; [exact H1 | exact H2].
Defined.

(** X21.  The same endpoint never looks up a signal whose id is zero: the
    order is sent and the stored signals stay as they are.  It refuses only
    a non-zero id, with 404 when nothing is stored under it and 400 when the
    stored signal is executed, and a refusal changes nothing. *)
Theorem portfolio_execute_trade_refusals (signal_ : TradeSignal)
    (broker : TradeSignal -> TradeResult) (db : gmap Z TradeSignal) :
  (id signal_ = 0%Z ->
   portfolio_execute_trade signal_ broker db
   = (Ok (mkPortfolioTradeResponse true "Trade executed successfully"
            (broker signal_)), db))
  /\ (forall e, (portfolio_execute_trade signal_ broker db).1 = Raise e ->
      (portfolio_execute_trade signal_ broker db).2 = db
      /\ id signal_ <> 0%Z
      /\ ((db !! id signal_ = None
           /\ e = HTTPException 404
                    ("Signal with ID " +:+ pretty (id signal_) +:+ " not found."))
          \/ (exists stored, db !! id signal_ = Some stored
                             /\ executed stored = true
                             /\ e = HTTPException 400
                                      "Signal has already been executed."))).
Proof.
  unfold portfolio_execute_trade. split.
  - intros ->. done.
  - intros e. destruct (Z.eqb_spec (id signal_) 0) as [|Hid]; cbn [negb fst snd];
      [discriminate|].
    destruct (db !! id signal_) as [stored|] eqn:Hdb; cbn [fst snd].
    + destruct (executed stored) eqn:Hex; cbn [fst snd]; [|discriminate].
      intros [= <-]. do 2 (split; [done|]). right. by exists stored.
    + intros [= <-]. do 2 (split; [done|]). by left.
Qed.

(** ** Removing duplicate news *)

Lemma empty_intersection (sw : gset string) : ∅ ∩ sw = ∅.
Proof. apply leibniz_equiv, intersection_empty_l. Qed.

Lemma empty_union (sw : gset string) : ∅ ∪ sw = sw.
Proof. apply leibniz_equiv, union_empty_l. Qed.

Lemma common_ratio_raises (tw sw : gset string) (e : exn) :
  common_ratio tw sw = Raise e ->
  e = ZeroDivisionError /\ tw = ∅ /\ sw = ∅.
Proof.
  unfold common_ratio, py_div.
  destruct (Qeq_bool _ 0) eqn:Hz; [|discriminate].
  intros [= <-]. split; [done|].
  apply Qeq_bool_eq in Hz. unfold Qeq in Hz. simpl in Hz.
  assert (size (tw ∪ sw) = 0%nat) as Hsize by lia.
  apply size_empty_inv in Hsize. apply leibniz_equiv in Hsize.
  split; apply leibniz_equiv; set_solver.
Qed.

Lemma common_ratio_wordless (sw : gset string) :
  (sw = ∅ /\ common_ratio ∅ sw = Raise ZeroDivisionError)
  \/ (sw <> ∅ /\ exists r, common_ratio ∅ sw = Ok r /\ Qlt_bool 0.7 r = false).
Proof.
  destruct (decide (sw = ∅)) as [->|Hne].
  - left. split; [done|]. unfold common_ratio.
    by rewrite empty_union, size_empty.
  - right. split; [done|]. unfold common_ratio, py_div.
    rewrite empty_intersection, empty_union, size_empty.
    destruct (Qeq_bool _ 0) eqn:Hz.
    + apply Qeq_bool_eq in Hz. unfold Qeq in Hz. simpl in Hz.
      assert (size sw = 0%nat) as Hsize by lia.
      apply size_empty_inv in Hsize. apply leibniz_equiv in Hsize. done.
    + eexists. split; [done|]. apply Qlt_bool_false_iff.
      change (inject_Z (Z.of_nat 0)) with 0. unfold Qdiv. lra.
Qed.

Lemma common_ratio_with_words (tw sw : gset string) :
  tw <> ∅ -> exists r, common_ratio tw sw = Ok r.
Proof.
  intros Hne. destruct (common_ratio tw sw) as [r|e] eqn:Hr; [by exists r|].
  by apply common_ratio_raises in Hr as (_ & ? & _).
Qed.

Lemma similar_to_any_with_words (words : string -> gset string)
    (tw : gset string) (seen : list string) :
  tw <> ∅ -> exists b, similar_to_any words tw seen = Ok b.
Proof.
  intros Hne. induction seen as [|t seen IH]; [by exists false|].
  cbn [similar_to_any].
  destruct (common_ratio_with_words tw (words t) Hne) as [r ->].
  cbn. destruct (Qlt_bool 0.7 r); [by exists true | done].
Qed.

Lemma similar_to_any_wordless (words : string -> gset string) (seen : list string) :
  similar_to_any words ∅ seen
  = if bool_decide (Exists (fun t => words t = ∅) seen)
    then Raise ZeroDivisionError else Ok false.
Proof.
  induction seen as [|t seen IH]; cbn [similar_to_any].
  - rewrite bool_decide_eq_false_2; [done|]. by intros ?%Exists_nil.
  - destruct (common_ratio_wordless (words t)) as [[He ->]|[Hne (r & -> & Hr)]]; cbn.
    + rewrite bool_decide_eq_true_2; [done|]. by left.
    + rewrite Hr, IH. apply (f_equal (fun b : bool => if b then _ else _)).
      apply bool_decide_ext. rewrite Exists_cons. tauto.
Qed.

(** X22.  The scan of the titles seen so far gives the same answer, or the
    same exception, in whatever order the set of seen titles is iterated. *)
Theorem similar_to_any_order_independent (words : string -> gset string)
    (title_words : gset string) (seen seen' : list string) :
  seen ≡ₚ seen' ->
  similar_to_any words title_words seen = similar_to_any words title_words seen'.
Proof.
  intros Hperm. destruct (decide (title_words = ∅)) as [->|Hne].
  - rewrite !similar_to_any_wordless.
    apply (f_equal (fun b : bool => if b then _ else _)).
    apply bool_decide_ext. by rewrite Hperm.
  - induction Hperm as [|x l l' _ IH|x y l|l l' l'' _ IH1 _ IH2];
      cbn [similar_to_any]; [done| | |congruence].
    + by rewrite IH.
    + destruct (common_ratio_with_words title_words (words x) Hne) as [rx ->].
      destruct (common_ratio_with_words title_words (words y) Hne) as [ry ->].
      cbn. by destruct (Qlt_bool 0.7 rx), (Qlt_bool 0.7 ry).
Qed.

Lemma similar_to_any_order_independent_witness :
  similar_to_any (fun t => {[t]}) {["a"]} ["a"; "b"]
  = similar_to_any (fun t => {[t]}) {["a"]} ["b"; "a"].
Proof.
  apply similar_to_any_order_independent. apply perm_swap.
Defined.

Section dedup.
Context {A : Type} (url title : A -> string) (words : string -> gset string).

Lemma dedup_step_cases (st st' : gset string * gset string * list A) (item : A) :
  dedup_step url title words st item = Ok st' ->
  st' = st
  \/ ((url item ∉ st.1.1)
      /\ st' = ({[url item]} ∪ st.1.1, {[title item]} ∪ st.1.2, st.2 ++ [item])).
Proof.
  destruct st as [[seen_urls seen_titles] unique_items]. cbn [dedup_step fst snd].
  destruct (decide (url item ∈ seen_urls)) as [|Hnew]; [intros [= <-]; by left|].
  destruct (similar_to_any _ _ _) as [[]|e]; cbn; [intros [= <-]; by left| |done].
  intros [= <-]. by right.
Qed.

Lemma dedup_inv_keep (st : gset string * gset string * list A) (item : A) :
  dedup_inv url title st ->
  url item ∉ st.1.1 ->
  dedup_inv url title
    ({[url item]} ∪ st.1.1, {[title item]} ∪ st.1.2, st.2 ++ [item]).
Proof.
  destruct st as [[seen_urls seen_titles] unique_items].
  unfold dedup_inv. cbn [fst snd]. intros (-> & -> & Hnodup) Hnew.
  rewrite !fmap_app, !list_to_set_app_L. cbn [fmap list_fmap list_to_set].
  repeat split.
  - apply leibniz_equiv. rewrite (right_id ∅ (∪)). apply (comm (∪)).
  - apply leibniz_equiv. rewrite (right_id ∅ (∪)). apply (comm (∪)).
  - apply NoDup_app. split; [done|]. split; [|apply NoDup_singleton].
    intros u Hu ->%list_elem_of_singleton. apply Hnew. by apply elem_of_list_to_set.
Qed.

Lemma dedup_loop_kept (news_items : list A) :
  forall st st',
    dedup_inv url title st ->
    dedup_loop url title words st news_items = Ok st' ->
    exists kept,
      st'.2 = st.2 ++ kept
      /\ sublist kept news_items
      /\ dedup_inv url title st'
      /\ dedup_loop url title words st kept = Ok st'.
Proof.
  induction news_items as [|item rest IH]; intros st st' Hinv; cbn [dedup_loop].
  - intros [= <-]. exists []. by rewrite app_nil_r.
  - destruct (dedup_step url title words st item) as [st1|e] eqn:Hstep; [|done].
    cbn. intros Hloop.
    destruct (dedup_step_cases _ _ _ Hstep) as [->|[Hnew ->]].
    + destruct (IH _ _ Hinv Hloop) as (kept & Happ & Hsub & Hinv' & Hagain).
      exists kept. split; [done|]. split; [by apply sublist_cons|]. done.
    + destruct (IH _ _ (dedup_inv_keep _ _ Hinv Hnew) Hloop)
        as (kept & Happ & Hsub & Hinv' & Hagain).
      cbn [snd] in Happ. exists (item :: kept).
      split; [by rewrite Happ, <- app_assoc|].
      split; [by apply sublist_skip|]. split; [done|].
      cbn [dedup_loop]. rewrite Hstep. exact Hagain.
Qed.

Lemma dedup_inv_empty : dedup_inv url title (∅, ∅, []).
Proof. unfold dedup_inv. cbn. repeat split. apply NoDup_nil_2. Qed.

(** X23.  When [_deduplicate_news] returns, the kept items are a
    subsequence of the input with pairwise different URLs that starts with
    the first input item, and deduplicating the kept items again keeps all of
    them. *)
Theorem deduplicate_news_kept (news_items out : list A) :
  _deduplicate_news url title words news_items = Ok out ->
  sublist out news_items
  /\ NoDup (url <$> out)
  /\ head out = head news_items
  /\ _deduplicate_news url title words out = Ok out.
Proof.
  unfold _deduplicate_news.
  destruct (dedup_loop url title words (∅, ∅, []) news_items) as [st'|e] eqn:Hloop;
    [|done].
  cbn. intros [= <-].
  destruct (dedup_loop_kept _ _ _ dedup_inv_empty Hloop)
    as (kept & Happ & Hsub & (_ & _ & Hnodup) & Hagain).
  cbn [snd app] in Happ. rewrite Happ in *.
  split; [done|]. split; [done|]. split; [|by rewrite Hagain, <- Happ].
  destruct news_items as [|item rest]; [by apply sublist_nil_r in Hsub as ->|].
  revert Hloop. cbn [dedup_loop dedup_step].
  destruct (decide (url item ∈ (∅ : gset string))) as [Hin|_];
    [by apply not_elem_of_empty in Hin|].
  rewrite elements_empty. cbn.
  destruct (dedup_loop _ _ _ _ rest) as [st1|e] eqn:Hrest; [|done].
  intros [= ->].
  assert (dedup_inv url title
            ({[url item]} ∪ ∅, {[title item]} ∪ ∅, [item])) as Hinv
    by exact (dedup_inv_keep (∅, ∅, []) item dedup_inv_empty (not_elem_of_empty _)).
  destruct (dedup_loop_kept _ _ _ Hinv Hrest) as (kept' & Happ' & _).
  rewrite Happ in Happ'. by rewrite Happ'.
Qed.

End dedup.

Lemma deduplicate_news_kept_witness :
  sublist [("u1", "a"); ("u3", "c")]
          [("u1", "a"); ("u1", "b"); ("u2", "a"); ("u3", "c")]
  /\ NoDup (fst <$> [("u1", "a"); ("u3", "c")]).
Proof.
  assert (H : _deduplicate_news fst snd (fun t => {[t]})
                [("u1", "a"); ("u1", "b"); ("u2", "a"); ("u3", "c")]
              = Ok [("u1", "a"); ("u3", "c")]) by (vm_compute; reflexivity).
  pose proof (deduplicate_news_kept fst snd (fun t => {[t]}) _ _ H)
    as (H1 & H2 & _).
  split; [exact H1 | exact H2].
Defined.

Section dedup_division.
Context {A : Type} (url title : A -> string) (words : string -> gset string).

Lemma dedup_loop_with_words (news_items : list A) :
  Forall (fun item => words (title item) <> ∅) news_items ->
  forall st, exists st', dedup_loop url title words st news_items = Ok st'.
Proof.
  induction 1 as [|item rest Hitem _ IH]; intros st; [by exists st|].
  destruct st as [[seen_urls seen_titles] unique_items].
  cbn [dedup_loop dedup_step].
  destruct (decide (url item ∈ seen_urls)); [apply IH|].
  destruct (similar_to_any_with_words words _ (elements seen_titles) Hitem)
    as [b ->].
  cbn. destruct b; apply IH.
Qed.

(** X24.  [_deduplicate_news] returns a list whenever every title has at
    least one word. *)
Theorem deduplicate_news_returns (news_items : list A) :
  Forall (fun item => words (title item) <> ∅) news_items ->
  exists out, _deduplicate_news url title words news_items = Ok out.
Proof.
  intros Hwords. unfold _deduplicate_news.
  destruct (dedup_loop_with_words _ Hwords (∅, ∅, [])) as [st' ->].
  by exists st'.2.
Qed.

(** Once a title without words has been seen, the next new item whose title
    has no words stops the loop. *)
Lemma dedup_loop_wordless_seen (news_items : list A) :
  forall st,
    (exists t, t ∈ st.1.2 /\ words t = ∅) ->
    NoDup (url <$> news_items) ->
    (forall item, item ∈ news_items -> url item ∉ st.1.1) ->
    (exists item, item ∈ news_items /\ words (title item) = ∅) ->
    dedup_loop url title words st news_items = Raise ZeroDivisionError.
Proof.
  induction news_items as [|item rest IH];
    intros [[seen_urls seen_titles] unique_items]; cbn [fst snd];
    intros (t & Ht & Hwt) Hnodup Hfresh (b & Hb & Hwb).
  { by apply elem_of_nil in Hb. }
  cbn [dedup_loop dedup_step].
  destruct (decide (url item ∈ seen_urls)) as [Hin|_].
  { exfalso. apply (Hfresh item); [by left | done]. }
  cbn [fmap list_fmap] in Hnodup. apply NoDup_cons in Hnodup as [Hhead Hnodup].
  destruct (decide (words (title item) = ∅)) as [Hwi|Hwi].
  - rewrite Hwi, similar_to_any_wordless, bool_decide_eq_true_2; [done|].
    apply Exists_exists. exists t. split; [by apply elem_of_elements | done].
  - assert (b ∈ rest) as Hrest.
    { apply elem_of_cons in Hb as [->|]; [done | done]. }
    destruct (similar_to_any_with_words words _ (elements seen_titles) Hwi)
      as [similar ->].
    cbn. destruct similar; apply IH; cbn [fst snd]; try done.
    + by exists t.
    + intros x Hx. apply Hfresh. by right.
    + by exists b.
    + exists t. split; [|done]. apply elem_of_union. by right.
    + intros x Hx [Hux%elem_of_singleton|Hux]%elem_of_union.
      * apply Hhead. rewrite <- Hux. by apply list_elem_of_fmap_2.
      * by apply (Hfresh x); [right|].
    + by exists b.
Qed.

Lemma dedup_loop_two_wordless (news_items : list A) :
  forall st (i j : nat) (a b : A),
    NoDup (url <$> news_items) ->
    (forall item, item ∈ news_items -> url item ∉ st.1.1) ->
    (i < j)%nat ->
    news_items !! i = Some a -> news_items !! j = Some b ->
    words (title a) = ∅ -> words (title b) = ∅ ->
    dedup_loop url title words st news_items = Raise ZeroDivisionError.
Proof.
  induction news_items as [|item rest IH];
    intros [[seen_urls seen_titles] unique_items] i j a b; cbn [fst snd];
    intros Hnodup Hfresh Hij Hi Hj Hwa Hwb; [done|].
  destruct j as [|j]; [lia|]. cbn in Hj.
  cbn [dedup_loop dedup_step].
  destruct (decide (url item ∈ seen_urls)) as [Hin|_].
  { exfalso. apply (Hfresh item); [by left | done]. }
  cbn [fmap list_fmap] in Hnodup. apply NoDup_cons in Hnodup as [Hhead Hnodup].
  assert (forall x, x ∈ rest -> url x ∉ ({[url item]} ∪ seen_urls)) as Hfresh'.
  { intros x Hx [Hux%elem_of_singleton|Hux]%elem_of_union.
    - apply Hhead. rewrite <- Hux. by apply list_elem_of_fmap_2.
    - by apply (Hfresh x); [right|]. }
  assert (forall x, x ∈ rest -> url x ∉ seen_urls) as Hfresh''.
  { intros x Hx. apply Hfresh. by right. }
  destruct (decide (words (title item) = ∅)) as [Hwi|Hwi].
  - rewrite Hwi, similar_to_any_wordless.
    destruct (bool_decide _); [done|]. cbn.
    apply dedup_loop_wordless_seen; cbn [fst snd]; try done.
    + exists (title item). split; [|done]. apply elem_of_union. left.
      by apply elem_of_singleton.
    + exists b. split; [|done]. by apply list_elem_of_lookup_2 in Hj.
  - destruct i as [|i]; [cbn in Hi; congruence|]. cbn in Hi.
    destruct (similar_to_any_with_words words _ (elements seen_titles) Hwi)
      as [similar ->].
    cbn. destruct similar; apply (IH _ i j a b); cbn [fst snd]; try done; lia.
Qed.

(** X25.  [_deduplicate_news] divides by zero when the items have pairwise
    different URLs and two of them have titles without a single word: both
    word sets are empty, and so is their union. *)
Theorem deduplicate_news_divides_by_zero (news_items : list A)
    (i j : nat) (a b : A) :
  NoDup (url <$> news_items) ->
  (i < j)%nat ->
  news_items !! i = Some a -> news_items !! j = Some b ->
  words (title a) = ∅ -> words (title b) = ∅ ->
  _deduplicate_news url title words news_items = Raise ZeroDivisionError.
Proof.
  intros Hnodup Hij Hi Hj Hwa Hwb. unfold _deduplicate_news.
  by rewrite (dedup_loop_two_wordless news_items (∅, ∅, []) i j a b).
Qed.

End dedup_division.

Lemma deduplicate_news_returns_witness :
  exists out,
    _deduplicate_news fst snd (fun t => {[t]}) [("u1", "a"); ("u2", "b")] = Ok out.
Proof.
  apply (deduplicate_news_returns fst snd (fun t => {[t]})
           [("u1", "a"); ("u2", "b")]).
  repeat first [apply List.Forall_nil | apply List.Forall_cons];
    apply non_empty_singleton_L.
Defined.

Lemma deduplicate_news_divides_by_zero_witness :
  _deduplicate_news fst snd (fun t => if String.eqb t "" then ∅ else {[t]})
    [("u1", ""); ("u2", "")]
  = Raise ZeroDivisionError.
Proof.
  apply (deduplicate_news_divides_by_zero fst snd
           (fun t => if String.eqb t "" then ∅ else {[t]})
           [("u1", ""); ("u2", "")] 0 1 ("u1", "") ("u2", ""));
    [|lia|reflexivity..].
  apply NoDup_cons. split; [|apply NoDup_singleton].
  by intros [=]%list_elem_of_singleton.
Defined.

(** ** Key levels and trend of the market analysis *)

Lemma fold_py_min_least (rest : list Q) :
  forall x, fold_left py_min rest x <= x
            /\ Forall (fun p => fold_left py_min rest x <= p) rest.
Proof.
  induction rest as [|y rest IH]; intros x; cbn [fold_left].
  - split; [lra | apply List.Forall_nil].
  - destruct (IH (py_min x y)) as [Hcur Hrest].
    pose proof (py_min_le x y) as [Hx Hy].
    split; [lra|]. apply List.Forall_cons; [lra | done].
Qed.

Lemma py_max_ge (a b : Q) : a <= py_max a b /\ b <= py_max a b.
Proof. unfold py_max. destruct (Qlt_bool_spec a b); lra. Qed.

Lemma fold_py_max_greatest (rest : list Q) :
  forall x, x <= fold_left py_max rest x
            /\ Forall (fun p => p <= fold_left py_max rest x) rest.
Proof.
  induction rest as [|y rest IH]; intros x; cbn [fold_left].
  - split; [lra | apply List.Forall_nil].
  - destruct (IH (py_max x y)) as [Hcur Hrest].
    pose proof (py_max_ge x y) as [Hx Hy].
    split; [lra|]. apply List.Forall_cons; [lra | done].
Qed.

Lemma fold_py_min_member (rest : list Q) :
  forall x, fold_left py_min rest x ∈ x :: rest.
Proof.
  induction rest as [|y rest IH]; intros x; cbn [fold_left]; [by left|].
  specialize (IH (py_min x y)). unfold py_min in *.
  destruct (Qlt_bool y x); apply elem_of_cons in IH as [->|IH].
  - right. by left.
  - by do 2 right.
  - by left.
  - by do 2 right.
Qed.

(** X26.  For closing prices that are not negative, the market analysis puts
    its two support levels, in falling order, at or below every one of the
    last twenty closes and its two resistance levels, in rising order, at or
    above them; it never fails on a non-empty list. *)
Theorem key_levels_bracket_recent_closes (prices : list Q) :
  prices <> [] ->
  Forall (fun p => 0 <= p) prices ->
  exists s0 s1 r0 r1,
    key_levels prices = Ok ([s0; s1], [r0; r1])
    /\ s1 <= s0 /\ r0 <= r1
    /\ Forall (fun p => s0 <= p /\ p <= r0) (py_slice prices (Some (-20)%Z) None).
Proof.
  intros Hne Hpos. unfold key_levels.
  destruct prices as [|p0 ps] eqn:Hprices; [done|]. rewrite <- Hprices in *.
  change (Some (-20)%Z) with (Some (- Z.of_nat 20)%Z).
  rewrite py_slice_last by lia. unfold Spec.last_n.
  assert (Hsub : Forall (fun p => 0 <= p) (drop (length prices - 20) prices))
    by (by apply Forall_drop).
  destruct (drop (length prices - 20) prices) as [|x rest] eqn:Hdrop.
  { apply (f_equal length) in Hdrop. rewrite length_drop, Hprices in Hdrop.
    cbn in Hdrop. lia. }
  cbn. do 4 eexists. split; [reflexivity|].
  destruct (fold_py_min_least rest x) as [Hlx Hlrest].
  destruct (fold_py_max_greatest rest x) as [Hhx Hhrest].
  assert (0 <= fold_left py_min rest x) as Hlow.
  { pose proof (fold_py_min_member rest x) as Hin.
    rewrite List.Forall_forall in Hsub. apply Hsub. by apply list_elem_of_In. }
  assert (0 <= fold_left py_max rest x) as Hhigh by lra.
  split; [lra|]. split; [lra|].
  apply List.Forall_cons; [lra|].
  rewrite List.Forall_forall in *. intros p Hp.
  specialize (Hlrest p Hp). specialize (Hhrest p Hp). cbv beta in *. lra.
Qed.

Lemma key_levels_bracket_recent_closes_witness :
  exists s0 s1 r0 r1,
    key_levels [100; 110; 90] = Ok ([s0; s1], [r0; r1])
    /\ s1 <= s0 /\ r0 <= r1
    /\ Forall (fun p => s0 <= p /\ p <= r0)
         (py_slice [100; 110; 90] (Some (-20)%Z) None).
Proof.
  apply (key_levels_bracket_recent_closes [100; 110; 90]); [done|].
  repeat first [apply List.Forall_nil | apply List.Forall_cons]; lra.
Defined.

Lemma last_n_last_n {A : Type} (n m : nat) (l : list A) :
  (n <= m)%nat -> Spec.last_n n (Spec.last_n m l) = Spec.last_n n l.
Proof.
  intros Hnm. unfold Spec.last_n. rewrite drop_drop, length_drop. f_equal. lia.
Qed.

Lemma trend_direction_last_ten (prices : list Q) :
  (10 <= length prices)%nat ->
  trend_direction prices = trend_direction (Spec.last_n 10 prices).
Proof.
  intros Hlen. unfold trend_direction.
  assert (length (Spec.last_n 10 prices) = 10%nat) as Hten
    by (unfold Spec.last_n; rewrite length_drop; lia).
  rewrite Hten.
  destruct (Z.leb_spec 10 (Z.of_nat (length prices))) as [_|]; [|lia].
  change (10 <=? Z.of_nat 10)%Z with true. cbv iota.
  change (Some (-5)%Z) with (Some (- Z.of_nat 5)%Z).
  change (Some (-10)%Z) with (Some (- Z.of_nat 10)%Z).
  rewrite !py_slice_last by lia.
  rewrite !py_slice_window by lia.
  by rewrite !last_n_last_n by lia.
Qed.

(** X28.  The trend of the market analysis is read from the last ten bars
    alone: with fewer than ten bars it is neutral, and otherwise it is the
    trend of the closes of the last ten bars, whatever the forty bars before
    them hold. *)
Theorem analysis_trend_from_last_ten_bars (market_data : list MarketData) :
  trend_direction (analysis_prices market_data)
  = if (length market_data <? 10)%nat then "neutral"
    else trend_direction
           (map close_price (drop (length market_data - 10) market_data)).
Proof.
  unfold analysis_prices.
  destruct market_data as [|bar bars] eqn:Hmd; [done|]. rewrite <- Hmd. clear Hmd.
  change (Some (-50)%Z) with (Some (- Z.of_nat 50)%Z).
  rewrite py_slice_last by lia.
  destruct (Nat.ltb_spec (length market_data) 10) as [Hshort|Hlong].
  - unfold trend_direction at 1. rewrite length_map. unfold Spec.last_n.
    rewrite length_drop.
    by destruct (Z.leb_spec 10 (Z.of_nat (length market_data
                                          - (length market_data - 50)))); [lia|].
  - rewrite trend_direction_last_ten
      by (rewrite length_map; unfold Spec.last_n; rewrite length_drop; lia).
    rewrite (trend_direction_last_ten (map _ (drop _ _)))
      by (rewrite length_map, length_drop; lia).
    f_equal. unfold Spec.last_n. rewrite !length_map, !length_drop.
    rewrite <- !List.skipn_map, !drop_drop. f_equal. lia.
Qed.

(** ** The technical scorer against the table *)





(** ** The position sizer within the float range *)

(** X30.  For a budget (the numeric entry [max_position_size], else the
    setting) within 2^1000 in absolute value and a price of at least
    2^-20, the sizer of the service as constructed returns, in every risk
    tier, a quantity between 1 and 1000. *)
Theorem position_size_returns_within_bounds (settings : Settings)
    (config : gmap string Q) (current_price : Q) (r : RiskLevel) :
  Qabs (config_get config "max_position_size" (MAX_POSITION_SIZE settings))
  <= 2 ^ 1000 ->
  2 ^ (-20) <= current_price ->
  exists q,
    _calculate_position_size trading_service settings current_price r config = Ok q
    /\ (1 <= q <= 1000)%Z.
Proof.
  intros Hbudget Hprice.
  destruct (position_size_returns settings config current_price r Hbudget Hprice)
    as [q Hq].
  exists q. split; [exact Hq|]. exact (position_size_clamped _ _ _ _ _ _ Hq).
Qed.

Lemma position_size_returns_within_bounds_witness :
  exists q,
    _calculate_position_size trading_service Sample.settings 33 HIGH ∅ = Ok q
    /\ (1 <= q <= 1000)%Z.
Proof.
  apply position_size_returns_within_bounds; vm_compute; discriminate.
Defined.
